(** * Student resource handlers (routes/studentsRoutes.js)

    A shallow embedding of the ten Express handlers of
    [routes/studentsRoutes.js] and of the part of the Mongoose model API
    they call, followed by the properties of the handlers.

    Layout:
    - [Js]       : the JavaScript built-ins the handlers use
                   ([parseInt], [String.prototype.split], truthiness);
    - [Mongo]    : documents, and the filter, update and pipeline
                   documents the handlers build;
    - [Http]     : values handed to [res.json], responses, requests;
    - [Async]    : settled promises and the [try]/[catch] of an
                   [async] handler as a state-and-error monad;
    - [Routes]   : the ten handlers, over the [StudentModel] interface;
    - [Regex]    : the pattern fragment the reference store evaluates;
    - [MemStore] : an in-memory reference store implementing the
                   interface with the document store's semantics;
    - [Spec]     : the vocabulary of the properties;
    - [Demo]     : a small store and requests for the examples;
    - the properties, C1 to C10. *)

From Stdlib Require Import String Ascii ZArith QArith Qcanon List Lia Permutation.
From Stdlib Require Import Sorting.Sorted.
From stdpp Require Import gmap strings list fin_maps.

Set Warnings "-register-all".

Local Open Scope string_scope.
Local Open Scope Z_scope.

(* ===================================================================== *)
(** ** JavaScript built-ins *)
(* ===================================================================== *)

Module Js.

(** Strings are sequences of bytes holding UTF-8 text, one [ascii] per
    byte: a character outside the ASCII range takes two to four bytes. *)

(** The string of the bytes [l]. *)
Definition bytes (l : list nat) : string :=
  fold_right (fun n s => String (ascii_of_nat n) s) EmptyString l.

(** A JavaScript number as the handlers meet it: the result of
    [parseInt] is [NaN], an integer-valued double, or an infinity. *)
Inductive JSNum : Type :=
  | NaN : JSNum
  | Num : Z -> JSNum
  | Infinity (negative : bool) : JSNum.

(** The double nearest to the natural number [n], ties to the even
    significand: exact below 2^53, 53 significant bits above, and
    [Infinity] from 2^1024 on. *)
Definition nearest_double (n : Z) : JSNum :=
  if n <? 2 ^ 53 then Num n
  else
    let k := Z.log2 n - 52 in
    let q := n / 2 ^ k in
    let r := n mod 2 ^ k in
    let half := 2 ^ (k - 1) in
    let q' := if (half <? r) || ((r =? half) && Z.odd q) then q + 1 else q in
    if 2 ^ 1024 <=? q' * 2 ^ k then Infinity false else Num (q' * 2 ^ k).

(** The Number value of the integer [n]. *)
Definition to_double (n : Z) : JSNum :=
  match nearest_double (Z.abs n) with
  | Num v => Num (Z.sgn n * v)
  | Infinity _ => Infinity (n <? 0)
  | NaN => NaN
  end.

(** StrWhiteSpaceChar of one byte: TAB, LF, VT, FF, CR, SP. *)
Definition is_space (c : ascii) : bool :=
  let n := nat_of_ascii c in
  ((9 <=? n) && (n <=? 13) || (n =? 32))%nat.

(** StrWhiteSpaceChar of two bytes: U+00A0. *)
Definition is_space2 (c1 c2 : ascii) : bool :=
  ((nat_of_ascii c1 =? 194) && (nat_of_ascii c2 =? 160))%nat.

(** StrWhiteSpaceChar of three bytes: U+1680, U+2000 to U+200A, U+2028,
    U+2029, U+202F, U+205F, U+3000 and U+FEFF. *)
Definition is_space3 (c1 c2 c3 : ascii) : bool :=
  let a := nat_of_ascii c1 in
  let b := nat_of_ascii c2 in
  let c := nat_of_ascii c3 in
  ((a =? 225) && (b =? 154) && (c =? 128)
   || (a =? 226) && (b =? 128)
      && ((128 <=? c) && (c <=? 138) || (c =? 168) || (c =? 169) || (c =? 175))
   || (a =? 226) && (b =? 129) && (c =? 159)
   || (a =? 227) && (b =? 128) && (c =? 128)
   || (a =? 239) && (b =? 187) && (c =? 191))%nat.

Fixpoint trim_left (s : string) : string :=
  match s with
  | String c1 s1 =>
      if is_space c1 then trim_left s1
      else
        match s1 with
        | String c2 s2 =>
            if is_space2 c1 c2 then trim_left s2
            else
              match s2 with
              | String c3 s3 =>
                  if is_space3 c1 c2 c3 then trim_left s3 else s
              | EmptyString => s
              end
        | EmptyString => s
        end
  | EmptyString => s
  end.

(** The value of [c] as a digit in [radix], if it is one. *)
Definition digit_val (radix : Z) (c : ascii) : option Z :=
  let n := Z.of_nat (nat_of_ascii c) in
  let d :=
    if (48 <=? n) && (n <=? 57) then Some (n - 48)
    else if (97 <=? n) && (n <=? 122) then Some (n - 87)
    else if (65 <=? n) && (n <=? 90) then Some (n - 55)
    else None in
  match d with
  | Some v => if v <? radix then Some v else None
  | None => None
  end.

(** The longest prefix of radix digits, as a number; [acc] is [None]
    until a first digit has been read. *)
Fixpoint read_digits (radix : Z) (s : string) (acc : option Z) : option Z :=
  match s with
  | String c s' =>
      match digit_val radix c with
      | Some d => read_digits radix s' (Some (radix * default 0 acc + d))
      | None => acc
      end
  | EmptyString => acc
  end.

(** [parseInt(string)] with no radix argument: leading white space is
    skipped, a sign is read, a [0x]/[0X] prefix selects radix 16, and the
    longest digit prefix, as a double, is the result; no digit at all
    gives [NaN]. *)
Definition parseInt (s : string) : JSNum :=
  let s1 := trim_left s in
  let '(sign, s2) :=
    match s1 with
    | String "-" r => (-1, r)
    | String "+" r => (1, r)
    | _ => (1, s1)
    end in
  let '(radix, s3) :=
    match s2 with
    | String "0" (String "x" r) => (16, r)
    | String "0" (String "X" r) => (16, r)
    | _ => (10, s2)
    end in
  match read_digits radix s3 None with
  | Some n => to_double (sign * n)
  | None => NaN
  end.

(** [s.split(sep)] for a one-character separator. *)
Fixpoint split (sep : ascii) (s : string) : list string :=
  match s with
  | EmptyString => [""]
  | String c s' =>
      if Ascii.eqb c sep then "" :: split sep s'
      else match split sep s' with
           | h :: t => String c h :: t
           | [] => [String c ""]
           end
  end.

(** [arr.join(",")]. *)
Fixpoint join_comma (l : list string) : string :=
  match l with
  | [] => ""
  | [x] => x
  | x :: rest => x ++ "," ++ join_comma rest
  end.

(** A value read from [req.query]: [undefined] for a missing key, and
    otherwise what the query-string parser produces, a string, an array
    of strings for a repeated key, or an object with the sub-keys of a
    bracketed key. *)
Inductive QueryVal : Type :=
  | QUndef
  | QStr (s : string)
  | QArr (l : list string)
  | QObj (fields : list (string * QueryVal)).

(** [if (v)]: [undefined] and the empty string are falsy, arrays and
    objects are truthy. *)
Definition truthy (v : QueryVal) : bool :=
  match v with
  | QUndef => false
  | QStr EmptyString => false
  | _ => true
  end.

(** [String(v)]. *)
Definition to_string (v : QueryVal) : string :=
  match v with
  | QUndef => "undefined"
  | QStr s => s
  | QArr l => join_comma l
  | QObj _ => "[object Object]"
  end.

(** [v.split(",")]: defined on strings only; [None] stands for the
    TypeError of calling a missing method. *)
Definition split_method (v : QueryVal) : option (list string) :=
  match v with
  | QStr s => Some (split "," s)
  | _ => None
  end.

End Js.

(* ===================================================================== *)
(** ** Documents and the documents the handlers build *)
(* ===================================================================== *)

Module Mongo.

(** A stored field value. *)
Inductive FieldVal : Type :=
  | FNum (n : Z)
  | FStr (s : string)
  | FBool (b : bool)
  | FStrs (l : list string)
  | FDate (t : Z)
  | FId (i : N).

(** The fields of a student a client can write.  The handlers name
    [name], [marks], [course], [city], [subjects] and [enrolled]. *)
Record StudentData : Type := mkData {
  name : string;
  marks : Z;
  course : string;
  city : string;
  subjects : list string;
  enrolled : bool;
}.

(** A stored student: the store-assigned identifier and creation
    timestamp, and the client's fields. *)
Record Student : Type := mkStudent {
  _id : N;
  createdAt : Z;
  doc : StudentData;
}.

(** What [Student.create] resolves to: a document for one body, an
    array of documents for an array of bodies. *)
Inductive Created : Type :=
  | One (s : Student)
  | Many (l : list Student).

(** [student[path]]. *)
Definition get_field (path : string) (s : Student) : option FieldVal :=
  if String.eqb path "_id" then Some (FId (_id s))
  else if String.eqb path "createdAt" then Some (FDate (createdAt s))
  else if String.eqb path "name" then Some (FStr (name (doc s)))
  else if String.eqb path "marks" then Some (FNum (marks (doc s)))
  else if String.eqb path "course" then Some (FStr (course (doc s)))
  else if String.eqb path "city" then Some (FStr (city (doc s)))
  else if String.eqb path "subjects" then Some (FStrs (subjects (doc s)))
  else if String.eqb path "enrolled" then Some (FBool (enrolled (doc s)))
  else None.

(** The condition put on one path of a filter document. *)
Inductive Cond : Type :=
  | Eq (v : Js.QueryVal)                      (* { path: v } *)
  | Gte (n : Js.JSNum)                      (* { path: { $gte: n } } *)
  | In_ (l : list string)                   (* { path: { $in: l } } *)
  | Regex (pattern options : string).       (* { path: { $regex, $options } } *)

(** A value of a key of the filter document: a condition on the path
    the key names, or the array of alternatives of [$or], each an object
    literal of path conditions. *)
Inductive QueryEntry : Type :=
  | QCond (c : Cond)
  | QOr (branches : list (list (string * Cond))).

(** The filter document is a JavaScript object, keyed by path or
    operator name. *)
Abbreviation Query := (gmap string QueryEntry).

(** [{ path: direction }] of [.sort]; [[]] when [.sort] is not called. *)
Definition SortDoc : Type := list (string * Z).

(** One update operator applied to one path. *)
Inductive UpdateOp : Type :=
  | Inc (path : string) (n : Z)             (* $inc: { path: n } *)
  | Push (path : string) (s : string)       (* $push: { path: s } *)
  | Set_ (path : string) (v : FieldVal).    (* $set: { path: v } *)

(** An aggregation expression: a constant or a field path ([$path]). *)
Inductive Expr : Type :=
  | Const (n : Z)
  | Path (p : string).

(** A [$group] accumulator. *)
Inductive Accumulator : Type :=
  | Sum (e : Expr)
  | Avg (e : Expr)
  | Max (e : Expr)
  | Min (e : Expr).

(** A pipeline stage. *)
Inductive Stage : Type :=
  | Group (id : Expr) (fields : list (string * Accumulator))
  | Sort (by_ : list (string * Z)).

(** A value inside the aggregation pipeline: [null], a stored field
    value, or a computed number.  Computed numbers are exact rationals
    (the store computes averages in double precision). *)
Inductive AggVal : Type :=
  | ANull
  | AField (v : FieldVal)
  | ANum (q : Q).

(** A document inside the aggregation pipeline, as its fields. *)
Definition Row : Type := list (string * AggVal).

End Mongo.

(* ===================================================================== *)
(** ** Requests and responses *)
(* ===================================================================== *)

Module Http.

(** The values that flow through a handler: request bodies and the
    arguments of [res.json].  Documents and aggregation rows are kept as
    leaves; the handlers pass them on without looking inside. *)
Inductive Value : Type :=
  | VNull
  | VBool (b : bool)
  | VNum (n : Z)
  | VStr (s : string)
  | VDoc (d : Mongo.Student)
  | VRow (r : Mongo.Row)
  | VArr (l : list Value)
  | VObj (fields : list (string * Value)).

(** [obj[key]] on an object literal. *)
Fixpoint field (key : string) (fields : list (string * Value)) : option Value :=
  match fields with
  | [] => None
  | (k, v) :: rest => if String.eqb k key then Some v else field key rest
  end.

Definition get (key : string) (v : Value) : option Value :=
  match v with
  | VObj fields => field key fields
  | _ => None
  end.

(** What [res.status(code).json(body)] sends. *)
Record Response : Type := mkResponse {
  status : Z;
  body : Value;
}.

(** [req]: route parameters, parsed query string, parsed body. *)
Record Request : Type := mkRequest {
  params : gmap string string;
  query : gmap string Js.QueryVal;
  req_body : Value;
}.

(** [req.params.x]; a route parameter of the matched path is always a
    string. *)
Definition param (req : Request) (x : string) : string :=
  default "" (params req !! x).

End Http.

(* ===================================================================== *)
(** ** Promises, [await] and [try]/[catch] *)
(* ===================================================================== *)

Module Async.

(** A thrown value.  Everything the model methods and the built-ins
    throw is an error object with a string [message]; the handlers read
    only [error.message]. *)
Record Error : Type := mkError {
  err_name : string;
  message : string;
}.

(** A settled promise, or the completion of a block. *)
Inductive Result (A : Type) : Type :=
  | Resolved (a : A)
  | Rejected (e : Error).
Arguments Resolved {A} a.
Arguments Rejected {A} e.

(** A computation over a store of type [S] that may throw. *)
Definition M (S A : Type) : Type := S -> Result A * S.

Definition ret {S A} (a : A) : M S A := fun st => (Resolved a, st).

Definition throw {S A} (e : Error) : M S A := fun st => (Rejected e, st).

(** [const x = await m; k x] *)
Definition bind {S A B} (m : M S A) (k : A -> M S B) : M S B :=
  fun st =>
    match m st with
    | (Resolved a, st') => k a st'
    | (Rejected e, st') => (Rejected e, st')
    end.

(** [try { body } catch (error) { handler error }] *)
Definition try_catch {S A} (body : M S A) (handler : Error -> M S A) : M S A :=
  fun st =>
    match body st with
    | (Resolved a, st') => (Resolved a, st')
    | (Rejected e, st') => handler e st'
    end.

End Async.

Declare Scope async_scope.
Delimit Scope async_scope with async.
Notation "x <- m ;; k" := (Async.bind m (fun x => k))
  (at level 100, m at next level, right associativity) : async_scope.


(* ===================================================================== *)
(** ** The handlers *)
(* ===================================================================== *)

Module Routes.
Import Js Mongo Http Async.

(** The second argument of [findByIdAndUpdate]: the request body as it
    came, or a literal of update operators, each with the paths it
    applies to. *)
Inductive UpdateDoc : Type :=
  | UBody (v : Value)
  | UOperators (ops : list UpdateOp).

(** The third argument of [findByIdAndUpdate]. *)
Record UpdateOptions : Type := mkOptions {
  new : bool;
  runValidators : bool;
}.

(** [require("../models/Student")]: the model methods the handlers call,
    over a store of type [S]. *)
Class StudentModel (S : Type) : Type := {
  create : Value -> M S Created;
  insertMany : Value -> M S (list Student);
  find : Query -> SortDoc -> M S (list Student);
  findById : string -> M S (option Student);
  findByIdAndUpdate : string -> UpdateDoc -> UpdateOptions -> M S (option Student);
  findByIdAndDelete : string -> M S (option Student);
  aggregate : list Stage -> M S (list Row);
}.

(** [res.status(code).json({ ... })] *)
Definition json (code : Z) (fields : list (string * Value)) : Response :=
  mkResponse code (VObj fields).

(** The body every [catch] block sends. *)
Definition failure (code : Z) (error : Error) : Response :=
  json code [("success", VBool false); ("error", VStr (message error))].

Definition not_found : Response :=
  json 404 [("success", VBool false); ("error", VStr "Student not found")].

(** [students.length] *)
Definition count_of {A} (l : list A) : Value := VNum (Z.of_nat (length l)).

Definition docs (l : list Student) : Value := VArr (map VDoc l).

(** The [data] of the create handler: what [Student.create] gave. *)
Definition created (c : Created) : Value :=
  match c with
  | One s => VDoc s
  | Many l => docs l
  end.

Definition type_error (msg : string) : Error := mkError "TypeError" msg.

Section Handlers.
Context {S : Type} {model : StudentModel S}.
Local Open Scope async_scope.

(** 1. [POST /api/v1/students/create] *)
Definition create_student (req : Request) : M S Response :=
  try_catch
    (student <- create (req_body req) ;;
     ret (json 201 [("success", VBool true); ("data", created student)]))
    (fun error => ret (failure 400 error)).

(** 2. [POST /api/v1/students/create/bulk] *)
Definition create_bulk (req : Request) : M S Response :=
  try_catch
    (students <- insertMany (req_body req) ;;
     ret (json 201 [("success", VBool true);
                    ("count", count_of students);
                    ("data", docs students)]))
    (fun error => ret (failure 400 error)).

(** 3. [GET /api/v1/students/get] *)
Definition get_all (req : Request) : M S Response :=
  try_catch
    (students <- find ∅ [("createdAt", -1)] ;;
     ret (json 200 [("success", VBool true);
                    ("count", count_of students);
                    ("data", docs students)]))
    (fun error => ret (failure 500 error)).

(** 4. [GET /api/v1/students/get/:id] *)
Definition get_by_id (req : Request) : M S Response :=
  try_catch
    (student <- findById (param req "id") ;;
     match student with
     | None => ret not_found
     | Some student =>
         ret (json 200 [("success", VBool true); ("data", VDoc student)])
     end)
    (fun error => ret (failure 500 error)).

(** The filter document of handler 5, built key by key as the handler
    does; [courses.split] throws when [courses] is not a string. *)
Definition build_query (minMarks courses city : QueryVal) : Result Query :=
  let query : Query := ∅ in
  let query :=
    if truthy minMarks
    then <["marks" := QCond (Gte (parseInt (to_string minMarks)))]> query
    else query in
  let query :=
    if truthy courses
    then match split_method courses with
         | Some l => Resolved (<["course" := QCond (In_ l)]> query)
         | None => Rejected (type_error "courses.split is not a function")
         end
    else Resolved query in
  match query with
  | Rejected e => Rejected e
  | Resolved query =>
      Resolved
        (if truthy city && truthy minMarks
         then delete "marks"
                (<["$or" := QOr [[("city", Eq city)];
                                 [("marks", Gte (parseInt (to_string minMarks)))]]]>
                   query)
         else query)
  end.

Definition filter_description : string :=
  "Filtered students using $gte, $in, $or operators".

(** 5. [GET /api/v1/students/filter] *)
Definition filter_students (req : Request) : M S Response :=
  try_catch
    (let minMarks := default QUndef (query req !! "minMarks") in
     let courses := default QUndef (query req !! "courses") in
     let city := default QUndef (query req !! "city") in
     match build_query minMarks courses city with
     | Rejected e => throw e
     | Resolved query =>
         students <- find query [] ;;
         ret (json 200 [("success", VBool true);
                        ("description", VStr filter_description);
                        ("count", count_of students);
                        ("data", docs students)])
     end)
    (fun error => ret (failure 500 error)).

(** 6. [GET /api/v1/students/search/:name] *)
Definition search_students (req : Request) : M S Response :=
  try_catch
    (students <- find {["name" := QCond (Regex (param req "name") "i")]} [] ;;
     ret (json 200 [("success", VBool true);
                    ("description",
                     VStr ("Students matching '" ++ param req "name"
                           ++ "' (case-insensitive)"));
                    ("count", count_of students);
                    ("data", docs students)]))
    (fun error => ret (failure 500 error)).

(** 7. [PUT /api/v1/students/update/:id] *)
Definition update_student (req : Request) : M S Response :=
  try_catch
    (student <- findByIdAndUpdate (param req "id") (UBody (req_body req))
                  {| new := true; runValidators := true |} ;;
     match student with
     | None => ret not_found
     | Some student =>
         ret (json 200 [("success", VBool true); ("data", VDoc student)])
     end)
    (fun error => ret (failure 400 error)).

(** The update literal of handler 8. *)
Definition operators_update : UpdateDoc :=
  UOperators [Inc "marks" 5; Push "subjects" "AI"; Set_ "enrolled" (FBool true)].

(** 8. [PUT /api/v1/students/update/:id/operators] *)
Definition update_operators (req : Request) : M S Response :=
  try_catch
    (student <- findByIdAndUpdate (param req "id") operators_update
                  {| new := true; runValidators := false |} ;;
     match student with
     | None => ret not_found
     | Some student =>
         ret (json 200 [("success", VBool true);
                        ("description",
                         VStr "Updated using $inc, $push, $set operators");
                        ("data", VDoc student)])
     end)
    (fun error => ret (failure 400 error)).

(** 9. [DELETE /api/v1/students/delete/:id] *)
Definition delete_student (req : Request) : M S Response :=
  try_catch
    (student <- findByIdAndDelete (param req "id") ;;
     match student with
     | None => ret not_found
     | Some student =>
         ret (json 200 [("success", VBool true);
                        ("message", VStr "Student deleted successfully");
                        ("data", VDoc student)])
     end)
    (fun error => ret (failure 500 error)).

(** The pipeline of handler 10. *)
Definition stats_pipeline : list Stage :=
  [Group (Path "course")
     [("totalStudents", Sum (Const 1));
      ("averageMarks", Avg (Path "marks"));
      ("maxMarks", Max (Path "marks"));
      ("minMarks", Min (Path "marks"))];
   Sort [("averageMarks", -1)]].

(** 10. [GET /api/v1/students/stats] *)
Definition stats (req : Request) : M S Response :=
  try_catch
    (result <- aggregate stats_pipeline ;;
     ret (json 200 [("success", VBool true);
                    ("description",
                     VStr "Course-wise statistics using $group, $sum, $avg, $max, $min");
                    ("data", VArr (map VRow result))]))
    (fun error => ret (failure 500 error)).

(** The routing table of [module.exports]. *)
Inductive Operation : Type :=
  | CreateOne | CreateMany | ListAll | GetById | Filter
  | Search | UpdateWhole | UpdateOperators | Delete | Stats.

Definition handler (op : Operation) : Request -> M S Response :=
  match op with
  | CreateOne => create_student
  | CreateMany => create_bulk
  | ListAll => get_all
  | GetById => get_by_id
  | Filter => filter_students
  | Search => search_students
  | UpdateWhole => update_student
  | UpdateOperators => update_operators
  | Delete => delete_student
  | Stats => stats
  end.

End Handlers.

End Routes.

(* ===================================================================== *)
(** ** Patterns *)
(* ===================================================================== *)

(** The store matches [$regex] patterns with its regular-expression
    engine.  This module evaluates a fragment of the pattern syntax:
    printable ASCII characters standing for themselves, [.],
    alternation [|], groups [( )], the quantifiers [*], [+], [?], and a
    backslash before a punctuation character.  What the engine does
    with any other pattern is left to the store's interface. *)

Module Regex.

Inductive re : Type :=
  | Eps
  | Chr (c : ascii)
  | AnyChar
  | Cat (r1 r2 : re)
  | Alt (r1 r2 : re)
  | Star (r : re).

(** *** Characters *)

(** Text is matched character by character.  In UTF-8 a character is
    a byte other than a continuation byte ([10xxxxxx]), followed by its
    continuation bytes. *)
Definition is_cont (c : ascii) : bool :=
  let n := nat_of_ascii c in ((128 <=? n) && (n <? 192))%nat.

(** Each byte with the continuation bytes that follow it. *)
Fixpoint group (s : string) : list string :=
  match s with
  | EmptyString => []
  | String c s' =>
      match group s' with
      | String d r :: tl =>
          if is_cont d then String c (String d r) :: tl
          else String c EmptyString :: String d r :: tl
      | _ => [String c EmptyString]
      end
  end.

(** The characters of a text; none for a text that starts inside a
    character. *)
Definition chars (s : string) : option (list string) :=
  match s with
  | String c _ => if is_cont c then None else Some (group s)
  | EmptyString => Some []
  end.

(** Lower-case of an ASCII letter, other bytes unchanged. *)
Definition lower (c : ascii) : ascii :=
  let n := nat_of_ascii c in
  if ((65 <=? n) && (n <=? 90))%nat then ascii_of_nat (n + 32) else c.

(** The two characters outside ASCII that caseless matching equates
    with an ASCII letter: U+212A (Kelvin sign) with [k], and U+017F
    (long s) with [s]. *)
Definition kelvin_sign : string := Js.bytes [226; 132; 170]%nat.
Definition long_s : string := Js.bytes [197; 191]%nat.

(** The representative of a character under caseless matching. *)
Definition fold_char (ch : string) : string :=
  match ch with
  | String c EmptyString => String (lower c) EmptyString
  | _ =>
      if String.eqb ch kelvin_sign then "k"
      else if String.eqb ch long_s then "s"
      else ch
  end.

(** Does the pattern character [c] accept the character [ch]?
    Caseless under option [i]. *)
Definition chr_eqb (caseless : bool) (c : ascii) (ch : string) : bool :=
  if caseless
  then String.eqb (fold_char (String c EmptyString)) (fold_char ch)
  else String.eqb (String c EmptyString) ch.

Definition newline : string := String (ascii_of_nat 10) EmptyString.

(** [.] accepts every character but a newline. *)
Definition any_ok (ch : string) : bool := negb (String.eqb ch newline).

Fixpoint nullable (r : re) : bool :=
  match r with
  | Eps => true
  | Chr _ => false
  | AnyChar => false
  | Cat r1 r2 => nullable r1 && nullable r2
  | Alt r1 r2 => nullable r1 || nullable r2
  | Star _ => true
  end.

(** What is left of [r] after the character [d]; [None] is the empty
    language. *)
Fixpoint deriv (caseless : bool) (d : string) (r : re) : option re :=
  match r with
  | Eps => None
  | Chr c => if chr_eqb caseless c d then Some Eps else None
  | AnyChar => if any_ok d then Some Eps else None
  | Cat r1 r2 =>
      let left := (fun r1' => Cat r1' r2) <$> deriv caseless d r1 in
      if nullable r1
      then match left, deriv caseless d r2 with
           | Some a, Some b => Some (Alt a b)
           | Some a, None => Some a
           | None, o => o
           end
      else left
  | Alt r1 r2 =>
      match deriv caseless d r1, deriv caseless d r2 with
      | Some a, Some b => Some (Alt a b)
      | Some a, None => Some a
      | None, o => o
      end
  | Star r1 => (fun r1' => Cat r1' (Star r1)) <$> deriv caseless d r1
  end.

(** Does some prefix of the characters [s] belong to the language of
    [r]? *)
Fixpoint match_prefix (caseless : bool) (r : re) (s : list string) : bool :=
  nullable r ||
  match s with
  | [] => false
  | d :: s' =>
      match deriv caseless d r with
      | Some r' => match_prefix caseless r' s'
      | None => false
      end
  end.

(** Unanchored search: does [r] match somewhere in [s]? *)
Fixpoint search (caseless : bool) (r : re) (s : list string) : bool :=
  match_prefix caseless r s ||
  match s with
  | [] => false
  | _ :: s' => search caseless r s'
  end.

(** Does [r] match somewhere in [text]? *)
Definition test (caseless : bool) (r : re) (text : string) : bool :=
  match chars text with
  | Some cs => search caseless r cs
  | None => false
  end.

(** *** Pattern syntax *)

(** The sequence being read inside one group: the alternatives closed
    by [|] so far, the atoms of the current alternative (last first),
    and whether the last atom already carries a quantifier. *)
Record frame : Type := mkFrame {
  alts : option re;
  atoms : list re;
  quantified : bool;
}.

Definition empty_frame : frame := mkFrame None [] false.

(** The concatenation of the atoms read, in source order. *)
Definition cat_of (rev_atoms : list re) : re :=
  fold_left (fun acc a => match acc with Eps => a | _ => Cat a acc end)
            rev_atoms Eps.

Definition close_alt (f : frame) : re :=
  match alts f with
  | Some a => Alt a (cat_of (atoms f))
  | None => cat_of (atoms f)
  end.

Definition push_atom (a : re) (f : frame) : frame :=
  mkFrame (alts f) (a :: atoms f) false.

Inductive compiled : Type :=
  | Compiled (r : re)
  | Invalid (msg : string)      (* the engine rejects the pattern *)
  | Beyond.                     (* syntax outside the fragment *)

Definition is_alnum (c : ascii) : bool :=
  let n := nat_of_ascii c in
  ((48 <=? n) && (n <=? 57) || (65 <=? n) && (n <=? 90)
   || (97 <=? n) && (n <=? 122))%nat.

(** The printable ASCII characters, space included. *)
Definition printable (c : ascii) : bool :=
  let n := nat_of_ascii c in ((32 <=? n) && (n <=? 126))%nat.

(** Apply a quantifier to the last atom read.  A quantifier after a
    quantifier (lazy, possessive or stacked) is outside the fragment. *)
Definition quantify (q : re -> re) (f : frame) : frame + compiled :=
  match atoms f with
  | a :: rest =>
      if quantified f then inr Beyond
      else inl (mkFrame (alts f) (q a :: rest) true)
  | [] => inr (Invalid "quantifier does not follow a repeatable item")
  end.

(** The pattern is read from left to right.  Outside the fragment are:
    a backslash before a letter or a digit (character types, assertions,
    back references), a parenthesis followed by a question mark or a
    star (group options, assertions, verbs),
    the anchors [^] and [$], character classes [[ ]], counted
    repetition [{ }], and every byte that is not printable ASCII. *)
Fixpoint parse (s : string) (cur : frame) (stack : list frame) : compiled :=
  match s with
  | EmptyString =>
      match stack with
      | [] => Compiled (close_alt cur)
      | _ :: _ => Invalid "missing closing parenthesis"
      end
  | String c rest =>
      let quant q :=
        match quantify q cur with
        | inl f => parse rest f stack
        | inr e => e
        end in
      if Ascii.eqb c "\" then
        match rest with
        | EmptyString => Invalid "\ at end of pattern"
        | String e rest' =>
            if printable e && negb (is_alnum e)
            then parse rest' (push_atom (Chr e) cur) stack
            else Beyond
        end
      else if Ascii.eqb c "(" then
        match rest with
        | String "?" _ => Beyond
        | String "*" _ => Beyond
        | _ => parse rest empty_frame (cur :: stack)
        end
      else if Ascii.eqb c ")" then
        match stack with
        | outer :: stack' => parse rest (push_atom (close_alt cur) outer) stack'
        | [] => Invalid "unmatched closing parenthesis"
        end
      else if Ascii.eqb c "|" then
        parse rest (mkFrame (Some (close_alt cur)) [] false) stack
      else if Ascii.eqb c "*" then quant Star
      else if Ascii.eqb c "+" then quant (fun a => Cat a (Star a))
      else if Ascii.eqb c "?" then quant (fun a => Alt a Eps)
      else if Ascii.eqb c "." then parse rest (push_atom AnyChar cur) stack
      else if Ascii.eqb c "^" || Ascii.eqb c "$" || Ascii.eqb c "["
              || Ascii.eqb c "{" then Beyond
      else if printable c then parse rest (push_atom (Chr c) cur) stack
      else Beyond
  end.

Definition compile (pattern : string) : compiled :=
  parse pattern empty_frame [].

End Regex.

(* ===================================================================== *)
(** ** The reference store *)
(* ===================================================================== *)

Module MemStore.
Import Js Mongo Http Async Routes.

(** Modelled from the spec: the document store behind [models/Student]
    is not part of the sources.  The reference store follows the
    specification's words for each operation; what the specification
    leaves to the schema and to the store is taken as an interface. *)
Class Schema : Type := {
  (** the identifier a path segment denotes, when it is well formed *)
  parse_id : string -> option N;
  (** [new Student(body)] followed by validation *)
  cast_doc : Value -> Result StudentData;
  (** an array is not a document *)
  cast_doc_array : forall l, exists e, cast_doc (VArr l) = Rejected e;
  (** the documents [Student.create] has stored of an array of bodies
      when it rejects the array *)
  partial_create : list Value -> list StudentData;
  (** the documents [Student.insertMany] has stored of a batch when it
      rejects the batch *)
  partial_insert : list Value -> list StudentData;
  (** the error, if any, of casting and validating an update body,
      raised before the document is looked up *)
  cast_update : Value -> option Error;
  (** an update body written over a stored document *)
  write_update : Value -> StudentData -> Result StudentData;
  (** an object as the condition of a path: the test its operators
      stand for, or the error of casting it *)
  cast_object : string -> list (string * QueryVal)
                -> Result (option FieldVal -> bool);
  (** the engine on a pattern and options outside the fragment of
      [Regex]: the test on a text, or the error of compiling *)
  regex_beyond : string -> string -> Result (string -> bool);
}.

(** The collection in insertion order, the next identifier the store
    hands out, and the clock creation timestamps are read from. *)
Record Store : Type := mkStore {
  students : list Student;
  next_id : N;
  clock : Z;
}.

Definition quote : string := String (ascii_of_nat 34) EmptyString.

(** The error of a [value] of type [type_] that cannot be cast to the
    [kind] of its path. *)
Definition cast_error (kind value type_ path : string) : Error :=
  mkError "CastError"
    ("Cast to " ++ kind ++ " failed for value " ++ quote ++ value ++ quote
     ++ " (type " ++ type_ ++ ") at path " ++ quote ++ path ++ quote
     ++ " for model " ++ quote ++ "Student" ++ quote).

(** *** Identifiers *)

Fixpoint read_hex (s : string) (acc : N) : option N :=
  match s with
  | EmptyString => Some acc
  | String c s' =>
      match digit_val 16 c with
      | Some d => read_hex s' (16 * acc + Z.to_N d)%N
      | None => None
      end
  end.

(** The usual identifier format: 24 hexadecimal digits. *)
Definition hex_id (s : string) : option N :=
  if (String.length s =? 24)%nat then read_hex s 0%N else None.

Definition by_id (i : N) (l : list Student) : option Student :=
  List.find (fun s => (_id s =? i)%N) l.

Definition string_in (s : string) (l : list string) : bool :=
  existsb (String.eqb s) l.

(** *** Sorting *)

Section Sorting.
Context {A : Type} (leb : A -> A -> bool).

Fixpoint insert_sorted (x : A) (l : list A) : list A :=
  match l with
  | [] => [x]
  | y :: l' => if leb x y then x :: l else y :: insert_sorted x l'
  end.

(** A stable sort: equal elements keep their order. *)
Fixpoint sort_by (l : list A) : list A :=
  match l with
  | [] => []
  | x :: l' => insert_sorted x (sort_by l')
  end.

End Sorting.

(** The order of stored values of one kind; values of different kinds
    are left in place. *)
Definition field_leb (a b : option FieldVal) : bool :=
  match a, b with
  | Some (FNum x), Some (FNum y) => x <=? y
  | Some (FDate x), Some (FDate y) => x <=? y
  | Some (FId x), Some (FId y) => (x <=? y)%N
  | Some (FStr x), Some (FStr y) => String.leb x y
  | Some (FBool x), Some (FBool y) => implb x y
  | _, _ => true
  end.

(** Ascending for a positive direction, descending otherwise. *)
Definition directed {A} (leb : A -> A -> bool) (dir : Z) (a b : A) : bool :=
  if 0 <? dir then leb a b else leb b a.

(** Modelled from the spec: [.sort(doc)], "ordered by"; the first key
    of [doc] is the most significant. *)
Definition sort_docs (by_ : SortDoc) (l : list Student) : list Student :=
  fold_right
    (fun pd acc =>
       sort_by (fun a b => directed field_leb (snd pd)
                             (get_field (fst pd) a) (get_field (fst pd) b))
               acc)
    l by_.

(** *** Updates *)

Definition with_marks (n : Z) (d : StudentData) : StudentData :=
  mkData (name d) n (course d) (city d) (subjects d) (enrolled d).

Definition with_subjects (l : list string) (d : StudentData) : StudentData :=
  mkData (name d) (marks d) (course d) (city d) l (enrolled d).

Definition with_enrolled (b : bool) (d : StudentData) : StudentData :=
  mkData (name d) (marks d) (course d) (city d) (subjects d) b.

Definition with_name (x : string) (d : StudentData) : StudentData :=
  mkData x (marks d) (course d) (city d) (subjects d) (enrolled d).

Definition with_course (x : string) (d : StudentData) : StudentData :=
  mkData (name d) (marks d) x (city d) (subjects d) (enrolled d).

Definition with_city (x : string) (d : StudentData) : StudentData :=
  mkData (name d) (marks d) (course d) x (subjects d) (enrolled d).

Definition is_data_path (path : string) : bool :=
  string_in path ["name"; "marks"; "course"; "city"; "subjects"; "enrolled"].

(** Does the value [v] have the type the schema gives [path]? *)
Definition fits (path : string) (v : FieldVal) : bool :=
  match v with
  | FStr _ => string_in path ["name"; "course"; "city"]
  | FNum _ => String.eqb path "marks"
  | FBool _ => String.eqb path "enrolled"
  | FStrs _ => String.eqb path "subjects"
  | FDate _ | FId _ => false
  end.

(** The error, if any, of casting an operator to the schema, raised
    before the document is looked up: a [$set] value of the wrong type
    for a path of the schema. *)
Definition check_op (op : UpdateOp) : option Error :=
  match op with
  | Set_ path v =>
      if is_data_path path && negb (fits path v)
      then Some (mkError "CastError" ("Cast failed at path " ++ quote ++ path ++ quote))
      else None
  | _ => None
  end.

Definition check_ops (ops : list UpdateOp) : option Error :=
  head (omap check_op ops).

(** Modelled from the spec: one operator on the client's fields,
    "increment", "append to the list" and "set".  A path the schema
    does not have is dropped from the update. *)
Definition apply_op (op : UpdateOp) (d : StudentData) : Result StudentData :=
  match op with
  | Inc path n =>
      if String.eqb path "marks" then Resolved (with_marks (marks d + n) d)
      else if is_data_path path
      then Rejected (mkError "MongoServerError"
                       ("Cannot apply $inc to a value of non-numeric type at "
                        ++ path))
      else Resolved d
  | Push path x =>
      if String.eqb path "subjects"
      then Resolved (with_subjects (subjects d ++ [x]) d)
      else if is_data_path path
      then Rejected (mkError "MongoServerError"
                       ("The field " ++ path ++ " must be an array"))
      else Resolved d
  | Set_ path v =>
      match v with
      | FStr x =>
          if String.eqb path "name" then Resolved (with_name x d)
          else if String.eqb path "course" then Resolved (with_course x d)
          else if String.eqb path "city" then Resolved (with_city x d)
          else Resolved d
      | FNum n =>
          if String.eqb path "marks" then Resolved (with_marks n d)
          else Resolved d
      | FBool b =>
          if String.eqb path "enrolled" then Resolved (with_enrolled b d)
          else Resolved d
      | FStrs l =>
          if String.eqb path "subjects" then Resolved (with_subjects l d)
          else Resolved d
      | FDate _ | FId _ => Resolved d
      end
  end.

Fixpoint apply_ops (ops : list UpdateOp) (d : StudentData) : Result StudentData :=
  match ops with
  | [] => Resolved d
  | op :: rest =>
      match apply_op op d with
      | Resolved d' => apply_ops rest d'
      | Rejected e => Rejected e
      end
  end.

(** Replace the first document with identifier [i]. *)
Fixpoint replace_first (i : N) (s' : Student) (l : list Student) : list Student :=
  match l with
  | [] => []
  | s :: rest =>
      if (_id s =? i)%N then s' :: rest else s :: replace_first i s' rest
  end.

(** Remove the first document with identifier [i]. *)
Fixpoint remove_first (i : N) (l : list Student) : list Student :=
  match l with
  | [] => []
  | s :: rest => if (_id s =? i)%N then rest else s :: remove_first i rest
  end.

(** *** Aggregation *)

Definition to_row (s : Student) : Row :=
  [("_id", AField (FId (_id s)));
   ("createdAt", AField (FDate (createdAt s)));
   ("name", AField (FStr (name (doc s))));
   ("marks", AField (FNum (marks (doc s))));
   ("course", AField (FStr (course (doc s))));
   ("city", AField (FStr (city (doc s))));
   ("subjects", AField (FStrs (subjects (doc s))));
   ("enrolled", AField (FBool (enrolled (doc s))))].

(** [row[path]], [null] when missing. *)
Fixpoint row_get (path : string) (r : Row) : AggVal :=
  match r with
  | [] => ANull
  | (k, v) :: rest => if String.eqb k path then v else row_get path rest
  end.

Definition eval (e : Expr) (r : Row) : AggVal :=
  match e with
  | Const n => ANum (inject_Z n)
  | Path p => row_get p r
  end.

(** The numeric value of [v], if it has one. *)
Definition as_num (v : AggVal) : option Q :=
  match v with
  | ANum q => Some q
  | AField (FNum n) => Some (inject_Z n)
  | _ => None
  end.

Definition qsum (l : list Q) : Q := fold_right Qplus (inject_Z 0) l.

Definition qmax (a b : Q) : Q := if Qle_bool a b then b else a.

Definition qmin (a b : Q) : Q := if Qle_bool a b then a else b.

(** Modelled from the spec: an accumulator over the documents of one
    group, "count, average, maximum, minimum"; non-numeric operands are
    skipped.  Numbers are exact rationals, the average included. *)
Definition accumulate (a : Accumulator) (group : list Row) : AggVal :=
  let nums e := omap (fun r => as_num (eval e r)) group in
  match a with
  | Sum e => ANum (Qred (qsum (nums e)))
  | Avg e =>
      match nums e with
      | [] => ANull
      | xs => ANum (Qred (qsum xs / inject_Z (Z.of_nat (length xs))))
      end
  | Max e =>
      match nums e with
      | [] => ANull
      | x :: xs => ANum (Qred (fold_left qmax xs x))
      end
  | Min e =>
      match nums e with
      | [] => ANull
      | x :: xs => ANum (Qred (fold_left qmin xs x))
      end
  end.

#[global] Instance FieldVal_eq_dec : EqDecision FieldVal.
Proof. solve_decision. Defined.

#[global] Instance Q_eq_dec : EqDecision Q.
Proof. solve_decision. Defined.

#[global] Instance AggVal_eq_dec : EqDecision AggVal.
Proof. solve_decision. Defined.

(** Modelled from the spec: [$group], "group all entities by course":
    one output document per distinct key, holding the key as [_id] and
    each accumulator over the documents with that key. *)
Definition group_stage (id : Expr) (fields : list (string * Accumulator))
    (rows : list Row) : list Row :=
  map (fun k =>
         let members := List.filter (fun r => bool_decide (eval id r = k)) rows in
         ("_id", k) :: map (fun fa => (fst fa, accumulate (snd fa) members)) fields)
      (remove_dups (map (eval id) rows)).

(** The order of pipeline values: [null] first, numbers by value, other
    stored values as [field_leb] orders them. *)
Definition agg_leb (a b : AggVal) : bool :=
  match as_num a, as_num b with
  | Some x, Some y => Qle_bool x y
  | _, _ =>
      match a, b with
      | ANull, _ => true
      | _, ANull => false
      | AField x, AField y => field_leb (Some x) (Some y)
      | _, _ => true
      end
  end.

Definition sort_rows (by_ : list (string * Z)) (l : list Row) : list Row :=
  fold_right
    (fun pd acc =>
       sort_by (fun a b => directed agg_leb (snd pd)
                             (row_get (fst pd) a) (row_get (fst pd) b))
               acc)
    l by_.

Definition run_stage (st : Stage) (rows : list Row) : list Row :=
  match st with
  | Group id fields => group_stage id fields rows
  | Sort by_ => sort_rows by_ rows
  end.

Definition run_pipeline (stages : list Stage) (rows : list Row) : list Row :=
  fold_left (fun acc st => run_stage st acc) stages rows.

(** *** The model methods *)

Section Model.
Context {schema : Schema}.

(** **** Filter documents *)

(** What the store does with [{ $regex: pattern, $options: options }]
    before matching: the test the compiled pattern stands for, or the
    error it raises. *)
Definition regex_compile (pattern options : string) : Result (string -> bool) :=
  if String.eqb options "i" || String.eqb options "" then
    match Regex.compile pattern with
    | Regex.Compiled r => Resolved (Regex.test (String.eqb options "i") r)
    | Regex.Invalid msg =>
        Rejected (mkError "MongoServerError"
                    ("Regular expression is invalid: " ++ msg))
    | Regex.Beyond => regex_beyond pattern options
    end
  else regex_beyond pattern options.

(** The error, if any, the store raises for a condition before it looks
    at any document: a value that cannot be cast, a pattern that cannot
    be compiled. *)
Definition cond_error (path : string) (c : Cond) : option Error :=
  match c with
  | Gte NaN => Some (cast_error "Number" "NaN" "number" path)
  | Gte _ => None
  | Eq (QObj fields) =>
      match cast_object path fields with
      | Rejected e => Some e
      | Resolved _ => None
      end
  | Eq _ => None
  | In_ _ => None
  | Regex p o =>
      match regex_compile p o with
      | Rejected e => Some e
      | Resolved _ => None
      end
  end.

(** Modelled from the spec: the meaning of the conditions the handlers
    write (the predicate evaluation of the store is missing from the
    sources): equality with a string, "marks >= threshold", "course in
    the list", and the pattern match of the search.  An array as the
    value of a path stands for membership, as [$in] does. *)
Definition cond_holds (path : string) (c : Cond) (v : option FieldVal) : bool :=
  match c, v with
  | Eq (QStr x), Some (FStr s) => String.eqb s x
  | Eq (QStr x), Some (FStrs l) => string_in x l
  | Eq (QArr xs), Some (FStr s) => string_in s xs
  | Eq (QArr xs), Some (FStrs ss) => existsb (fun s => string_in s xs) ss
  | Eq (QObj fields), _ =>
      match cast_object path fields with
      | Resolved holds => holds v
      | Rejected _ => false
      end
  | Gte (Num t), Some (FNum m) => t <=? m
  | Gte (Infinity true), Some (FNum _) => true
  | In_ l, Some (FStr s) => string_in s l
  | In_ l, Some (FStrs ss) => existsb (fun s => string_in s l) ss
  | Regex p o, Some (FStr s) =>
      match regex_compile p o with
      | Resolved holds => holds s
      | Rejected _ => false
      end
  | _, _ => false
  end.

(** An object literal of path conditions holds when each of them does. *)
Definition branch_holds (br : list (string * Cond)) (s : Student) : bool :=
  forallb (fun pc => cond_holds (fst pc) (snd pc) (get_field (fst pc) s)) br.

(** Modelled from the spec: the keys of a filter document are joined by
    AND, the alternatives of [$or] by OR. *)
Definition entry_holds (key : string) (e : QueryEntry) (s : Student) : bool :=
  match e with
  | QCond c => cond_holds key c (get_field key s)
  | QOr branches =>
      String.eqb key "$or" && existsb (fun br => branch_holds br s) branches
  end.

Definition entry_error (key : string) (e : QueryEntry) : option Error :=
  match e with
  | QCond c => cond_error key c
  | QOr branches =>
      head (omap (fun pc => cond_error (fst pc) (snd pc)) (concat branches))
  end.

(** A document matches a filter document when it satisfies every key. *)
Definition matches (q : Query) (s : Student) : bool :=
  bool_decide (map_Forall (fun k e => entry_holds k e s = true) q).

Definition query_error (q : Query) : option Error :=
  head (omap (fun ke => entry_error (fst ke) (snd ke)) (map_to_list q)).

(** **** Methods *)

Definition insert_doc (d : StudentData) (st : Store) : Student * Store :=
  let s := mkStudent (next_id st) (clock st) d in
  (s, mkStore (students st ++ [s]) (next_id st + 1)%N (clock st)).

Fixpoint cast_all (l : list Value) : Result (list StudentData) :=
  match l with
  | [] => Resolved []
  | v :: rest =>
      match cast_doc v, cast_all rest with
      | Resolved d, Resolved ds => Resolved (d :: ds)
      | Rejected e, _ => Rejected e
      | _, Rejected e => Rejected e
      end
  end.

Fixpoint insert_all (ds : list StudentData) (st : Store) : list Student * Store :=
  match ds with
  | [] => ([], st)
  | d :: rest =>
      let '(s, st') := insert_doc d st in
      let '(ss, st'') := insert_all rest st' in
      (s :: ss, st'')
  end.

(** The documents of a batch that the store takes in: all of them
    when every item is valid, and otherwise those [partial] names. *)
Definition stored_of (partial : list Value -> list StudentData)
    (items : list Value) : list StudentData :=
  match cast_all items with
  | Resolved ds => ds
  | Rejected _ => partial items
  end.

(** Modelled from the spec: a batch is validated item by item and
    inserted item by item; when an item fails, the batch is reported as
    failed, and the items [partial] names have been stored (partial
    success, per the store's semantics). *)
Definition insert_batch (partial : list Value -> list StudentData)
    (items : list Value) : M Store (list Student) :=
  fun st =>
    let '(ss, st') := insert_all (stored_of partial items) st in
    match cast_all items with
    | Resolved _ => (Resolved ss, st')
    | Rejected e => (Rejected e, st')
    end.

(** Modelled from the spec: [Student.create(body)] validates the body
    and inserts it as a new entity with a fresh identifier; an array of
    bodies is a batch. *)
Definition mem_create (v : Value) : M Store Created :=
  fun st =>
    match v with
    | VArr items =>
        match insert_batch partial_create items st with
        | (Resolved ss, st') => (Resolved (Many ss), st')
        | (Rejected e, st') => (Rejected e, st')
        end
    | _ =>
        match cast_doc v with
        | Rejected e => (Rejected e, st)
        | Resolved d =>
            let '(s, st') := insert_doc d st in (Resolved (One s), st')
        end
    end.

(** Modelled from the spec: [Student.insertMany(body)]; a body that is
    not an array is a batch of one. *)
Definition mem_insertMany (v : Value) : M Store (list Student) :=
  insert_batch partial_insert (match v with VArr l => l | _ => [v] end).

(** Modelled from the spec: [Student.find(query).sort(by_)] returns the
    entities that satisfy the filter document, in stored order or in
    the order asked for. *)
Definition mem_find (q : Query) (by_ : SortDoc) : M Store (list Student) :=
  fun st =>
    match query_error q with
    | Some e => (Rejected e, st)
    | None => (Resolved (sort_docs by_ (List.filter (matches q) (students st))), st)
    end.

Definition bad_id (id : string) : Error :=
  cast_error "ObjectId" id "string" "_id".

(** Modelled from the spec: [Student.findById(id)] looks the entity up
    by identifier; a malformed identifier is an error. *)
Definition mem_findById (id : string) : M Store (option Student) :=
  fun st =>
    match parse_id id with
    | None => (Rejected (bad_id id), st)
    | Some i => (Resolved (by_id i (students st)), st)
    end.

(** The error, if any, of casting the update, raised before the
    document is looked up. *)
Definition check_update (u : UpdateDoc) : option Error :=
  match u with
  | UBody v => cast_update v
  | UOperators ops => check_ops ops
  end.

Definition apply_update (u : UpdateDoc) (d : StudentData) : Result StudentData :=
  match u with
  | UBody v => write_update v d
  | UOperators ops => apply_ops ops d
  end.

(** Modelled from the spec: [Student.findByIdAndUpdate(id, update,
    options)] casts the identifier, then the update, looks the entity
    up, applies the update and stores the result. *)
Definition mem_findByIdAndUpdate (id : string) (u : UpdateDoc)
    (opts : UpdateOptions) : M Store (option Student) :=
  fun st =>
    match parse_id id with
    | None => (Rejected (bad_id id), st)
    | Some i =>
        match check_update u with
        | Some e => (Rejected e, st)
        | None =>
            match by_id i (students st) with
            | None => (Resolved None, st)
            | Some s =>
                match apply_update u (doc s) with
                | Rejected e => (Rejected e, st)
                | Resolved d' =>
                    let s' := mkStudent (_id s) (createdAt s) d' in
                    (Resolved (Some (if new opts then s' else s)),
                     mkStore (replace_first i s' (students st))
                             (next_id st) (clock st))
                end
            end
        end
    end.

(** Modelled from the spec: [Student.findByIdAndDelete(id)] removes
    the entity with the identifier and returns it. *)
Definition mem_findByIdAndDelete (id : string) : M Store (option Student) :=
  fun st =>
    match parse_id id with
    | None => (Rejected (bad_id id), st)
    | Some i =>
        match by_id i (students st) with
        | None => (Resolved None, st)
        | Some s =>
            (Resolved (Some s),
             mkStore (remove_first i (students st)) (next_id st) (clock st))
        end
    end.

(** Modelled from the spec: [Student.aggregate(pipeline)] runs the
    stages over all entities. *)
Definition mem_aggregate (stages : list Stage) : M Store (list Row) :=
  fun st => (Resolved (run_pipeline stages (map to_row (students st))), st).

#[export] Instance mem_model : StudentModel Store := {
  create := mem_create;
  insertMany := mem_insertMany;
  find := mem_find;
  findById := mem_findById;
  findByIdAndUpdate := mem_findByIdAndUpdate;
  findByIdAndDelete := mem_findByIdAndDelete;
  aggregate := mem_aggregate;
}.

(** What happens to the store between two requests: a request is
    served, or time passes. *)
Inductive Event : Type :=
  | Call (op : Operation) (req : Request)
  | Tick (t : Z).

Definition serve (op : Operation) (req : Request) (st : Store)
    : Result Response * Store :=
  handler op req st.

Definition step (ev : Event) (st : Store) : Store :=
  match ev with
  | Call op req => snd (serve op req st)
  | Tick t => mkStore (students st) (next_id st) t
  end.

Definition run (trace : list Event) (st : Store) : Store :=
  fold_left (fun acc ev => step ev acc) trace st.

Definition empty_store : Store := mkStore [] 0%N 0.

(** The number of entities a response reports as created. *)
Definition created_in (r : Result Response) : nat :=
  match r with
  | Resolved resp =>
      if status resp =? 201 then
        match get "data" (body resp) with
        | Some (VArr l) => length l
        | Some _ => 1%nat
        | None => 0%nat
        end
      else 0%nat
  | Rejected _ => 0%nat
  end.

(** The number of creations a request stands for: the entities its
    body adds to the collection. *)
Definition creations_of (ev : Event) : nat :=
  match ev with
  | Call CreateOne req =>
      match req_body req with
      | VArr items => length (stored_of partial_create items)
      | v => match cast_doc v with Resolved _ => 1%nat | Rejected _ => 0%nat end
      end
  | Call CreateMany req =>
      length (stored_of partial_insert
                (match req_body req with VArr l => l | _ => [req_body req] end))
  | _ => 0%nat
  end.

(** The number of creations of a trace. *)
Definition creations (trace : list Event) : nat :=
  sum_list (map creations_of trace).

Definition is_delete (ev : Event) : bool :=
  match ev with
  | Call Delete _ => true
  | _ => false
  end.

End Model.

(** A schema for examples: identifiers are 24 hexadecimal digits, and a
    body is an object with exactly the six client fields, in order. *)
Definition strings_of (l : list Value) : option (list string) :=
  mapM (fun v => match v with VStr s => Some s | _ => None end) l.

Definition plain_cast (v : Value) : Result StudentData :=
  match v with
  | VObj [("name", VStr n); ("marks", VNum m); ("course", VStr c);
          ("city", VStr ci); ("subjects", VArr subs); ("enrolled", VBool e)] =>
      match strings_of subs with
      | Some l => Resolved (mkData n m c ci l e)
      | None => Rejected (mkError "ValidationError" "subjects: Cast to [string] failed")
      end
  | _ => Rejected (mkError "ValidationError" "Student validation failed")
  end.

(** The valid bodies of a list. *)
Definition valid_of (l : list Value) : list StudentData :=
  omap (fun v => match plain_cast v with
                 | Resolved d => Some d
                 | Rejected _ => None
                 end) l.

(** In the examples [Student.create] stores the valid bodies of an
    array it rejects and [Student.insertMany] stores nothing of a batch
    it rejects; an update body replaces the client's fields; conditions
    that are objects, and patterns outside the fragment, are refused. *)
Definition plain_schema : Schema := {|
  parse_id := hex_id;
  cast_doc := plain_cast;
  cast_doc_array := fun l => ex_intro _ _ eq_refl;
  partial_create := valid_of;
  partial_insert := fun _ => [];
  cast_update := fun v => match plain_cast v with
                          | Rejected e => Some e
                          | Resolved _ => None
                          end;
  write_update := fun v _ => plain_cast v;
  cast_object := fun path _ =>
    Rejected (cast_error "string" "[object Object]" "Object" path);
  regex_beyond := fun _ _ =>
    Rejected (mkError "MongoServerError" "pattern outside the examples");
|}.

End MemStore.

(* ===================================================================== *)
(** ** Vocabulary of the properties *)
(* ===================================================================== *)

Module Spec.
Import Js Mongo Http Async Routes MemStore.

(** *** Response envelopes *)

Definition success_flag (r : Response) : option bool :=
  match get "success" (body r) with
  | Some (VBool b) => Some b
  | _ => None
  end.

Definition error_text (r : Response) : option string :=
  match get "error" (body r) with
  | Some (VStr msg) => Some msg
  | _ => None
  end.

(** The entities a response returns in [data]. *)
Definition entities_of (r : Response) : list Student :=
  match get "data" (body r) with
  | Some (VArr l) =>
      omap (fun v => match v with VDoc s => Some s | _ => None end) l
  | _ => []
  end.

(** The body is an object with a boolean [success]; a success has
    status 200 or 201, a failure has status 400, 404 or 500 and an
    [error] text. *)
Definition enveloped (r : Response) : Prop :=
  (exists fields, body r = VObj fields) /\
  exists b, success_flag r = Some b /\
    if b then status r = 200 \/ status r = 201
    else (status r = 400 \/ status r = 404 \/ status r = 500)
         /\ exists msg, error_text r = Some msg.

(** A model that counts the calls made to the model it wraps. *)
Definition counted {S A} (m : M S A) : M (S * nat) A :=
  fun st =>
    let '(r, s') := m (fst st) in (r, (s', Datatypes.S (snd st))).

Definition counting {S} (model : StudentModel S) : StudentModel (S * nat) := {|
  create := fun v => counted (create v);
  insertMany := fun v => counted (insertMany v);
  find := fun q by_ => counted (find q by_);
  findById := fun id => counted (findById id);
  findByIdAndUpdate := fun id u o => counted (findByIdAndUpdate id u o);
  findByIdAndDelete := fun id => counted (findByIdAndDelete id);
  aggregate := fun p => counted (aggregate p);
|}.

(** *** Filter requests *)

(** An optional string parameter of the query string. *)
Definition as_query (p : option string) : QueryVal :=
  match p with
  | Some s => QStr s
  | None => QUndef
  end.

(** A parameter counts as given when it is present and not empty. *)
Definition given (p : option string) : option string :=
  match p with
  | Some EmptyString => None
  | _ => p
  end.

(** "course in the list", when a list is given. *)
Definition in_courses (courses : option (list string)) (s : Student) : Prop :=
  match courses with
  | Some l => course (doc s) ∈ l
  | None => True
  end.

(** The predicate of a filter request with a marks threshold, in the
    words of the specification: marks >= threshold AND course in the
    list; with a city, (city = given city OR marks >= threshold) AND
    course in the list. *)
Definition selected (threshold : Z) (courses : option (list string))
    (city_ : option string) (s : Student) : Prop :=
  match city_ with
  | None => threshold <= marks (doc s) /\ in_courses courses s
  | Some c =>
      (city (doc s) = c \/ threshold <= marks (doc s)) /\ in_courses courses s
  end.

#[global] Instance in_courses_dec courses s : Decision (in_courses courses s).
Proof. destruct courses; simpl; apply _. Defined.

#[global] Instance selected_dec t courses city_ s :
  Decision (selected t courses city_ s).
Proof. destruct city_; simpl; apply _. Defined.

Definition course_clause (courses : option (list string)) (s : Student) : bool :=
  bool_decide (in_courses courses s).

Definition spec_filter (threshold : Z) (courses : option (list string))
    (city_ : option string) (s : Student) : bool :=
  bool_decide (selected threshold courses city_ s).

(** The [$or] value the handler writes for a city and a threshold. *)
Definition or_entry (c : QueryVal) (n : JSNum) : QueryEntry :=
  QOr [[("city", Eq c)]; [("marks", Gte n)]].

(** The body of a successful filter response listing [result]. *)
Definition filter_response (result : list Student) : Response :=
  json 200 [("success", VBool true);
            ("description", VStr filter_description);
            ("count", count_of result);
            ("data", docs result)].

(** The query operators a condition, and a filter document, use. *)
Definition cond_operators (c : Cond) : list string :=
  match c with
  | Eq _ => []
  | Gte _ => ["$gte"]
  | In_ _ => ["$in"]
  | Regex _ _ => ["$regex"]
  end.

Definition entry_operators (e : QueryEntry) : list string :=
  match e with
  | QCond c => cond_operators c
  | QOr branches =>
      "$or" :: flat_map (flat_map (fun pc => cond_operators (snd pc))) branches
  end.

Definition operators_of (q : Query) : list string :=
  flat_map (fun ke => entry_operators (snd ke)) (map_to_list q).

Fixpoint starts_with (prefix s : string) : bool :=
  match prefix, s with
  | EmptyString, _ => true
  | String a p', String b s' => Ascii.eqb a b && starts_with p' s'
  | String _ _, EmptyString => false
  end.

(** Does [text] contain [word]? *)
Fixpoint mentions (text word : string) : bool :=
  starts_with word text ||
  match text with
  | EmptyString => false
  | String _ rest => mentions rest word
  end.

(** The description "states which combinators were used to build the
    query": it names an operator exactly when the query uses it. *)
Definition describes (description : string) (q : Query) : Prop :=
  forall op, In op ["$gte"; "$in"; "$or"] ->
    (mentions description op = true <-> In op (operators_of q)).

(** The same request without its [city] parameter. *)
Definition without_city (req : Request) : Request :=
  mkRequest (params req) (delete "city" (query req)) (req_body req).

(** *** Input failures of the two read handlers of C2 *)

Inductive input_failure {schema : Schema} : Operation -> Request -> Error -> Prop :=
  | malformed_identifier (req : Request) :
      parse_id (param req "id") = None ->
      input_failure GetById req (bad_id (param req "id"))
  | invalid_pattern (req : Request) (msg : string) :
      Regex.compile (param req "name") = Regex.Invalid msg ->
      input_failure Search req
        (mkError "MongoServerError" ("Regular expression is invalid: " ++ msg)).

(** *** Patterns *)

(** The meaning of a name fragment as a pattern is given here on its
    own terms: which texts are characters, which characters are equal
    ignoring case, which strings are patterns and which words a pattern
    denotes. *)

(** A continuation byte of a character of several bytes. *)
Definition continuation (c : ascii) : Prop :=
  (128 <= N_of_ascii c < 192)%N.

Fixpoint continuations (s : string) : Prop :=
  match s with
  | EmptyString => True
  | String c s' => continuation c /\ continuations s'
  end.

(** One character of a text: a byte that is not a continuation byte,
    and the continuation bytes after it. *)
Definition character (ch : string) : Prop :=
  match ch with
  | String c rest => ~ continuation c /\ continuations rest
  | EmptyString => False
  end.

(** The text made of the characters [l]. *)
Definition text_of (l : list string) : string :=
  fold_right String.append EmptyString l.

(** The cases of each letter: the lower-case and the upper-case ASCII
    letter, and for [k] and [s] the Kelvin sign (U+212A) and the long
    s (U+017F). *)
Definition cases : list (list string) :=
  [["a"; "A"]; ["b"; "B"]; ["c"; "C"]; ["d"; "D"]; ["e"; "E"]; ["f"; "F"];
   ["g"; "G"]; ["h"; "H"]; ["i"; "I"]; ["j"; "J"];
   ["k"; "K"; bytes [226; 132; 170]%nat];
   ["l"; "L"]; ["m"; "M"]; ["n"; "N"]; ["o"; "O"]; ["p"; "P"]; ["q"; "Q"];
   ["r"; "R"];
   ["s"; "S"; bytes [197; 191]%nat];
   ["t"; "T"]; ["u"; "U"]; ["v"; "V"]; ["w"; "W"]; ["x"; "X"]; ["y"; "Y"];
   ["z"; "Z"]].

(** Two characters are equal ignoring case when they are the same
    character or two cases of one letter. *)
Definition same_ignoring_case (a b : string) : Prop :=
  a = b \/ exists letter, In letter cases /\ In a letter /\ In b letter.

(** The words, as lists of characters, that a pattern denotes when
    letters are compared ignoring case. *)
Inductive Word : Regex.re -> list string -> Prop :=
  | W_Eps : Word Regex.Eps []
  | W_Chr (c : ascii) (ch : string) :
      same_ignoring_case (String c EmptyString) ch ->
      Word (Regex.Chr c) [ch]
  | W_Any (ch : string) :
      ch <> String (ascii_of_nat 10) EmptyString -> Word Regex.AnyChar [ch]
  | W_Cat (r1 r2 : Regex.re) (w1 w2 : list string) :
      Word r1 w1 -> Word r2 w2 -> Word (Regex.Cat r1 r2) (w1 ++ w2)
  | W_AltL (r1 r2 : Regex.re) (w : list string) :
      Word r1 w -> Word (Regex.Alt r1 r2) w
  | W_AltR (r1 r2 : Regex.re) (w : list string) :
      Word r2 w -> Word (Regex.Alt r1 r2) w
  | W_Star0 (r : Regex.re) : Word (Regex.Star r) []
  | W_StarS (r : Regex.re) (w1 w2 : list string) :
      Word r w1 -> Word (Regex.Star r) w2 ->
      Word (Regex.Star r) (w1 ++ w2).

(** [text] matches the pattern somewhere, ignoring case: some run of
    its characters is a word of the pattern. *)
Definition matches_ignoring_case (r : Regex.re) (text : string) : Prop :=
  exists before word after,
    Forall character (before ++ word ++ after) /\
    text = text_of (before ++ word ++ after) /\
    Word r word.

(** The characters with a meaning of their own in a pattern. *)
Definition metacharacters : list ascii :=
  list_ascii_of_string "\^$.[|()?*+{".

Definition letters_and_digits : list ascii :=
  list_ascii_of_string
    "0123456789abcdefghijklmnopqrstuvwxyzABCDEFGHIJKLMNOPQRSTUVWXYZ".

Definition printable_ascii (c : ascii) : Prop :=
  (32 <= N_of_ascii c <= 126)%N.

(** A character that stands for itself in a pattern. *)
Definition stands_for_itself (c : ascii) : Prop :=
  printable_ascii c /\ ~ In c metacharacters.

(** A character that a backslash makes stand for itself. *)
Definition escapable (c : ascii) : Prop :=
  printable_ascii c /\ ~ In c letters_and_digits.

(** The pattern of a sequence of pieces, and of a list of
    alternatives. *)
Definition sequence (l : list Regex.re) : Regex.re :=
  fold_right (fun a acc => match acc with
                           | Regex.Eps => a
                           | _ => Regex.Cat a acc
                           end)
             Regex.Eps l.

Definition choice (l : list Regex.re) : Regex.re :=
  match l with
  | [] => Regex.Eps
  | c :: rest => fold_left Regex.Alt rest c
  end.

(** The parts of the pattern grammar:
    an atom is a character, [.], an escaped character or a group;
    a piece is an atom with at most one quantifier;
    a sequence is a run of pieces;
    a choice is one or more sequences separated by [|]. *)
Inductive part : Type := Atom | Piece | Sequence | Choice.

(** [Reads p s l]: the string [s] reads as a [p]; [l] holds the pattern
    of an atom or a piece, the patterns of the pieces of a sequence, or
    the patterns of the alternatives of a choice. *)
Inductive Reads : part -> string -> list Regex.re -> Prop :=
  | R_char (c : ascii) :
      stands_for_itself c ->
      Reads Atom (String c EmptyString) [Regex.Chr c]
  | R_dot : Reads Atom "." [Regex.AnyChar]
  | R_escape (c : ascii) :
      escapable c ->
      Reads Atom (String "\" (String c EmptyString)) [Regex.Chr c]
  | R_group (s : string) (cs : list Regex.re) :
      Reads Choice s cs ->
      Reads Atom ("(" ++ s ++ ")") [choice cs]
  | R_once (s : string) (a : Regex.re) :
      Reads Atom s [a] -> Reads Piece s [a]
  | R_star (s : string) (a : Regex.re) :
      Reads Atom s [a] -> Reads Piece (s ++ "*") [Regex.Star a]
  | R_plus (s : string) (a : Regex.re) :
      Reads Atom s [a] ->
      Reads Piece (s ++ "+") [Regex.Cat a (Regex.Star a)]
  | R_opt (s : string) (a : Regex.re) :
      Reads Atom s [a] ->
      Reads Piece (s ++ "?") [Regex.Alt a Regex.Eps]
  | R_nil : Reads Sequence "" []
  | R_cons (s1 s2 : string) (a : Regex.re) (l : list Regex.re) :
      Reads Piece s1 [a] -> Reads Sequence s2 l ->
      Reads Sequence (s1 ++ s2) (a :: l)
  | R_one (s : string) (l : list Regex.re) :
      Reads Sequence s l -> Reads Choice s [sequence l]
  | R_more (s1 s2 : string) (l cs : list Regex.re) :
      Reads Sequence s1 l -> Reads Choice s2 cs ->
      Reads Choice (s1 ++ "|" ++ s2) (sequence l :: cs).

(** The string [s] is a pattern, and [r] is what it denotes. *)
Definition Pattern (s : string) (r : Regex.re) : Prop :=
  exists cs, Reads Choice s cs /\ r = choice cs.

(** *** Plain fragments *)

(** The characters of a string of ASCII letters and digits. *)
Definition letters_of (s : string) : list string :=
  map (fun c => String c EmptyString) (list_ascii_of_string s).

(** [s] is made of ASCII letters and digits. *)
Definition plain (s : string) : Prop :=
  Forall (fun c => In c letters_and_digits) (list_ascii_of_string s).

(** [fragment] occurs in [text] ignoring case: some run of characters
    of the text is the fragment, character by character, up to case. *)
Definition occurs_ignoring_case (fragment text : string) : Prop :=
  exists before word after,
    Forall character (before ++ word ++ after) /\
    text = text_of (before ++ word ++ after) /\
    Forall2 same_ignoring_case (letters_of fragment) word.

Definition search_response (fragment : string) (result : list Student) : Response :=
  json 200 [("success", VBool true);
            ("description",
             VStr ("Students matching '" ++ fragment ++ "' (case-insensitive)"));
            ("count", count_of result);
            ("data", docs result)].

(** *** Store invariant *)

(** Identifiers are unique and below the next identifier to hand out. *)
Definition wf_store (st : Store) : Prop :=
  NoDup (map _id (students st)) /\
  Forall (fun s => (_id s < next_id st)%N) (students st).

(** *** Operator update *)

(** The entity after one operator update, in the words of the
    specification: marks increased by 5, "AI" appended to subjects,
    enrolled set to true, everything else as it was. *)
Definition operator_updated (s : Student) : Student :=
  mkStudent (_id s) (createdAt s)
    (mkData (name (doc s)) (marks (doc s) + 5) (course (doc s)) (city (doc s))
            (subjects (doc s) ++ ["AI"]) true).

Definition operators_response (s : Student) : Response :=
  json 200 [("success", VBool true);
            ("description", VStr "Updated using $inc, $push, $set operators");
            ("data", VDoc s)].

Definition with_students (l : list Student) (st : Store) : Store :=
  mkStore l (next_id st) (clock st).

(** *** Delete *)

Definition deleted_response (s : Student) : Response :=
  json 200 [("success", VBool true);
            ("message", VStr "Student deleted successfully");
            ("data", VDoc s)].

(** *** Listing *)

(** Ordered by creation timestamp, descending. *)
Definition newest_first (l : list Student) : Prop :=
  Sorted (fun a b => createdAt b <= createdAt a) l.

Definition list_response (l : list Student) : Response :=
  json 200 [("success", VBool true); ("count", count_of l); ("data", docs l)].

(** *** Statistics *)

(** The entities of one course. *)
Definition of_course (c : string) (l : list Student) : list Student :=
  List.filter (fun s => String.eqb (course (doc s)) c) l.

Definition marks_of (l : list Student) : list Z :=
  map (fun s => marks (doc s)) l.

Definition total (l : list Z) : Z := fold_right Z.add 0 l.

Definition is_max (m : Z) (l : list Z) : Prop :=
  In m l /\ Forall (fun x => x <= m) l.

Definition is_min (m : Z) (l : list Z) : Prop :=
  In m l /\ Forall (fun x => m <= x) l.

(** The average of a non-empty list of marks, in lowest terms. *)
Definition average (l : list Z) : Q :=
  Qred (inject_Z (total l) / inject_Z (Z.of_nat (length l))).

(** [row] is the summary of course [c] over the collection [l]: the
    number of its entities and the average, maximum and minimum of their
    marks. *)
Definition summary_of (l : list Student) (c : string) (row : Row) : Prop :=
  let ms := marks_of (of_course c l) in
  exists mx mn,
    is_max mx ms /\ is_min mn ms /\
    row = [("_id", AField (FStr c));
           ("totalStudents", ANum (inject_Z (Z.of_nat (length ms))));
           ("averageMarks", ANum (average ms));
           ("maxMarks", ANum (inject_Z mx));
           ("minMarks", ANum (inject_Z mn))].

Definition average_of (row : Row) : option Q :=
  as_num (row_get "averageMarks" row).

(** Ordered by average marks, descending. *)
Definition by_average_descending (rows : list Row) : Prop :=
  Sorted (fun a b => exists x y,
            average_of a = Some x /\ average_of b = Some y /\ (y <= x)%Q)
         rows.

Definition has_course (l : list Student) (c : string) : Prop :=
  exists s, In s l /\ course (doc s) = c.

(** The accumulators of the [$group] stage of handler 10. *)
Definition stats_fields : list (string * Accumulator) :=
  [("totalStudents", Sum (Const 1)); ("averageMarks", Avg (Path "marks"));
   ("maxMarks", Max (Path "marks")); ("minMarks", Min (Path "marks"))].

Definition stats_response (rows : list Row) : Response :=
  json 200 [("success", VBool true);
            ("description",
             VStr "Course-wise statistics using $group, $sum, $avg, $max, $min");
            ("data", VArr (map VRow rows))].

End Spec.

(** ** Fixtures for the examples *)

Module Demo.
Import Js Mongo Http Async Routes MemStore.

(** The reference store under the example schema. *)
Definition model : StudentModel Store := @mem_model plain_schema.

Definition student_body (n : string) (m : Z) (c ci : string) : Value :=
  VObj [("name", VStr n); ("marks", VNum m); ("course", VStr c);
        ("city", VStr ci); ("subjects", VArr []); ("enrolled", VBool false)].

Definition post (b : Value) : Request := mkRequest ∅ ∅ b.

Definition bare : Request := mkRequest ∅ ∅ VNull.

(** A request with route parameter [key]. *)
Definition at_path (key value : string) : Request :=
  mkRequest {[key := value]} ∅ VNull.

Definition with_query (q : gmap string QueryVal) : Request :=
  mkRequest ∅ q VNull.

(** Three creations at times 0, 5 and 9. *)
Definition three_creations : list Event :=
  [Call CreateOne (post (student_body "Anna" 60 "Math" "Mumbai"));
   Tick 5;
   Call CreateOne (post (student_body "ANNE" 40 "CS" "Delhi"));
   Tick 9;
   Call CreateOne (post (student_body "Bob" 80 "Math" "Pune"))].

Definition anna : Student :=
  mkStudent 0 0 (mkData "Anna" 60 "Math" "Mumbai" [] false).
Definition anne : Student :=
  mkStudent 1 5 (mkData "ANNE" 40 "CS" "Delhi" [] false).
Definition bob : Student :=
  mkStudent 2 9 (mkData "Bob" 80 "Math" "Pune" [] false).

Definition three_students : Store := mkStore [anna; anne; bob] 3 9.

Definition anne_id : string := "000000000000000000000001".

End Demo.

(** ** Vocabulary of the further properties *)

Module More.
Import Js Mongo Http Async Routes MemStore Spec.

(** The status codes each handler can send, as its [try] and [catch]
    blocks write them. *)
Definition statuses (op : Operation) : list Z :=
  match op with
  | CreateOne | CreateMany => [201; 400]
  | ListAll | Filter | Search | Stats => [200; 500]
  | GetById | Delete => [200; 404; 500]
  | UpdateWhole | UpdateOperators => [200; 404; 400]
  end.

(** The status of the [catch] block of each handler. *)
Definition catch_status (op : Operation) : Z :=
  match op with
  | CreateOne | CreateMany | UpdateWhole | UpdateOperators => 400
  | ListAll | GetById | Filter | Search | Delete | Stats => 500
  end.

(** The error, if any, thrown inside the [try] block of a handler: by
    the one model call it awaits, or, in the filter handler, by
    [courses.split] before that call. *)
Definition thrown {S} {model : StudentModel S} (op : Operation) (req : Request)
    (st : S) : option Error :=
  let rejected {A} (r : Result A * S) : option Error :=
    match r with
    | (Rejected e, _) => Some e
    | (Resolved _, _) => None
    end in
  match op with
  | CreateOne => rejected (create (req_body req) st)
  | CreateMany => rejected (insertMany (req_body req) st)
  | ListAll => rejected (find ∅ [("createdAt", -1)] st)
  | GetById => rejected (findById (param req "id") st)
  | Filter =>
      match build_query (default QUndef (query req !! "minMarks"))
                        (default QUndef (query req !! "courses"))
                        (default QUndef (query req !! "city")) with
      | Rejected e => Some e
      | Resolved q => rejected (find q [] st)
      end
  | Search =>
      rejected (find {["name" := QCond (Regex (param req "name") "i")]} [] st)
  | UpdateWhole =>
      rejected (findByIdAndUpdate (param req "id") (UBody (req_body req))
                  {| new := true; runValidators := true |} st)
  | UpdateOperators =>
      rejected (findByIdAndUpdate (param req "id") operators_update
                  {| new := true; runValidators := false |} st)
  | Delete => rejected (findByIdAndDelete (param req "id") st)
  | Stats => rejected (aggregate stats_pipeline st)
  end.

(** The keys of the object a response carries, in order. *)
Definition keys_of (r : Response) : list string :=
  match body r with
  | VObj fields => map fst fields
  | _ => []
  end.

(** The keys of the success response of each handler. *)
Definition success_keys (op : Operation) : list string :=
  match op with
  | CreateOne | GetById | UpdateWhole => ["success"; "data"]
  | CreateMany | ListAll => ["success"; "count"; "data"]
  | Filter | Search => ["success"; "description"; "count"; "data"]
  | UpdateOperators | Stats => ["success"; "description"; "data"]
  | Delete => ["success"; "message"; "data"]
  end.

(** The number of entities a response reports as deleted. *)
Definition deleted_in (op : Operation) (r : Result Response) : nat :=
  match op, r with
  | Delete, Resolved resp => if status resp =? 200 then 1%nat else 0%nat
  | _, _ => 0%nat
  end.

(** The handlers whose success response carries a [count]. *)
Definition counts (op : Operation) : bool :=
  match op with
  | CreateMany | ListAll | Filter | Search => true
  | _ => false
  end.

(** The handlers that only read. *)
Definition reads (op : Operation) : bool :=
  match op with
  | ListAll | GetById | Filter | Search | Stats => true
  | _ => false
  end.

(** The handlers that take an identifier from the path. *)
Definition by_identifier (op : Operation) : bool :=
  match op with
  | GetById | UpdateWhole | UpdateOperators | Delete => true
  | _ => false
  end.

(** The error, if any, of casting the update of a request before its
    entity is looked up: that of the body of a whole update; the
    literal of the operator update always passes. *)
Definition update_cast_error {schema : Schema} (op : Operation)
    (req : Request) : option Error :=
  match op with
  | UpdateWhole => cast_update (req_body req)
  | _ => None
  end.

(** A create request that was answered with a failure. *)
Definition failed_create (op : Operation) (r : Result Response) : bool :=
  match op, r with
  | (CreateOne | CreateMany), Resolved resp => negb (status resp =? 201)
  | _, _ => false
  end.

Definition found_response (s : Student) : Response :=
  json 200 [("success", VBool true); ("data", VDoc s)].

Definition created_response (s : Student) : Response :=
  json 201 [("success", VBool true); ("data", VDoc s)].

(** Does [s] contain the character [c]? *)
Fixpoint has_char (c : ascii) (s : string) : bool :=
  match s with
  | EmptyString => false
  | String d s' => Ascii.eqb d c || has_char c s'
  end.

(** The entity after [n] operator updates. *)
Definition operator_updated_times (n : nat) (s : Student) : Student :=
  Nat.iter n operator_updated s.

(** The store after serving the same request [n] times. *)
Definition served_times {schema : Schema} (op : Operation) (req : Request)
    (n : nat) (st : Store) : Store :=
  Nat.iter n (fun st => snd (serve op req st)) st.

(** The [totalStudents] of the rows of a stats response. *)
Definition group_sizes (rows : list Row) : list AggVal :=
  map (row_get "totalStudents") rows.

(** A text that is empty or starts with a character. *)
Definition starts_character (t : string) : Prop :=
  match t with
  | EmptyString => True
  | String e _ => Regex.is_cont e = false
  end.

(** The pattern of the alternatives [l] read after the alternatives
    [a] of the same group. *)
Definition choice_after (a : option Regex.re) (l : list Regex.re) : Regex.re :=
  match a with
  | Some x => fold_left Regex.Alt l x
  | None => choice l
  end.

(** Every byte. *)
Definition all_bytes : list ascii := map ascii_of_nat (seq 0 256).

(** A test for [same_ignoring_case]. *)
Definition same_ignoring_case_b (a b : string) : bool :=
  String.eqb a b
  || existsb (fun letter => string_in a letter && string_in b letter) cases.

End More.

(* ===================================================================== *)
(** ** Properties *)
(* ===================================================================== *)

Import Js Mongo Http Async Routes MemStore Spec.

(** *** Filter documents *)

Section FilterDocuments.
Context {schema : Schema}.

Lemma matches_empty (s : Student) : matches ∅ s = true.
Proof.
  unfold matches. apply bool_decide_eq_true. apply map_Forall_empty.
Qed.

Lemma matches_insert (q : Query) (k : string) (e : QueryEntry) (s : Student) :
  q !! k = None ->
  matches (<[k:=e]> q) s = entry_holds k e s && matches q s.
Proof.
  intros Hk. unfold matches.
  destruct (entry_holds k e s) eqn:He; simpl.
  - apply bool_decide_ext. rewrite map_Forall_insert by done. tauto.
  - apply bool_decide_eq_false. rewrite map_Forall_insert by done.
    intros [Hc _]. congruence.
Qed.

Lemma query_error_empty : query_error ∅ = None.
Proof. unfold query_error. by rewrite map_to_list_empty. Qed.

Lemma head_omap_None {A B} (f : A -> option B) (l : list A) :
  head (omap f l) = None <-> Forall (fun a => f a = None) l.
Proof.
  induction l as [|a l IH]; simpl.
  - split; [constructor | done].
  - destruct (f a) eqn:Hf; simpl.
    + split; [done | intros Hall; inversion Hall; congruence].
    + rewrite IH. split; [by constructor | by inversion 1].
Qed.

Lemma query_error_None (q : Query) :
  query_error q = None <-> map_Forall (fun k e => entry_error k e = None) q.
Proof.
  unfold query_error. rewrite head_omap_None, map_Forall_to_list.
  apply Forall_proper; [|done]. by intros [k e].
Qed.

Lemma query_error_insert_None (q : Query) (k : string) (e : QueryEntry) :
  q !! k = None -> entry_error k e = None -> query_error q = None ->
  query_error (<[k:=e]> q) = None.
Proof.
  rewrite !query_error_None. intros Hk He Hq.
  by apply map_Forall_insert.
Qed.

Lemma query_error_insert_Some (q : Query) (k : string) (e : QueryEntry) (err : Error) :
  entry_error k e = Some err -> exists err', query_error (<[k:=e]> q) = Some err'.
Proof.
  intros He. destruct (query_error (<[k:=e]> q)) as [err'|] eqn:Hq; [by eexists|].
  apply query_error_None in Hq.
  specialize (Hq k e (lookup_insert_eq q k e)). simpl in Hq. congruence.
Qed.

End FilterDocuments.

(** *** The request boundary *)

Lemma failure_enveloped (code : Z) (e : Error) :
  code = 400 \/ code = 404 \/ code = 500 -> enveloped (failure code e).
Proof.
  intros Hc. split; [by eexists|].
  exists false. split; [done|]. split; [done|]. by eexists.
Qed.

Lemma not_found_enveloped : enveloped not_found.
Proof.
  split; [by eexists|]. exists false. split; [done|].
  split; [auto|]. by eexists.
Qed.

Lemma success_enveloped (code : Z) (rest : list (string * Value)) :
  code = 200 \/ code = 201 ->
  enveloped (json code (("success", VBool true) :: rest)).
Proof.
  intros Hc. split; [by eexists|]. exists true. by split.
Qed.

Create HintDb envelope.

#[local] Hint Resolve failure_enveloped not_found_enveloped success_enveloped : envelope.

Ltac settle_handler :=
  repeat match goal with
  | |- context [match ?o with Some _ => _ | None => _ end] =>
      destruct o; simpl
  | |- context [match ?m ?st with _ => _ end] =>
      destruct (m st) as [[?|?] ?] eqn:?; simpl
  end.

(** C3. Whatever the model does for the awaited call (resolve with a
    value, resolve with nothing, reject with any error), and whatever the
    request is, every one of the ten handlers completes normally with a
    response whose body is an object with a boolean [success], carrying an
    [error] text when [success] is false; and it calls the model at most
    once. *)
Theorem every_outcome_is_a_response :
  forall (S : Type) (model : StudentModel S) (op : Operation)
         (req : Request) (st : S) (n : nat),
    (exists resp st',
        handler op req st = (Resolved resp, st') /\ enveloped resp) /\
    (exists resp st' n',
        handler (model := counting model) op req (st, n) = (Resolved resp, (st', n'))
        /\ (n' <= n + 1)%nat).
Proof.
  intros S model op req st n. split.
  - destruct op; simpl;
      unfold create_student, create_bulk, get_all, get_by_id, filter_students,
        search_students, update_student, update_operators, delete_student, stats,
        try_catch, bind, ret, throw;
      try (destruct (build_query _ _ _); simpl);
      settle_handler;
      do 2 eexists; (split; [reflexivity|]); eauto 6 with envelope.
  - destruct op; simpl;
      unfold create_student, create_bulk, get_all, get_by_id, filter_students,
        search_students, update_student, update_operators, delete_student, stats,
        try_catch, bind, ret, throw; simpl;
      try (destruct (build_query _ _ _); simpl);
      unfold counted; simpl;
      repeat match goal with
      | |- context [match ?o with Some _ => _ | None => _ end] =>
          destruct o; simpl
      | |- context [let '(_, _) := ?m ?st in _] =>
          destruct (m st) as [[?|?] ?] eqn:?; simpl
      end;
      do 3 eexists; (split; [reflexivity|]); lia.
Qed.

(** *** Examples for the built-ins *)

Example parseInt_50 : parseInt "50" = Num 50.
Proof. reflexivity. Qed.

Example parseInt_prefix : parseInt "  -12px" = Num (-12).
Proof. reflexivity. Qed.

Example parseInt_hex : parseInt "0x1F" = Num 31.
Proof. reflexivity. Qed.

Example parseInt_nan : parseInt "abc" = NaN.
Proof. reflexivity. Qed.

Example split_courses : split "," "Math,CS" = ["Math"; "CS"].
Proof. reflexivity. Qed.

Example split_empty_piece : split "," "a,,b" = ["a"; ""; "b"].
Proof. reflexivity. Qed.

Example split_trailing : split "," "a,b," = ["a"; "b"; ""].
Proof. reflexivity. Qed.

Example parseInt_rounds_to_double :
  parseInt "9007199254740993" = Num 9007199254740992.
Proof. reflexivity. Qed.

Example parseInt_no_break_space :
  parseInt (bytes [194; 160]%nat ++ "50") = Num 50.
Proof. reflexivity. Qed.

Example parseInt_of_array : parseInt (to_string (QArr ["5"; "6"])) = Num 5.
Proof. reflexivity. Qed.

Example truthy_zero : truthy (QStr "0") = true.
Proof. reflexivity. Qed.

(** *** The filter handler *)

Section Filter.
Context {schema : Schema}.

Lemma lookup_as_query (m : gmap string QueryVal) (k : string) (p : option string) :
  m !! k = QStr <$> p -> default QUndef (m !! k) = as_query p.
Proof. intros ->. by destruct p. Qed.

Lemma filter_ext_bool {A} (f g : A -> bool) (l : list A) :
  (forall x, f x = g x) -> List.filter f l = List.filter g l.
Proof. intros Hfg. apply List.filter_ext. exact Hfg. Qed.

Lemma string_in_In (x : string) (l : list string) :
  string_in x l = true <-> In x l.
Proof.
  unfold string_in. rewrite existsb_exists. split.
  - intros (y & Hy & He). apply String.eqb_eq in He. by subst.
  - intros Hx. exists x. split; [done | apply String.eqb_refl].
Qed.

Lemma bool_decide_spec (b : bool) (P : Prop) `{Decision P} :
  (b = true <-> P) -> b = bool_decide P.
Proof.
  intros Hb. destruct b; symmetry.
  - apply bool_decide_eq_true. by apply Hb.
  - apply bool_decide_eq_false. intros HP. apply Hb in HP. discriminate.
Qed.

(** The store's tests and the predicate of the specification. *)
Lemma marks_and_course_selected (t : Z) (l : option (list string)) (s : Student) :
  (t <=? marks (doc s))
  && match l with Some l => string_in (course (doc s)) l | None => true end
  = spec_filter t l None s.
Proof.
  apply bool_decide_spec. unfold selected, in_courses.
  rewrite andb_true_iff, Z.leb_le.
  destruct l as [l|]; [rewrite string_in_In, <- list_elem_of_In|]; tauto.
Qed.

Lemma city_or_marks_selected (c : string) (t : Z) (l : option (list string))
    (s : Student) :
  (String.eqb (city (doc s)) c || (t <=? marks (doc s)))
  && match l with Some l => string_in (course (doc s)) l | None => true end
  = spec_filter t l (Some c) s.
Proof.
  apply bool_decide_spec. unfold selected, in_courses.
  rewrite andb_true_iff, orb_true_iff, Z.leb_le, String.eqb_eq.
  destruct l as [l|]; [rewrite string_in_In, <- list_elem_of_In|]; tauto.
Qed.

Ltac map_side :=
  repeat (rewrite lookup_insert_ne by done); try apply lookup_empty; done.

(** The three shapes of filter document a request with a threshold
    produces, and the predicate each one denotes. *)
Lemma matches_marks (t : Z) (s : Student) :
  matches (<["marks" := QCond (Gte (Num t))]> ∅) s = (t <=? marks (doc s)).
Proof.
  rewrite matches_insert by map_side. rewrite matches_empty. simpl.
  by rewrite andb_true_r.
Qed.

Lemma matches_marks_course (t : Z) (l : list string) (s : Student) :
  matches (<["course" := QCond (In_ l)]> (<["marks" := QCond (Gte (Num t))]> ∅)) s
  = (t <=? marks (doc s)) && string_in (course (doc s)) l.
Proof.
  rewrite matches_insert by map_side. rewrite matches_marks. simpl.
  apply andb_comm.
Qed.

Lemma matches_or (c : string) (t : Z) (s : Student) :
  matches (<["$or" := or_entry (QStr c) (Num t)]> ∅) s
  = String.eqb (city (doc s)) c || (t <=? marks (doc s)).
Proof.
  rewrite matches_insert by map_side. rewrite matches_empty. simpl.
  unfold branch_holds; simpl. by rewrite !andb_true_r, orb_false_r.
Qed.

Lemma matches_or_course (c : string) (t : Z) (l : list string) (s : Student) :
  matches (<["$or" := or_entry (QStr c) (Num t)]> (<["course" := QCond (In_ l)]> ∅)) s
  = (String.eqb (city (doc s)) c || (t <=? marks (doc s)))
    && string_in (course (doc s)) l.
Proof.
  rewrite matches_insert by map_side.
  rewrite matches_insert by map_side. rewrite matches_empty. simpl.
  unfold branch_holds; simpl. by rewrite !andb_true_r, orb_false_r.
Qed.

Lemma mem_find_filter (q : Query) (f : Student -> bool) (st : Store) :
  query_error q = None ->
  (forall s, matches q s = f s) ->
  mem_find q [] st = (Resolved (List.filter f (students st)), st).
Proof.
  intros Hq Hf. unfold mem_find. rewrite Hq. simpl.
  by rewrite (filter_ext_bool _ _ _ Hf).
Qed.

(** The filter document built for a request with a usable threshold. *)
Lemma build_query_threshold (m : string) (t : Z) (courses city_ : option string) :
  m <> "" -> parseInt m = Num t ->
  build_query (QStr m) (as_query courses) (as_query city_)
  = Resolved
      (let base : Query :=
         match given courses with
         | Some cs => <["course" := QCond (In_ (split "," cs))]> ∅
         | None => ∅
         end in
       match given city_ with
       | Some c => <["$or" := or_entry (QStr c) (Num t)]> base
       | None => <["marks" := QCond (Gte (Num t))]> base
       end).
Proof.
  intros Hm Ht. unfold build_query.
  assert (truthy (QStr m) = true) as -> by (by destruct m).
  simpl to_string. rewrite Ht.
  destruct courses as [[|a cs]|], city_ as [[|b c]|]; simpl; f_equal;
    unfold or_entry;
    repeat first
      [ rewrite delete_insert_ne by done
      | rewrite delete_insert_eq
      | rewrite delete_empty ];
    try reflexivity;
    apply insert_insert_ne; done.
Qed.

(** C1. A filter request whose [minMarks] parses to a threshold [t],
    with an optional comma-separated course list and an optional city,
    returns exactly the stored entities that satisfy the predicate of the
    specification: marks >= t AND course in the list when no city is
    given; (city = given city OR marks >= t) AND course in the list when
    a city is given. *)
Theorem filter_returns_spec_predicate :
  forall (req : Request) (st : Store) (m : string) (t : Z)
         (courses city_ : option string),
    query req !! "minMarks" = Some (QStr m) ->
    m <> "" ->
    parseInt m = Num t ->
    query req !! "courses" = QStr <$> courses ->
    query req !! "city" = QStr <$> city_ ->
    filter_students req st
    = (Resolved
         (filter_response
            (List.filter
               (spec_filter t (split "," <$> given courses) (given city_))
               (students st))),
       st).
Proof.
  intros req st m t courses city_ Hmarks Hm Ht Hcourses Hcity.
  unfold filter_students, try_catch.
  rewrite Hmarks, (lookup_as_query _ _ _ Hcourses), (lookup_as_query _ _ _ Hcity).
  change (default QUndef (Some (QStr m))) with (QStr m).
  rewrite (build_query_threshold m t courses city_ Hm Ht).
  unfold bind, ret, find; simpl.
  rewrite (mem_find_filter _
             (spec_filter t (split "," <$> given courses) (given city_))).
  - reflexivity.
  - destruct (given courses), (given city_); simpl;
      repeat (apply query_error_insert_None; [map_side | done |]);
      apply query_error_empty.
  - intros s.
    destruct (given courses) as [cs|], (given city_) as [c|]; simpl.
    + rewrite matches_or_course.
      apply (city_or_marks_selected c t (Some (split "," cs))).
    + rewrite (insert_insert_ne (M := gmap string)) by done.
      rewrite matches_marks_course.
      apply (marks_and_course_selected t (Some (split "," cs))).
    + rewrite matches_or, <- (city_or_marks_selected c t None).
      by rewrite andb_true_r.
    + rewrite matches_marks, <- (marks_and_course_selected t None).
      by rewrite andb_true_r.
Qed.

(** The city parameter plays no part without a threshold. *)
Lemma build_query_no_threshold (minMarks courses city_ : QueryVal) :
  truthy minMarks = false ->
  build_query minMarks courses city_ = build_query minMarks courses QUndef.
Proof.
  intros Hm. unfold build_query. rewrite Hm, andb_false_r. reflexivity.
Qed.

Lemma build_query_no_threshold_keys (minMarks courses city_ : QueryVal) (q : Query) :
  truthy minMarks = false ->
  build_query minMarks courses city_ = Resolved q ->
  q !! "$or" = None /\ q !! "city" = None.
Proof.
  intros Hm. unfold build_query. rewrite Hm, andb_false_r.
  destruct (truthy courses); [destruct (split_method courses)|];
    intros [= <-]; split; by simplify_map_eq.
Qed.

(** C10. When no marks threshold is supplied ([minMarks] absent or
    empty), a supplied city is ignored: the filter document has no city
    clause, and the response is that of the same request without the
    city parameter. *)
Theorem city_ignored_without_threshold :
  forall (req : Request) (st : Store),
    is_Some (query req !! "city") ->
    truthy (default QUndef (query req !! "minMarks")) = false ->
    filter_students req st = filter_students (without_city req) st /\
    forall q,
      build_query (default QUndef (query req !! "minMarks"))
                  (default QUndef (query req !! "courses"))
                  (default QUndef (query req !! "city")) = Resolved q ->
      q !! "$or" = None /\ q !! "city" = None.
Proof.
  intros req st _ Hm. split.
  - unfold filter_students, without_city; simpl.
    rewrite lookup_delete_eq, !lookup_delete_ne by done. simpl.
    by rewrite (build_query_no_threshold _ _ _ Hm).
  - intros q. by apply build_query_no_threshold_keys.
Qed.

End Filter.

Lemma filter_returns_spec_predicate_witness :
  filter_students (model := Demo.model)
    (Demo.with_query {["minMarks" := QStr "70"; "courses" := QStr "Math,CS";
                       "city" := QStr "Delhi"]})
    Demo.three_students
  = (Resolved (filter_response [Demo.anne; Demo.bob]), Demo.three_students).
Proof.
  refine (eq_trans
            (@filter_returns_spec_predicate plain_schema _ _ "70" 70
               (Some "Math,CS") (Some "Delhi") _ _ _ _ _) _);
    [reflexivity | discriminate | reflexivity | reflexivity | reflexivity
    | vm_compute; reflexivity].
Defined.

Lemma city_ignored_without_threshold_witness :
  filter_students (model := Demo.model)
    (Demo.with_query {["courses" := QStr "Math"; "city" := QStr "Delhi"]})
    Demo.three_students
  = filter_students (model := Demo.model)
      (without_city
         (Demo.with_query {["courses" := QStr "Math"; "city" := QStr "Delhi"]}))
      Demo.three_students.
Proof.
  apply (@city_ignored_without_threshold plain_schema
           (Demo.with_query {["courses" := QStr "Math"; "city" := QStr "Delhi"]})
           Demo.three_students);
    [by eexists | reflexivity].
Defined.

(** The example of the specification: [minMarks=50] and
    [courses=Math,CS] return the entities with marks >= 50 in one of the
    two courses; adding [city=Delhi] also returns the Delhi entity below
    the threshold. *)
Example filter_marks_and_courses :
  fst (filter_students (model := Demo.model)
         (Demo.with_query {["minMarks" := QStr "50"; "courses" := QStr "Math,CS"]})
         Demo.three_students)
  = Resolved (filter_response [Demo.anna; Demo.bob]).
Proof. vm_compute. reflexivity. Qed.

Example filter_city_or_marks :
  fst (filter_students (model := Demo.model)
         (Demo.with_query {["minMarks" := QStr "50"; "city" := QStr "Delhi"]})
         Demo.three_students)
  = Resolved (filter_response [Demo.anna; Demo.anne; Demo.bob]).
Proof. vm_compute. reflexivity. Qed.

(** *** The description of a filter response *)

(** C9, as stated, fails: a request with only a marks threshold builds a
    filter document that uses [$gte] alone, yet the description of its
    successful response also names [$in] and [$or]. *)
Lemma description_names_unused_operators :
  exists resp q d,
    fst (filter_students (model := Demo.model)
           (Demo.with_query {["minMarks" := QStr "50"]}) Demo.three_students)
    = Resolved resp /\
    success_flag resp = Some true /\
    build_query (QStr "50") QUndef QUndef = Resolved q /\
    operators_of q = ["$gte"] /\
    get "description" (body resp) = Some (VStr d) /\
    mentions d "$or" = true /\
    ~ describes d q.
Proof.
  eexists _, _, _. split; [vm_compute; reflexivity|].
  split; [reflexivity|]. split; [reflexivity|].
  split; [vm_compute; reflexivity|]. split; [reflexivity|].
  split; [vm_compute; reflexivity|].
  intros Hd. specialize (Hd "$or"). cbv zeta in Hd.
  assert (In "$or" ["$gte"]) as Hin.
  { apply Hd; [simpl; auto | vm_compute; reflexivity]. }
  simpl in Hin. destruct Hin as [Hin|[]]. discriminate.
Qed.

(** C9, amended. Every successful filter response carries the same
    fixed description, "Filtered students using $gte, $in, $or
    operators", whatever the parameters of the request and whatever
    filter document was built from them. *)
Theorem filter_description_is_fixed :
  forall (S : Type) (model : StudentModel S) (req : Request) (st st' : S)
         (resp : Response),
    filter_students req st = (Resolved resp, st') ->
    success_flag resp = Some true ->
    get "description" (body resp)
    = Some (VStr "Filtered students using $gte, $in, $or operators").
Proof.
  intros S model req st st' resp. unfold filter_students, try_catch, bind, ret, throw.
  destruct (build_query _ _ _) as [q|e]; simpl.
  - destruct (find q [] st) as [[l|e] st1]; simpl; intros [= <- <-]; [done|].
    discriminate.
  - intros [= <- <-]. discriminate.
Qed.

Lemma filter_description_is_fixed_witness :
  get "description"
      (body (filter_response [Demo.anna; Demo.bob]))
  = Some (VStr "Filtered students using $gte, $in, $or operators").
Proof.
  apply (filter_description_is_fixed Store Demo.model
           (Demo.with_query {["minMarks" := QStr "50"]})
           Demo.three_students Demo.three_students
           (filter_response [Demo.anna; Demo.bob]));
    [vm_compute; reflexivity | reflexivity].
Defined.

(** *** Malformed identifiers and invalid patterns *)

Section InputFailures.
Context {schema : Schema}.

Lemma get_by_id_malformed (req : Request) (st : Store) :
  parse_id (param req "id") = None ->
  get_by_id req st = (Resolved (failure 500 (bad_id (param req "id"))), st).
Proof.
  intros Hid. unfold get_by_id, try_catch, bind; simpl. unfold mem_findById.
  by rewrite Hid.
Qed.

Lemma search_invalid (req : Request) (st : Store) (msg : string) :
  Regex.compile (param req "name") = Regex.Invalid msg ->
  search_students req st
  = (Resolved (failure 500 (mkError "MongoServerError"
                              ("Regular expression is invalid: " ++ msg))), st).
Proof.
  intros Hre. unfold search_students, try_catch, bind; simpl. unfold mem_find.
  unfold query_error. rewrite map_to_list_singleton. simpl.
  unfold regex_compile. simpl. by rewrite Hre.
Qed.

Lemma search_compiled (req : Request) (st : Store) (r : Regex.re) :
  Regex.compile (param req "name") = Regex.Compiled r ->
  search_students req st
  = (Resolved
       (search_response (param req "name")
          (List.filter (fun s => Regex.test true r (name (doc s)))
                       (students st))), st).
Proof.
  intros Hr. unfold search_students, try_catch, bind; simpl.
  rewrite <- insert_empty.
  rewrite (mem_find_filter _
             (fun s => Regex.test true r (name (doc s)))); [done| |].
  - apply query_error_insert_None;
      [apply lookup_empty | | apply query_error_empty].
    simpl. unfold regex_compile. simpl. by rewrite Hr.
  - intros s. rewrite matches_insert by apply lookup_empty.
    rewrite matches_empty, andb_true_r. simpl.
    unfold regex_compile. simpl. by rewrite Hr.
Qed.

(** C2, amended. A get-by-id request with a malformed identifier and a
    name search with an invalid pattern are answered with status 500 and
    the message of the store's error; the store is unchanged. *)
Theorem input_failures_answer_500 :
  forall (op : Operation) (req : Request) (e : Error) (st : Store),
    input_failure op req e ->
    handler op req st = (Resolved (failure 500 e), st) /\
    status (failure 500 e) = 500 /\
    error_text (failure 500 e) = Some (message e).
Proof.
  intros op req e st Hfail. split; [|done].
  destruct Hfail as [req Hid | req msg Hre]; simpl.
  - by apply get_by_id_malformed.
  - by apply search_invalid.
Qed.

End InputFailures.

Lemma input_failures_answer_500_witness :
  handler (model := Demo.model) GetById (Demo.at_path "id" "xyz")
          Demo.three_students
  = (Resolved (failure 500 (bad_id "xyz")), Demo.three_students) /\
  status (failure 500 (bad_id "xyz")) = 500 /\
  error_text (failure 500 (bad_id "xyz")) = Some (message (bad_id "xyz")).
Proof.
  apply (@input_failures_answer_500 plain_schema GetById
           (Demo.at_path "id" "xyz")).
  apply malformed_identifier. reflexivity.
Defined.

(** C2, as stated, fails: the malformed identifier [xyz] and the
    invalid pattern [(] are both answered with status 500, not 400. *)
Lemma input_failures_are_not_400 :
  (parse_id (Schema := plain_schema) "xyz" = None /\
   exists resp,
     fst (get_by_id (model := Demo.model) (Demo.at_path "id" "xyz")
            Demo.three_students) = Resolved resp
     /\ status resp = 500 /\ status resp <> 400) /\
  (Regex.compile "(" = Regex.Invalid "missing closing parenthesis" /\
   exists resp,
     fst (search_students (model := Demo.model) (Demo.at_path "name" "(")
            Demo.three_students) = Resolved resp
     /\ status resp = 500 /\ status resp <> 400).
Proof.
  split; (split; [reflexivity|]); eexists;
    (split; [vm_compute; reflexivity|]); (split; [reflexivity | discriminate]).
Qed.

(** *** Lookup, replacement and removal by identifier *)

Lemma by_id_Some (i : N) (l : list Student) (s : Student) :
  by_id i l = Some s -> _id s = i /\ In s l.
Proof.
  unfold by_id. intros Hf. apply List.find_some in Hf as [Hin Heq].
  split; [by apply N.eqb_eq | done].
Qed.

Lemma by_id_None (i : N) (l : list Student) :
  ~ In i (map _id l) -> by_id i l = None.
Proof.
  induction l as [|s l IH]; simpl; [done|]. intros Hni.
  destruct (N.eqb_spec (_id s) i) as [Heq|Hne]; [tauto|].
  apply IH. tauto.
Qed.

Lemma map_id_replace_first (i : N) (s' : Student) (l : list Student) :
  _id s' = i -> map _id (replace_first i s' l) = map _id l.
Proof.
  intros Hid. induction l as [|s l IH]; simpl; [done|].
  destruct (N.eqb_spec (_id s) i) as [Heq|Hne]; simpl; congruence.
Qed.

Lemma length_replace_first (i : N) (s' : Student) (l : list Student) :
  length (replace_first i s' l) = length l.
Proof.
  induction l as [|s l IH]; simpl; [done|].
  destruct (_id s =? i)%N; simpl; congruence.
Qed.

Lemma in_replace_first (i : N) (s' x : Student) (l : list Student) :
  In x (replace_first i s' l) -> x = s' \/ In x l.
Proof.
  induction l as [|s l IH]; simpl; [tauto|].
  destruct (_id s =? i)%N; simpl; intros [->|Hin]; auto.
  destruct (IH Hin); auto.
Qed.

Lemma by_id_replace_first (i : N) (s s' : Student) (l : list Student) :
  by_id i l = Some s -> _id s' = i -> by_id i (replace_first i s' l) = Some s'.
Proof.
  intros Hf Hid. induction l as [|x l IH]; simpl in *; [done|].
  destruct (N.eqb_spec (_id x) i) as [Heq|Hne]; simpl.
  - by rewrite Hid, N.eqb_refl.
  - destruct (N.eqb_spec (_id x) i); [done|]. by apply IH.
Qed.

Lemma by_id_replace_first_ne (i j : N) (s' : Student) (l : list Student) :
  _id s' = i -> j <> i -> by_id j (replace_first i s' l) = by_id j l.
Proof.
  intros Hid Hne. induction l as [|x l IH]; simpl; [done|].
  destruct (N.eqb_spec (_id x) i) as [Heq|Hxi]; simpl.
  - destruct (N.eqb_spec (_id s') j), (N.eqb_spec (_id x) j); congruence.
  - destruct (N.eqb_spec (_id x) j); [done|]. apply IH.
Qed.

Lemma in_remove_first (i : N) (x : Student) (l : list Student) :
  In x (remove_first i l) -> In x l.
Proof.
  induction l as [|s l IH]; simpl; [done|].
  destruct (_id s =? i)%N; simpl; [auto|]. intros [->|Hin]; auto.
Qed.

Lemma NoDup_remove_first (i : N) (l : list Student) :
  NoDup (map _id l) -> NoDup (map _id (remove_first i l)).
Proof.
  induction l as [|s l IH]; simpl; [done|].
  rewrite NoDup_cons. intros [Hni Hnd].
  destruct (_id s =? i)%N; simpl; [done|].
  apply NoDup_cons. split; [|by apply IH].
  intros Hin. apply Hni. apply list_elem_of_In in Hin. apply list_elem_of_In.
  apply in_map_iff in Hin as (x & Hx & Hin). apply in_map_iff.
  exists x. split; [done|]. by apply in_remove_first in Hin.
Qed.

Lemma by_id_remove_first (i : N) (l : list Student) :
  NoDup (map _id l) -> by_id i (remove_first i l) = None.
Proof.
  induction l as [|s l IH]; simpl; [done|].
  rewrite NoDup_cons. intros [Hni Hnd].
  destruct (N.eqb_spec (_id s) i) as [Heq|Hne]; simpl.
  - apply by_id_None. rewrite <- Heq. intros Hin. apply Hni.
    by apply list_elem_of_In.
  - destruct (N.eqb_spec (_id s) i); [done|]. by apply IH.
Qed.

(** *** The store invariant *)

Section Invariant.
Context {schema : Schema}.

Lemma wf_insert_doc (d : StudentData) (st : Store) :
  wf_store st -> wf_store (snd (insert_doc d st)).
Proof.
  intros [Hnd Hlt]. unfold wf_store, insert_doc; simpl. split.
  - rewrite map_app. simpl. apply NoDup_app. split; [done|]. split.
    + intros i Hi Hi'. apply list_elem_of_In in Hi.
      apply in_map_iff in Hi as (x & <- & Hx).
      rewrite Forall_forall in Hlt. apply list_elem_of_In in Hx.
      specialize (Hlt x Hx). apply list_elem_of_In in Hi'. simpl in Hi'.
      destruct Hi' as [Heq|[]]. lia.
    + apply NoDup_singleton.
  - apply Forall_app. split.
    + eapply Forall_impl; [exact Hlt|]. simpl. intros; lia.
    + constructor; [simpl; lia | constructor].
Qed.

Lemma insert_all_cons (d : StudentData) (ds : list StudentData) (st : Store) :
  insert_all (d :: ds) st
  = (fst (insert_doc d st) :: fst (insert_all ds (snd (insert_doc d st))),
     snd (insert_all ds (snd (insert_doc d st)))).
Proof. simpl. by destruct (insert_all ds _). Qed.

Lemma wf_insert_all (ds : list StudentData) (st : Store) :
  wf_store st -> wf_store (snd (insert_all ds st)).
Proof.
  revert st. induction ds as [|d ds IH]; intros st Hwf; [done|].
  rewrite insert_all_cons. simpl snd. apply IH. by apply wf_insert_doc.
Qed.

Lemma length_insert_all (ds : list StudentData) (st : Store) :
  length (fst (insert_all ds st)) = length ds /\
  length (students (snd (insert_all ds st)))
  = (length (students st) + length ds)%nat.
Proof.
  revert st. induction ds as [|d ds IH]; intros st; [simpl; lia|].
  rewrite insert_all_cons. specialize (IH (snd (insert_doc d st))).
  destruct IH as [IH1 IH2].
  change (length (d :: ds)) with (Datatypes.S (length ds)).
  cbn [fst snd]. rewrite IH2.
  change (length (fst (insert_doc d st)
                  :: fst (insert_all ds (snd (insert_doc d st)))))
    with (Datatypes.S (length (fst (insert_all ds (snd (insert_doc d st)))))).
  rewrite IH1. unfold insert_doc; simpl. rewrite length_app. simpl. lia.
Qed.

Lemma wf_update (i : N) (s : Student) (d' : StudentData) (st : Store) :
  wf_store st -> by_id i (students st) = Some s ->
  wf_store (with_students
              (replace_first i (mkStudent (_id s) (createdAt s) d') (students st))
              st).
Proof.
  intros [Hnd Hlt] Hf. apply by_id_Some in Hf as [Hid Hin].
  unfold wf_store, with_students; simpl. split.
  - by rewrite map_id_replace_first.
  - rewrite Forall_forall in *. intros x Hx. apply list_elem_of_In in Hx.
    apply in_replace_first in Hx as [->|Hx]; simpl.
    + apply (Hlt s). by apply list_elem_of_In.
    + apply Hlt. by apply list_elem_of_In.
Qed.

Lemma wf_remove (i : N) (st : Store) :
  wf_store st -> wf_store (with_students (remove_first i (students st)) st).
Proof.
  intros [Hnd Hlt]. unfold wf_store, with_students; simpl. split.
  - by apply NoDup_remove_first.
  - rewrite Forall_forall in *. intros x Hx. apply Hlt.
    apply list_elem_of_In. apply list_elem_of_In in Hx.
    by apply in_remove_first in Hx.
Qed.

(** A batch leaves the store as inserting the documents it takes in
    does. *)
Lemma insert_batch_store (partial : list Value -> list StudentData)
    (items : list Value) (st : Store) :
  snd (insert_batch partial items st)
  = snd (insert_all (stored_of partial items) st).
Proof.
  unfold insert_batch. destruct (insert_all _ st) as [ss st'].
  by destruct (cast_all items).
Qed.

Lemma mem_create_store (v : Value) (st : Store) :
  snd (mem_create v st)
  = match v with
    | VArr items => snd (insert_all (stored_of partial_create items) st)
    | _ => match cast_doc v with
           | Resolved d => snd (insert_doc d st)
           | Rejected _ => st
           end
    end.
Proof.
  unfold mem_create.
  destruct v; try (by destruct (cast_doc _)).
  rewrite <- insert_batch_store. by destruct (insert_batch _ _ _) as [[?|?] ?].
Qed.

(** The store after a handler is the store after its model call. *)
Lemma create_student_store (req : Request) (st : Store) :
  snd (create_student req st) = snd (mem_create (req_body req) st).
Proof.
  unfold create_student, try_catch, bind, ret; simpl.
  by destruct (mem_create _ _) as [[?|?] ?].
Qed.

Lemma create_bulk_store (req : Request) (st : Store) :
  snd (create_bulk req st) = snd (mem_insertMany (req_body req) st).
Proof.
  unfold create_bulk, try_catch, bind, ret; simpl.
  by destruct (mem_insertMany _ _) as [[?|?] ?].
Qed.

(** Serving a request keeps the invariant. *)
Lemma wf_serve (op : Operation) (req : Request) (st : Store) :
  wf_store st -> wf_store (snd (serve op req st)).
Proof.
  intros Hwf. unfold serve.
  destruct op; cbn [handler].
  1: { rewrite create_student_store, mem_create_store.
       destruct (req_body req); try (by apply wf_insert_all);
         (destruct (cast_doc _); [by apply wf_insert_doc | done]). }
  1: { rewrite create_bulk_store.
       unfold mem_insertMany. rewrite insert_batch_store.
       by apply wf_insert_all. }
  all: unfold get_all, get_by_id, filter_students,
      search_students, update_student, update_operators, delete_student, stats,
      try_catch, bind, ret, throw; simpl.
  - unfold mem_find. by destruct (query_error _).
  - unfold mem_findById. destruct (parse_id _); simpl; [|done].
    by destruct (by_id _ _).
  - destruct (build_query _ _ _); simpl; [|done].
    unfold mem_find. by destruct (query_error _).
  - unfold mem_find. by destruct (query_error _).
  - unfold mem_findByIdAndUpdate. destruct (parse_id _) as [i|]; simpl; [|done].
    destruct (cast_update _); simpl; [done|].
    destruct (by_id i _) as [s|] eqn:Hf; simpl; [|done].
    destruct (write_update _ _); simpl; [|done].
    by apply wf_update.
  - unfold mem_findByIdAndUpdate. destruct (parse_id _) as [i|]; simpl; [|done].
    destruct (by_id i _) as [s|] eqn:Hf; simpl; [|done].
    by apply wf_update.
  - unfold mem_findByIdAndDelete. destruct (parse_id _) as [i|]; simpl; [|done].
    destruct (by_id i _) as [s|] eqn:Hf; simpl; [|done].
    by apply wf_remove.
  - done.
Qed.

Lemma wf_step (ev : Event) (st : Store) :
  wf_store st -> wf_store (step ev st).
Proof.
  destruct ev as [op req|t]; simpl; [apply wf_serve|].
  by intros [Hnd Hlt].
Qed.

Lemma wf_run (trace : list Event) (st : Store) :
  wf_store st -> wf_store (run trace st).
Proof.
  revert st. induction trace as [|ev trace IH]; intros st Hwf; simpl; [done|].
  apply IH. by apply wf_step.
Qed.

Lemma wf_empty : wf_store empty_store.
Proof. split; simpl; constructor. Qed.

End Invariant.

(** *** Operator update *)

Section Updates.
Context {schema : Schema}.

Lemma operators_update_applies (d : StudentData) :
  apply_update operators_update d
  = Resolved (mkData (name d) (marks d + 5) (course d) (city d)
                     (subjects d ++ ["AI"])%list true).
Proof. reflexivity. Qed.

Lemma update_operators_found (req : Request) (st : Store) (i : N) (s : Student) :
  parse_id (param req "id") = Some i ->
  by_id i (students st) = Some s ->
  update_operators req st
  = (Resolved (operators_response (operator_updated s)),
     with_students (replace_first i (operator_updated s) (students st)) st).
Proof.
  intros Hid Hf.
  unfold update_operators, try_catch, bind; simpl. unfold mem_findByIdAndUpdate.
  rewrite Hid. change (check_update operators_update) with (@None Error).
  rewrite Hf, operators_update_applies. reflexivity.
Qed.

(** C4. One operator update of an existing entity answers with the
    entity with marks increased by 5, "AI" appended to its subjects and
    enrolled set to true; every other field of the entity and every
    other entity is as before.  A second operator update of the same
    entity answers with marks increased by 10 in total and "AI" appended
    twice. *)
Theorem operator_update_is_cumulative :
  forall (req : Request) (st : Store) (i : N) (s : Student),
    parse_id (param req "id") = Some i ->
    by_id i (students st) = Some s ->
    exists s1 s2 st1 st2,
      update_operators req st = (Resolved (operators_response s1), st1) /\
      update_operators req st1 = (Resolved (operators_response s2), st2) /\
      (* the three mutations *)
      marks (doc s1) = marks (doc s) + 5 /\
      subjects (doc s1) = (subjects (doc s) ++ ["AI"])%list /\
      enrolled (doc s1) = true /\
      (* and nothing else *)
      _id s1 = _id s /\ createdAt s1 = createdAt s /\
      name (doc s1) = name (doc s) /\ course (doc s1) = course (doc s) /\
      city (doc s1) = city (doc s) /\
      by_id i (students st1) = Some s1 /\
      (forall j, j <> i -> by_id j (students st1) = by_id j (students st)) /\
      (* twice *)
      marks (doc s2) = marks (doc s) + 10 /\
      subjects (doc s2) = (subjects (doc s) ++ ["AI"; "AI"])%list /\
      by_id i (students st2) = Some s2.
Proof.
  intros req st i s Hid Hf.
  pose proof (by_id_Some _ _ _ Hf) as [Hi _].
  set (s1 := operator_updated s).
  set (st1 := with_students (replace_first i s1 (students st)) st).
  assert (by_id i (students st1) = Some s1) as Hf1
    by (by apply (by_id_replace_first i s s1)).
  set (s2 := operator_updated s1).
  set (st2 := with_students (replace_first i s2 (students st1)) st1).
  exists s1, s2, st1, st2.
  split; [by apply update_operators_found|].
  split; [by apply update_operators_found|].
  repeat split; simpl; try done.
  - intros j Hj. by apply by_id_replace_first_ne.
  - lia.
  - by rewrite <- app_assoc.
  - by apply (by_id_replace_first i s1 s2).
Qed.

(** *** Delete *)

(** C6. In a store reached by serving requests from the empty store, the
    first delete of the identifier of an existing entity answers 200 with
    the deleted entity and the confirmation message, and a second delete
    of the same identifier answers 404. *)
Theorem delete_then_not_found :
  forall (trace : list Event) (req : Request) (i : N) (s : Student),
    parse_id (param req "id") = Some i ->
    by_id i (students (run trace empty_store)) = Some s ->
    exists st1,
      delete_student req (run trace empty_store)
      = (Resolved (deleted_response s), st1) /\
      status (deleted_response s) = 200 /\
      delete_student req st1 = (Resolved not_found, st1) /\
      status not_found = 404.
Proof.
  intros trace req i s Hid Hf.
  pose proof (wf_run trace empty_store wf_empty) as [Hnd _].
  set (st := run trace empty_store) in *.
  exists (with_students (remove_first i (students st)) st).
  unfold delete_student, try_catch, bind; simpl. unfold mem_findByIdAndDelete.
  rewrite Hid, Hf. simpl. rewrite (by_id_remove_first i _ Hnd). done.
Qed.

End Updates.

Lemma operator_update_is_cumulative_witness :
  exists s1 s2 st1 st2,
    update_operators (model := Demo.model) (Demo.at_path "id" Demo.anne_id)
                     Demo.three_students
    = (Resolved (operators_response s1), st1) /\
    update_operators (model := Demo.model) (Demo.at_path "id" Demo.anne_id) st1
    = (Resolved (operators_response s2), st2) /\
    marks (doc s1) = 45 /\ subjects (doc s1) = ["AI"] /\
    marks (doc s2) = 50 /\ subjects (doc s2) = ["AI"; "AI"].
Proof.
  destruct (@operator_update_is_cumulative plain_schema
              (Demo.at_path "id" Demo.anne_id) Demo.three_students 1%N Demo.anne
              eq_refl eq_refl)
    as (s1 & s2 & st1 & st2 & H1 & H2 & Hm1 & Hs1 & _ & _ & _ & _ & _ & _ & _ & _
        & Hm2 & Hs2 & _).
  exists s1, s2, st1, st2. repeat split; assumption.
Defined.

Lemma delete_then_not_found_witness :
  exists st1,
    delete_student (model := Demo.model) (Demo.at_path "id" Demo.anne_id)
                   (run (schema := plain_schema) Demo.three_creations empty_store)
    = (Resolved (deleted_response Demo.anne), st1) /\
    status (deleted_response Demo.anne) = 200 /\
    delete_student (model := Demo.model) (Demo.at_path "id" Demo.anne_id) st1
    = (Resolved not_found, st1) /\
    status not_found = 404.
Proof.
  apply (@delete_then_not_found plain_schema Demo.three_creations
           (Demo.at_path "id" Demo.anne_id) 1%N Demo.anne);
    [reflexivity | vm_compute; reflexivity].
Defined.

Example three_creations_store :
  run (schema := plain_schema) Demo.three_creations empty_store
  = Demo.three_students.
Proof. vm_compute. reflexivity. Qed.

(** *** Sorting *)

Section SortFacts.
Context {A : Type} (leb : A -> A -> bool).

Lemma insert_sorted_perm (x : A) (l : list A) :
  Permutation (insert_sorted leb x l) (x :: l).
Proof.
  induction l as [|y l IH]; simpl; [done|].
  destruct (leb x y); [done|].
  rewrite IH. apply perm_swap.
Qed.

Lemma sort_by_perm (l : list A) : Permutation (sort_by leb l) l.
Proof.
  induction l as [|x l IH]; simpl; [done|].
  rewrite insert_sorted_perm. by constructor.
Qed.

Lemma sort_by_In (l : list A) (x : A) : In x (sort_by leb l) <-> In x l.
Proof.
  split; apply Permutation_in; [|symmetry]; apply sort_by_perm.
Qed.

Lemma insert_sorted_HdRel (R : A -> A -> Prop) (a x : A) (l : list A) :
  R a x -> HdRel R a l -> HdRel R a (insert_sorted leb x l).
Proof.
  intros Hax Hal. destruct l as [|y l]; simpl; [by constructor|].
  destruct (leb x y); constructor; [done|]. by inversion Hal.
Qed.

(** Insertion keeps a list sorted when [leb] decides a relation that is
    total on the elements at hand. *)
Lemma insert_sorted_Sorted (x : A) (l : list A) :
  (forall y, In y l -> leb x y = false -> leb y x = true) ->
  Sorted (fun a b => leb a b = true) l ->
  Sorted (fun a b => leb a b = true) (insert_sorted leb x l).
Proof.
  intros Htot Hs. induction Hs as [|y l Hs IH Hhd]; simpl.
  - repeat constructor.
  - destruct (leb x y) eqn:Hxy.
    + constructor; [by constructor | by constructor].
    + constructor.
      * apply IH. intros z Hz. apply Htot. by right.
      * apply insert_sorted_HdRel; [|done]. apply Htot; [by left | done].
Qed.

Lemma sort_by_Sorted (l : list A) :
  (forall x y, In x l -> In y l -> leb x y = false -> leb y x = true) ->
  Sorted (fun a b => leb a b = true) (sort_by leb l).
Proof.
  induction l as [|x l IH]; intros Htot; simpl; [constructor|].
  apply insert_sorted_Sorted.
  - intros y Hy. apply Htot; [by left | right; by apply sort_by_In].
  - apply IH. intros a b Ha Hb. apply Htot; by right.
Qed.

End SortFacts.

Lemma Sorted_weaken {A} (R R' : A -> A -> Prop) (l : list A) :
  (forall a b, R a b -> R' a b) -> Sorted R l -> Sorted R' l.
Proof.
  intros HR Hs. induction Hs as [|x l Hs IH Hhd]; constructor; [done|].
  destruct Hhd; constructor. by apply HR.
Qed.

(** *** Listing *)

Section Listing.
Context {schema : Schema}.

Lemma get_all_lists (req : Request) (st : Store) :
  get_all req st
  = (Resolved (list_response (sort_docs [("createdAt", -1)] (students st))), st).
Proof.
  unfold get_all, try_catch, bind; simpl. unfold mem_find.
  rewrite query_error_empty. simpl. do 3 f_equal.
  all: rewrite (filter_ext_bool _ (fun _ => true) _ matches_empty).
  all: by rewrite List.filter_true.
Qed.

Lemma sort_docs_newest_first (l : list Student) :
  Permutation (sort_docs [("createdAt", -1)] l) l /\
  newest_first (sort_docs [("createdAt", -1)] l).
Proof.
  unfold sort_docs; simpl. split; [apply sort_by_perm|].
  unfold newest_first. eapply Sorted_weaken; [|apply sort_by_Sorted].
  - simpl. intros a b Hab. unfold directed in Hab. simpl in Hab. lia.
  - intros a b _ _. unfold directed; simpl. lia.
Qed.

(** An event other than a delete adds to the collection exactly the
    entities its creation stands for. *)
Lemma step_length (ev : Event) (st : Store) :
  is_delete ev = false ->
  length (students (step ev st))
  = (length (students st) + creations_of ev)%nat.
Proof.
  intros Hev. destruct ev as [op req|t]; [|simpl; lia].
  unfold step, serve.
  destruct op; try discriminate; cbn [handler creations_of].
  1: { rewrite create_student_store, mem_create_store.
       destruct (req_body req);
         try (by rewrite (proj2 (length_insert_all _ _)));
         (destruct (cast_doc _); simpl; [rewrite length_app; simpl|]; lia). }
  1: { rewrite create_bulk_store. unfold mem_insertMany.
       rewrite insert_batch_store.
       by rewrite (proj2 (length_insert_all _ _)). }
  all: unfold get_all, get_by_id, filter_students,
      search_students, update_student, update_operators, stats,
      try_catch, bind, ret, throw; simpl.
  - unfold mem_find. destruct (query_error _); simpl; lia.
  - unfold mem_findById. destruct (parse_id _); simpl; [|lia].
    destruct (by_id _ _); simpl; lia.
  - destruct (build_query _ _ _); simpl; [|lia].
    unfold mem_find. destruct (query_error _); simpl; lia.
  - unfold mem_find. destruct (query_error _); simpl; lia.
  - unfold mem_findByIdAndUpdate. destruct (parse_id _) as [i|]; simpl; [|lia].
    destruct (cast_update _); simpl; [lia|].
    destruct (by_id i _) as [s|]; simpl; [|lia].
    destruct (write_update _ _); simpl; [|lia].
    rewrite length_replace_first. lia.
  - unfold mem_findByIdAndUpdate. destruct (parse_id _) as [i|]; simpl; [|lia].
    destruct (by_id i _) as [s|]; simpl; [|lia].
    rewrite length_replace_first. lia.
  - lia.
Qed.

Lemma run_length (trace : list Event) (st : Store) :
  existsb is_delete trace = false ->
  length (students (run trace st))
  = (length (students st) + creations trace)%nat.
Proof.
  revert st. unfold creations.
  induction trace as [|ev trace IH]; intros st Hnd; simpl; [lia|].
  simpl in Hnd. apply orb_false_iff in Hnd as [Hev Hnd].
  rewrite (IH _ Hnd), (step_length _ _ Hev). lia.
Qed.

(** C7. In a store reached from the empty store by a trace of requests
    with no delete, whose creation requests added N entities in all
    (the entities the store kept of a batch it reported as failed
    included), list-all answers with every stored entity, ordered by
    creation timestamp descending, and a count equal to N, the length
    of the returned sequence. *)
Theorem list_all_after_creations :
  forall (trace : list Event) (req : Request),
    existsb is_delete trace = false ->
    exists l,
      get_all req (run trace empty_store)
      = (Resolved (list_response l), run trace empty_store) /\
      Permutation l (students (run trace empty_store)) /\
      newest_first l /\
      length l = creations trace /\
      get "count" (body (list_response l))
      = Some (VNum (Z.of_nat (creations trace))).
Proof.
  intros trace req Hnd.
  exists (sort_docs [("createdAt", -1)] (students (run trace empty_store))).
  destruct (sort_docs_newest_first (students (run trace empty_store)))
    as [Hperm Hsorted].
  assert (length (sort_docs [("createdAt", -1)] (students (run trace empty_store)))
          = creations trace) as Hlen.
  { rewrite (Permutation_length Hperm), run_length by auto. done. }
  split; [apply get_all_lists|]. split; [done|]. split; [done|].
  split; [done|]. rewrite <- Hlen. reflexivity.
Qed.

End Listing.

Lemma list_all_after_creations_witness :
  existsb is_delete Demo.three_creations = false /\
  creations (schema := plain_schema) Demo.three_creations = 3%nat /\
  exists l,
    get_all (model := Demo.model) Demo.bare
            (run (schema := plain_schema) Demo.three_creations empty_store)
    = (Resolved (list_response l),
       run (schema := plain_schema) Demo.three_creations empty_store) /\
    Permutation l (students (run (schema := plain_schema)
                               Demo.three_creations empty_store)) /\
    newest_first l /\
    length l = creations (schema := plain_schema) Demo.three_creations /\
    get "count" (body (list_response l))
    = Some (VNum (Z.of_nat (creations (schema := plain_schema)
                              Demo.three_creations))).
Proof.
  split; [reflexivity|]. split; [reflexivity|].
  apply (@list_all_after_creations plain_schema Demo.three_creations Demo.bare).
  reflexivity.
Defined.

Example list_all_three :
  fst (get_all (model := Demo.model) Demo.bare Demo.three_students)
  = Resolved (list_response [Demo.bob; Demo.anne; Demo.anna]).
Proof. vm_compute. reflexivity. Qed.

Example three_creations_count :
  creations (schema := plain_schema) Demo.three_creations = 3%nat.
Proof. vm_compute. reflexivity. Qed.

(** A create of an array with one valid and one invalid body is
    answered 400, and the valid body is stored: it is one creation, and
    list-all counts it. *)
Example partial_batch_is_counted :
  let trace :=
    [Call CreateOne
       (Demo.post (VArr [Demo.student_body "Anna" 60 "Math" "Mumbai"; VNull]))] in
  fst (serve (schema := plain_schema) CreateOne
         (Demo.post (VArr [Demo.student_body "Anna" 60 "Math" "Mumbai"; VNull]))
         empty_store)
  = Resolved (failure 400 (mkError "ValidationError" "Student validation failed"))
  /\
  creations (schema := plain_schema) trace = 1%nat /\
  fst (get_all (model := Demo.model) Demo.bare
         (run (schema := plain_schema) trace empty_store))
  = Resolved (list_response [Demo.anna]).
Proof. vm_compute. repeat split. Qed.

(** *** Statistics *)

Lemma Qred_inject_Z (n : Z) : Qred (inject_Z n) = inject_Z n.
Proof. apply Qred_identity. simpl. apply Z.gcd_1_r. Qed.

Lemma Qred_of_inject_Z (q : Q) (n : Z) : q == inject_Z n -> Qred q = inject_Z n.
Proof. intros Hq. rewrite (Qred_complete _ _ Hq). apply Qred_inject_Z. Qed.

Lemma qsum_inject_Z (l : list Z) : qsum (map inject_Z l) == inject_Z (total l).
Proof.
  induction l as [|x l IH]; simpl; [reflexivity|].
  rewrite IH, inject_Z_plus. reflexivity.
Qed.

Lemma qsum_ones {A} (l : list A) :
  qsum (map (fun _ => inject_Z 1) l) == inject_Z (Z.of_nat (length l)).
Proof.
  induction l as [|x l IH]; [reflexivity|].
  simpl qsum. simpl length. rewrite IH, Nat2Z.inj_succ, <- inject_Z_plus.
  apply inject_Z_injective. lia.
Qed.

Lemma Qle_bool_inject_Z (a b : Z) : Qle_bool (inject_Z a) (inject_Z b) = (a <=? b).
Proof.
  unfold Qle_bool; simpl. by rewrite !Z.mul_1_r.
Qed.

Lemma fold_qmax_inject_Z (l : list Z) (a : Z) :
  fold_left qmax (map inject_Z l) (inject_Z a) = inject_Z (fold_left Z.max l a).
Proof.
  revert a. induction l as [|x l IH]; intros a; simpl; [done|].
  unfold qmax at 2. rewrite Qle_bool_inject_Z.
  destruct (Z.leb_spec a x).
  - rewrite IH. by rewrite Z.max_r by lia.
  - rewrite IH. by rewrite Z.max_l by lia.
Qed.

Lemma fold_qmin_inject_Z (l : list Z) (a : Z) :
  fold_left qmin (map inject_Z l) (inject_Z a) = inject_Z (fold_left Z.min l a).
Proof.
  revert a. induction l as [|x l IH]; intros a; simpl; [done|].
  unfold qmin at 2. rewrite Qle_bool_inject_Z.
  destruct (Z.leb_spec a x).
  - rewrite IH. by rewrite Z.min_l by lia.
  - rewrite IH. by rewrite Z.min_r by lia.
Qed.

Lemma fold_max_is_max (l : list Z) (a : Z) : is_max (fold_left Z.max l a) (a :: l).
Proof.
  revert a. induction l as [|x l IH]; intros a; simpl.
  - split; [by left | repeat constructor; lia].
  - destruct (IH (Z.max a x)) as [Hin Hall]. split.
    + destruct Hin as [Heq|Hin]; [|by right; right].
      rewrite <- Heq. destruct (Z.max_spec a x) as [[_ ->]|[_ ->]]; simpl; auto.
    + inversion Hall as [|? ? Hmax Hrest]; subst.
      repeat constructor; [lia | lia | done].
Qed.

Lemma fold_min_is_min (l : list Z) (a : Z) : is_min (fold_left Z.min l a) (a :: l).
Proof.
  revert a. induction l as [|x l IH]; intros a; simpl.
  - split; [by left | repeat constructor; lia].
  - destruct (IH (Z.min a x)) as [Hin Hall]. split.
    + destruct Hin as [Heq|Hin]; [|by right; right].
      rewrite <- Heq. destruct (Z.min_spec a x) as [[_ ->]|[_ ->]]; simpl; auto.
    + inversion Hall as [|? ? Hmin Hrest]; subst.
      repeat constructor; [lia | lia | done].
Qed.

Lemma Sorted_weaken_In {A} (R R' : A -> A -> Prop) (l : list A) :
  (forall a b, In a l -> In b l -> R a b -> R' a b) -> Sorted R l -> Sorted R' l.
Proof.
  intros HR Hs. induction Hs as [|x l Hs IH Hhd]; constructor.
  - apply IH. intros a b Ha Hb. apply HR; by right.
  - destruct Hhd; constructor. apply HR; [by left | right; by left | done].
Qed.

(** The documents of the group with key [c]. *)
Lemma group_members (c : string) (l : list Student) :
  List.filter (fun r => bool_decide (eval (Path "course") r = AField (FStr c)))
              (map to_row l)
  = map to_row (of_course c l).
Proof.
  induction l as [|s l IH]; [done|].
  change (map to_row (s :: l)) with (to_row s :: map to_row l).
  change (of_course c (s :: l))
    with (if String.eqb (course (doc s)) c
          then s :: of_course c l else of_course c l).
  cbn [List.filter]. rewrite IH.
  change (eval (Path "course") (to_row s)) with (AField (FStr (course (doc s)))).
  destruct (String.eqb_spec (course (doc s)) c) as [->|Hne].
  - by rewrite bool_decide_eq_true_2.
  - rewrite bool_decide_eq_false_2; [done|]. congruence.
Qed.

Lemma omap_map_Some {A B C} (f : B -> option C) (g : A -> B) (h : A -> C)
    (l : list A) :
  (forall x, f (g x) = Some (h x)) -> omap f (map g l) = map h l.
Proof.
  intros Hfg. induction l as [|x l IH]; [done|].
  cbn. rewrite Hfg. cbn. f_equal. exact IH.
Qed.

Lemma nums_of_marks (g : list Student) :
  omap (fun r => as_num (eval (Path "marks") r)) (map to_row g)
  = map inject_Z (marks_of g).
Proof.
  unfold marks_of. rewrite map_map. by apply omap_map_Some.
Qed.

Lemma nums_of_one (g : list Student) :
  omap (fun r => as_num (eval (Const 1) r)) (map to_row g)
  = map (fun _ => inject_Z 1) g.
Proof. by apply omap_map_Some. Qed.

(** The row [$group] produces for the course of a stored entity. *)
Lemma group_row_summary (l : list Student) (c : string) :
  has_course l c ->
  summary_of l c
    (("_id", AField (FStr c))
     :: map (fun fa => (fst fa,
                        accumulate (snd fa)
                          (List.filter
                             (fun r => bool_decide
                                         (eval (Path "course") r = AField (FStr c)))
                             (map to_row l))))
            stats_fields).
Proof.
  intros (s & Hin & Hc). rewrite group_members.
  assert (In s (of_course c l)) as Hg.
  { apply filter_In. split; [done|]. by apply String.eqb_eq. }
  unfold summary_of. simpl map at 1. unfold accumulate.
  rewrite nums_of_marks, nums_of_one.
  set (g := of_course c l) in *.
  destruct (marks_of g) as [|m ms] eqn:Hms.
  { destruct g; [destruct Hg | discriminate]. }
  assert (length g = length (m :: ms)) as Hlen
    by (rewrite <- Hms; unfold marks_of; by rewrite length_map).
  exists (fold_left Z.max ms m), (fold_left Z.min ms m).
  split; [apply fold_max_is_max|]. split; [apply fold_min_is_min|].
  change (map inject_Z (m :: ms)) with (inject_Z m :: map inject_Z ms).
  cbv beta iota.
  rewrite fold_qmax_inject_Z, fold_qmin_inject_Z, !Qred_inject_Z.
  rewrite (Qred_of_inject_Z _ _ (qsum_ones g)), Hlen.
  repeat f_equal. unfold average. apply Qred_complete.
  change (inject_Z m :: map inject_Z ms) with (map inject_Z (m :: ms)).
  rewrite qsum_inject_Z, length_map.
  simpl total. simpl length. rewrite inject_Z_plus. reflexivity.
Qed.

Lemma group_keys (l : list Student) :
  map (eval (Path "course")) (map to_row l)
  = map (fun s => AField (FStr (course (doc s)))) l.
Proof. rewrite map_map. reflexivity. Qed.

Lemma group_stage_ids (id : Expr) (fields : list (string * Accumulator))
    (rows : list Row) :
  map (row_get "_id") (group_stage id fields rows)
  = remove_dups (map (eval id) rows).
Proof.
  unfold group_stage. rewrite map_map. simpl. apply map_id.
Qed.

(** Every row of the [$group] stage is the summary of the course of
    some stored entity. *)
Lemma group_stage_rows (l : list Student) (row : Row) :
  In row (group_stage (Path "course") stats_fields (map to_row l)) ->
  exists c, has_course l c /\ summary_of l c row.
Proof.
  unfold group_stage. rewrite in_map_iff. intros (k & <- & Hk).
  rewrite <- list_elem_of_In, elem_of_remove_dups, list_elem_of_In in Hk.
  rewrite group_keys in Hk. apply in_map_iff in Hk as (s & <- & Hs).
  exists (course (doc s)).
  assert (has_course l (course (doc s))) as Hc by (by exists s).
  split; [done|]. by apply group_row_summary.
Qed.

Lemma summary_average (l : list Student) (c : string) (row : Row) :
  summary_of l c row -> exists x, average_of row = Some x.
Proof. intros (mx & mn & _ & _ & ->). by eexists. Qed.

Lemma summary_id (l : list Student) (c : string) (row : Row) :
  summary_of l c row -> row_get "_id" row = AField (FStr c).
Proof. by intros (mx & mn & _ & _ & ->). Qed.

Section Statistics.
Context {schema : Schema}.

(** C5. The stats operation answers with one row per course that occurs
    in the collection; the row of a course holds the number of entities of
    that course and the average, maximum and minimum of their marks; and
    the rows are ordered by average marks, descending. *)
Theorem stats_by_course :
  forall (req : Request) (st : Store),
    exists rows,
      stats req st = (Resolved (stats_response rows), st) /\
      (* one group per course: a partition *)
      NoDup (map (row_get "_id") rows) /\
      (forall c, has_course (students st) c <->
                 In (AField (FStr c)) (map (row_get "_id") rows)) /\
      (* the summary of each group *)
      (forall row, In row rows ->
         exists c, has_course (students st) c /\ summary_of (students st) c row) /\
      (* the order *)
      by_average_descending rows.
Proof.
  intros req st.
  set (l := students st).
  set (G := group_stage (Path "course") stats_fields (map to_row l)).
  set (leb := fun a b : Row =>
                directed agg_leb (-1) (row_get "averageMarks" a)
                         (row_get "averageMarks" b)).
  exists (sort_by leb G).
  assert (Permutation (sort_by leb G) G) as Hperm by apply sort_by_perm.
  assert (forall row, In row (sort_by leb G) ->
            exists c, has_course l c /\ summary_of l c row) as Hrows.
  { intros row Hin. apply group_stage_rows. by apply (sort_by_In leb). }
  split; [reflexivity|]. split; [|split; [|split; [exact Hrows|]]].
  - rewrite (Permutation_map (row_get "_id") Hperm).
    unfold G. rewrite group_stage_ids. apply NoDup_remove_dups.
  - intros c.
    assert (In (AField (FStr c)) (map (row_get "_id") (sort_by leb G))
            <-> In (AField (FStr c)) (map (row_get "_id") G)) as ->.
    { split; apply Permutation_in; [|symmetry]; by apply Permutation_map. }
    unfold G. rewrite group_stage_ids, group_keys.
    rewrite <- list_elem_of_In, elem_of_remove_dups, list_elem_of_In, in_map_iff.
    split.
    + intros (s & Hs & <-). by exists s.
    + intros (s & [= Hc] & Hs). by exists s.
  - unfold by_average_descending.
    apply (Sorted_weaken_In (fun a b => leb a b = true)).
    + intros a b Ha Hb Hab.
      destruct (Hrows a Ha) as (ca & _ & Hsa), (Hrows b Hb) as (cb & _ & Hsb).
      destruct (summary_average _ _ _ Hsa) as [x Hx].
      destruct (summary_average _ _ _ Hsb) as [y Hy].
      exists x, y. split; [done|]. split; [done|].
      unfold leb, directed, agg_leb in Hab. simpl in Hab.
      unfold average_of in Hx, Hy. rewrite Hx, Hy in Hab.
      by apply Qle_bool_iff.
    + apply sort_by_Sorted. intros a b Ha Hb.
      assert (In a (sort_by leb G)) as Ha' by (by apply sort_by_In).
      assert (In b (sort_by leb G)) as Hb' by (by apply sort_by_In).
      destruct (Hrows a Ha') as (ca & _ & Hsa), (Hrows b Hb') as (cb & _ & Hsb).
      destruct (summary_average _ _ _ Hsa) as [x Hx].
      destruct (summary_average _ _ _ Hsb) as [y Hy].
      unfold leb, directed, agg_leb. simpl.
      unfold average_of in Hx, Hy. rewrite Hx, Hy.
      intros Hf. apply Qle_bool_iff.
      destruct (Qlt_le_dec x y) as [Hlt|Hle]; [by apply Qlt_le_weak|].
      apply Qle_bool_iff in Hle. congruence.
Qed.

End Statistics.

Example stats_three :
  fst (stats (model := Demo.model) Demo.bare Demo.three_students)
  = Resolved
      (stats_response
         [[("_id", AField (FStr "Math")); ("totalStudents", ANum (inject_Z 2));
           ("averageMarks", ANum (inject_Z 70)); ("maxMarks", ANum (inject_Z 80));
           ("minMarks", ANum (inject_Z 60))];
          [("_id", AField (FStr "CS")); ("totalStudents", ANum (inject_Z 1));
           ("averageMarks", ANum (inject_Z 40)); ("maxMarks", ANum (inject_Z 40));
           ("minMarks", ANum (inject_Z 40))]]).
Proof. vm_compute. reflexivity. Qed.
(** *** Strings *)

Lemma append_String (c : ascii) (a b : string) :
  String c a ++ b = String c (a ++ b).
Proof. reflexivity. Qed.

Lemma append_empty_r (s : string) : s ++ "" = s.
Proof.
  induction s as [|c s IH]; [done|]. by rewrite append_String, IH.
Qed.

Lemma append_assoc (a b c : string) : (a ++ b) ++ c = a ++ (b ++ c).
Proof.
  induction a as [|x a IH]; [done|]. by rewrite !append_String, IH.
Qed.

Lemma append_eq_empty (a b : string) : a ++ b = "" -> a = "" /\ b = "".
Proof.
  destruct a; [done|]. rewrite append_String. discriminate.
Qed.

(** *** Characters *)

Lemma is_cont_continuation (c : ascii) :
  Regex.is_cont c = true <-> continuation c.
Proof.
  unfold Regex.is_cont, continuation, nat_of_ascii.
  rewrite andb_true_iff, Nat.leb_le, Nat.ltb_lt. lia.
Qed.

Lemma is_cont_not_continuation (c : ascii) :
  Regex.is_cont c = false <-> ~ continuation c.
Proof.
  rewrite <- is_cont_continuation. by destruct (Regex.is_cont c).
Qed.

(** The shape of [group s]: its first character starts with the first
    byte of [s], and the others are characters. *)
Lemma group_shape (s : string) :
  text_of (Regex.group s) = s /\
  match s with
  | EmptyString => Regex.group s = []
  | String c _ =>
      exists r tl, Regex.group s = String c r :: tl
                   /\ continuations r /\ Forall character tl
  end.
Proof.
  induction s as [|c s [IHt IHs]]; [done|].
  simpl Regex.group.
  destruct s as [|d s'].
  - simpl in *. split; [done|]. by exists "", [].
  - destruct IHs as (r & tl & Hg & Hr & Htl). rewrite Hg in *.
    destruct (Regex.is_cont d) eqn:Hd.
    + split.
      * simpl in *. by rewrite <- IHt.
      * exists (String d r), tl. split; [done|]. split; [|done].
        split; [by apply is_cont_continuation | done].
    + split.
      * simpl in *. by rewrite <- IHt.
      * exists "", (String d r :: tl). split; [done|]. split; [done|].
        constructor; [|done]. split; [by apply is_cont_not_continuation | done].
Qed.

Lemma group_continuations (r t : string) :
  continuations r -> r <> "" -> More.starts_character t ->
  Regex.group (r ++ t) = r :: Regex.group t.
Proof.
  intros Hr Hne Ht. induction r as [|d r IH]; [done|]. clear Hne.
  destruct Hr as [Hd Hr]. rewrite append_String. simpl Regex.group.
  destruct r as [|d' r'].
  - change ("" ++ t) with t. destruct t as [|e t']; [done|].
    destruct (group_shape (String e t')) as [_ (x & tl & -> & _)].
    simpl in Ht. by rewrite Ht.
  - rewrite IH by done. destruct Hr as [Hd' _].
    apply is_cont_continuation in Hd'. by rewrite Hd'.
Qed.

Lemma group_character (ch t : string) :
  character ch -> More.starts_character t ->
  Regex.group (ch ++ t) = ch :: Regex.group t.
Proof.
  destruct ch as [|c r]; [done|]. intros [Hc Hr] Ht.
  rewrite append_String. simpl Regex.group.
  destruct r as [|d r'].
  - change ("" ++ t) with t. destruct t as [|e t']; [done|].
    destruct (group_shape (String e t')) as [_ (x & tl & -> & _)].
    simpl in Ht. by rewrite Ht.
  - rewrite group_continuations by done. destruct Hr as [Hd _].
    apply is_cont_continuation in Hd. by rewrite Hd.
Qed.

Lemma text_of_starts_character (cs : list string) :
  Forall character cs -> More.starts_character (text_of cs).
Proof.
  intros Hcs. destruct Hcs as [|ch cs Hch _]; [done|].
  destruct ch as [|c r]; [done|]. simpl. destruct Hch as [Hc _].
  by apply is_cont_not_continuation.
Qed.

Lemma group_text_of (cs : list string) :
  Forall character cs -> Regex.group (text_of cs) = cs.
Proof.
  induction 1 as [|ch cs Hch Hcs IH]; [done|]. simpl text_of.
  rewrite group_character; [by rewrite IH | done |].
  by apply text_of_starts_character.
Qed.

(** The characters of a text are the one way to cut it into
    characters. *)
Lemma chars_spec (s : string) (cs : list string) :
  Regex.chars s = Some cs <-> Forall character cs /\ text_of cs = s.
Proof.
  split.
  - unfold Regex.chars. destruct s as [|c s'].
    + intros [= <-]. by split.
    + destruct (Regex.is_cont c) eqn:Hc; [discriminate|]. intros [= Hcs].
      destruct (group_shape (String c s')) as [Ht (r & tl & Hg & Hr & Htl)].
      change (Regex.group (String c s') = cs) in Hcs.
      rewrite Hcs in Ht, Hg. split; [|done]. rewrite Hg. constructor; [|done].
      split; [by apply is_cont_not_continuation | done].
  - intros [Hcs <-]. pose proof (text_of_starts_character cs Hcs) as Hst.
    unfold Regex.chars. destruct (text_of cs) as [|c s'] eqn:Ht.
    + destruct Hcs as [|ch cs Hch _]; [done|].
      destruct ch; [done | discriminate].
    + simpl in Hst. rewrite Hst, <- Ht. f_equal. by apply group_text_of.
Qed.

(** *** Letters ignoring case *)

Lemma all_bytes_In (c : ascii) : In c More.all_bytes.
Proof.
  unfold More.all_bytes. apply in_map_iff. exists (nat_of_ascii c).
  split; [apply ascii_nat_embedding|]. apply in_seq.
  pose proof (nat_ascii_bounded c). lia.
Qed.

Lemma forallb_bytes (P : ascii -> bool) :
  forallb P More.all_bytes = true -> forall c, P c = true.
Proof.
  intros HP c. rewrite forallb_forall in HP. apply HP, all_bytes_In.
Qed.

Lemma same_ignoring_case_b_spec (a b : string) :
  More.same_ignoring_case_b a b = true <-> same_ignoring_case a b.
Proof.
  unfold More.same_ignoring_case_b, same_ignoring_case.
  rewrite orb_true_iff, String.eqb_eq, existsb_exists.
  apply or_iff_compat_l. split.
  - intros (letter & Hl & Hab). apply andb_true_iff in Hab as [Ha Hb].
    exists letter. by rewrite <- !string_in_In.
  - intros (letter & Hl & Ha & Hb). exists letter. split; [done|].
    apply andb_true_iff. by rewrite !string_in_In.
Qed.

(** The engine's comparison of a pattern character with a character of
    one byte, with no character, with the Kelvin sign and with the long
    s, checked byte by byte against the table of cases. *)
Lemma chr_eqb_one_byte :
  forallb (fun c =>
    forallb (fun d =>
      Bool.eqb (Regex.chr_eqb true c (String d ""))
               (More.same_ignoring_case_b (String c "") (String d "")))
      More.all_bytes) More.all_bytes = true.
Proof. vm_compute. reflexivity. Qed.

Lemma chr_eqb_special :
  forallb (fun c =>
    Bool.eqb (Regex.chr_eqb true c "")
             (More.same_ignoring_case_b (String c "") "")
    && Bool.eqb (Regex.chr_eqb true c Regex.kelvin_sign)
                (More.same_ignoring_case_b (String c "") Regex.kelvin_sign)
    && Bool.eqb (Regex.chr_eqb true c Regex.long_s)
                (More.same_ignoring_case_b (String c "") Regex.long_s))
    More.all_bytes = true.
Proof. vm_compute. reflexivity. Qed.

Lemma chr_eqb_b (c : ascii) (ch : string) :
  Regex.chr_eqb true c ch = More.same_ignoring_case_b (String c "") ch.
Proof.
  pose proof (forallb_bytes _ chr_eqb_special c) as Hs.
  apply andb_true_iff in Hs as [Hs Hlong].
  apply andb_true_iff in Hs as [Hempty Hkelvin].
  apply Bool.eqb_prop in Hempty, Hkelvin, Hlong.
  destruct ch as [|d1 [|d2 r]]; [done| |].
  - pose proof (forallb_bytes _ chr_eqb_one_byte c) as H1.
    pose proof (forallb_bytes _ H1 d1) as H2. by apply Bool.eqb_prop in H2.
  - set (ch := String d1 (String d2 r)) in *.
    destruct (String.eqb_spec ch Regex.kelvin_sign) as [->|Hk]; [done|].
    destruct (String.eqb_spec ch Regex.long_s) as [->|Hl]; [done|].
    assert (Regex.chr_eqb true c ch = false) as ->.
    { unfold Regex.chr_eqb, Regex.fold_char. subst ch.
      apply String.eqb_neq in Hk, Hl. rewrite Hk, Hl. simpl.
      by destruct (Ascii.eqb _ _). }
    symmetry. apply not_true_is_false. intros Hb.
    apply same_ignoring_case_b_spec in Hb as [Hb|(letter & Hin & _ & Hb)];
      [subst ch; discriminate|].
    assert (In ch (concat cases)) as Hall
      by (apply in_concat; by exists letter).
    subst ch. simpl in Hall.
    repeat (destruct Hall as [Hall|Hall]; [try discriminate Hall|]);
      try done; by symmetry in Hall.
Qed.

Lemma chr_eqb_spec (c : ascii) (ch : string) :
  Regex.chr_eqb true c ch = true <-> same_ignoring_case (String c "") ch.
Proof. by rewrite chr_eqb_b, same_ignoring_case_b_spec. Qed.

(** *** Derivatives *)

#[local] Arguments Regex.chr_eqb : simpl never.
#[local] Arguments Regex.any_ok : simpl never.

Lemma list_app_eq_cons {A} (a b w : list A) (d : A) :
  (a ++ b)%list = d :: w ->
  (a = [] /\ b = d :: w) \/ (exists a', a = d :: a' /\ w = (a' ++ b)%list).
Proof.
  destruct a as [|x a]; [by left|]. simpl.
  intros [= -> <-]. right. by eexists.
Qed.

Lemma any_ok_spec (ch : string) :
  Regex.any_ok ch = true <-> ch <> String (ascii_of_nat 10) "".
Proof.
  unfold Regex.any_ok. rewrite negb_true_iff. apply String.eqb_neq.
Qed.

Lemma nullable_Word (r : Regex.re) :
  Regex.nullable r = true <-> Word r [].
Proof.
  split.
  - induction r; simpl; intros Hn; try discriminate.
    + constructor.
    + apply andb_true_iff in Hn as [H1 H2].
      change (@nil string) with (@nil string ++ [])%list. constructor; auto.
    + apply orb_true_iff in Hn as [H1|H2];
        [apply W_AltL | apply W_AltR]; auto.
    + constructor.
  - remember (@nil string) as w eqn:Hw. intros HL.
    induction HL; simpl; try discriminate; try done.
    + apply app_eq_nil in Hw as [-> ->].
      apply andb_true_iff. auto.
    + apply orb_true_iff. auto.
    + apply orb_true_iff. auto.
Qed.

Lemma Word_deriv (r : Regex.re) (s : list string) :
  Word r s ->
  forall d w, s = d :: w ->
    exists r', Regex.deriv true d r = Some r' /\ Word r' w.
Proof.
  induction 1 as [ | c d' Hc | d' Hd | r1 r2 w1 w2 H1 IH1 H2 IH2
                 | r1 r2 w0 H1 IH1 | r1 r2 w0 H2 IH2 | r0
                 | r0 w1 w2 H1 IH1 H2 IH2 ];
    intros d w Hs; simpl.
  - discriminate.
  - injection Hs as -> <-. apply chr_eqb_spec in Hc. rewrite Hc.
    eexists. split; [done|constructor].
  - injection Hs as -> <-. apply any_ok_spec in Hd. rewrite Hd.
    eexists. split; [done|constructor].
  - apply list_app_eq_cons in Hs as [[-> ->]|(a' & -> & ->)].
    + apply nullable_Word in H1. rewrite H1.
      destruct (IH2 d w eq_refl) as (r2' & -> & HL).
      destruct (Regex.deriv true d r1); simpl; eexists;
        (split; [done|]); [by apply W_AltR | done].
    + destruct (IH1 d a' eq_refl) as (r1' & -> & HL). simpl.
      destruct (Regex.nullable r1); [|eexists; split; [done|by constructor]].
      destruct (Regex.deriv true d r2); eexists;
        (split; [done|]); [apply W_AltL|]; by constructor.
  - destruct (IH1 d w Hs) as (r1' & -> & HL).
    destruct (Regex.deriv true d r2); eexists;
      (split; [done|]); [by apply W_AltL | done].
  - destruct (IH2 d w Hs) as (r2' & -> & HL).
    destruct (Regex.deriv true d r1); eexists;
      (split; [done|]); [by apply W_AltR | done].
  - discriminate.
  - apply list_app_eq_cons in Hs as [[-> ->]|(a' & -> & ->)].
    + by apply IH2.
    + destruct (IH1 d a' eq_refl) as (r1' & -> & HL). simpl.
      eexists. split; [done|]. by constructor.
Qed.

Lemma deriv_Word (r : Regex.re) :
  forall d r' w,
    Regex.deriv true d r = Some r' -> Word r' w -> Word r (d :: w).
Proof.
  induction r as [ | c | | r1 IH1 r2 IH2 | r1 IH1 r2 IH2 | r0 IH ];
    intros d r' w; simpl.
  - discriminate.
  - destruct (Regex.chr_eqb true c d) eqn:Hc; [|discriminate].
    intros [= <-] HL. inversion HL; subst. constructor.
    by apply chr_eqb_spec.
  - destruct (Regex.any_ok d) eqn:Hd; [|discriminate].
    intros [= <-] HL. inversion HL; subst. constructor.
    by apply any_ok_spec.
  - assert (forall a u, Regex.deriv true d r1 = Some a ->
              Word (Regex.Cat a r2) u ->
              Word (Regex.Cat r1 r2) (d :: u)) as Hleft.
    { intros a u Ha HL. inversion HL; subst.
      change (d :: (w1 ++ w2)%list) with ((d :: w1) ++ w2)%list.
      constructor; [by eapply IH1 | done]. }
    assert (forall b u, Regex.nullable r1 = true ->
              Regex.deriv true d r2 = Some b -> Word b u ->
              Word (Regex.Cat r1 r2) (d :: u)) as Hright.
    { intros b u Hn Hb HL.
      change (d :: u) with ([] ++ d :: u)%list.
      constructor; [by apply nullable_Word | by eapply IH2]. }
    destruct (Regex.nullable r1) eqn:Hn,
             (Regex.deriv true d r1) as [a|] eqn:Ha,
             (Regex.deriv true d r2) as [b|] eqn:Hb;
      simpl; try discriminate; intros [= <-] HL; eauto.
    inversion HL; subst; eauto.
  - destruct (Regex.deriv true d r1) as [a|] eqn:Ha,
             (Regex.deriv true d r2) as [b|] eqn:Hb;
      try discriminate; intros [= <-] HL.
    + inversion HL; subst; [apply W_AltL | apply W_AltR]; eauto.
    + apply W_AltL; eauto.
    + apply W_AltR; eauto.
  - destruct (Regex.deriv true d r0) as [a|] eqn:Ha; [|discriminate].
    simpl. intros [= <-] HL. inversion HL; subst.
    change (d :: (w1 ++ w2)%list) with ((d :: w1) ++ w2)%list.
    constructor; [by eapply IH | done].
Qed.

(** [match_prefix] finds a word of the pattern at the start of the
    characters. *)
Lemma match_prefix_spec (s : list string) :
  forall r,
    Regex.match_prefix true r s = true <->
    exists word after, s = (word ++ after)%list /\ Word r word.
Proof.
  induction s as [|d s IH]; intros r; simpl.
  - rewrite orb_false_r, nullable_Word. split.
    + intros HL. by exists [], [].
    + intros (word & after & Hs & HL). symmetry in Hs.
      by apply app_eq_nil in Hs as [-> _].
  - rewrite orb_true_iff, nullable_Word. split.
    + intros [HL|Hd]; [by exists [], (d :: s)|].
      destruct (Regex.deriv true d r) as [r'|] eqn:Hr; [|discriminate].
      apply IH in Hd as (word & after & -> & HL).
      exists (d :: word), after. split; [done|]. by eapply deriv_Word.
    + intros (word & after & Hs & HL). symmetry in Hs.
      apply list_app_eq_cons in Hs as [[-> _]|(a' & -> & ->)]; [by left|].
      right. destruct (Word_deriv _ _ HL d a' eq_refl) as (r' & -> & HL').
      apply IH. by exists a', after.
Qed.

(** [search] finds a word of the pattern anywhere in the characters. *)
Lemma search_spec (r : Regex.re) (s : list string) :
  Regex.search true r s = true <->
  exists before word after,
    s = (before ++ word ++ after)%list /\ Word r word.
Proof.
  induction s as [|d s IH]; simpl.
  - rewrite !orb_false_r, nullable_Word. split.
    + intros HL. by exists [], [], [].
    + intros (before & word & after & Hs & HL). symmetry in Hs.
      apply app_eq_nil in Hs as [_ Hs].
      by apply app_eq_nil in Hs as [-> _].
  - rewrite orb_true_iff, IH.
    change (Regex.nullable r ||
            match Regex.deriv true d r with
            | Some r' => Regex.match_prefix true r' s
            | None => false
            end)
      with (Regex.match_prefix true r (d :: s)).
    rewrite match_prefix_spec. split.
    + intros [(word & after & Hs & HL)|(before & word & after & -> & HL)].
      * by exists [], word, after.
      * by exists (d :: before), word, after.
    + intros (before & word & after & Hs & HL).
      destruct before as [|x before].
      * left. by exists word, after.
      * simpl in Hs. injection Hs as -> ->.
        right. by exists before, word, after.
Qed.

(** The engine's test on a text, caseless, is the match of the
    specification. *)
Lemma test_spec (r : Regex.re) (text : string) :
  Regex.test true r text = true <-> matches_ignoring_case r text.
Proof.
  unfold Regex.test, matches_ignoring_case. split.
  - destruct (Regex.chars text) as [cs|] eqn:Hcs; [|discriminate].
    apply chars_spec in Hcs as [Hall <-].
    intros (before & word & after & -> & HL)%search_spec.
    by exists before, word, after.
  - intros (before & word & after & Hall & -> & HL).
    rewrite (proj2 (chars_spec _ _) (conj Hall eq_refl)).
    apply search_spec. by exists before, word, after.
Qed.

(** *** Reading a pattern *)

Lemma stands_for_itself_parse (c : ascii) (rest : string)
    (cur : Regex.frame) (stack : list Regex.frame) :
  stands_for_itself c ->
  Regex.parse (String c rest) cur stack
  = Regex.parse rest (Regex.push_atom (Regex.Chr c) cur) stack.
Proof.
  intros [Hp Hm]. revert Hp Hm.
  destruct c as [[] [] [] [] [] [] [] []]; intros Hp Hm;
    try reflexivity; exfalso;
    first [ apply Hm; simpl; tauto
          | unfold printable_ascii in Hp; simpl in Hp; lia ].
Qed.

Lemma escapable_parse (c : ascii) (rest : string)
    (cur : Regex.frame) (stack : list Regex.frame) :
  escapable c ->
  Regex.parse (String "\" (String c rest)) cur stack
  = Regex.parse rest (Regex.push_atom (Regex.Chr c) cur) stack.
Proof.
  intros [Hp Hm]. revert Hp Hm.
  destruct c as [[] [] [] [] [] [] [] []]; intros Hp Hm;
    try reflexivity; exfalso;
    first [ solve [ apply Hm; unfold letters_and_digits; simpl;
                    repeat (first [left; reflexivity | right]) ]
          | unfold printable_ascii in Hp; simpl in Hp; lia ].
Qed.

Lemma open_group_parse (c : ascii) (rest : string)
    (cur : Regex.frame) (stack : list Regex.frame) :
  c <> "?"%char -> c <> "*"%char ->
  Regex.parse (String "(" (String c rest)) cur stack
  = Regex.parse (String c rest) Regex.empty_frame (cur :: stack).
Proof.
  intros H1 H2.
  destruct c as [[] [] [] [] [] [] [] []]; try reflexivity; congruence.
Qed.

(** No part of a pattern starts with a quantifier; atoms and pieces
    are not empty. *)
Lemma reads_head (p : part) (s : string) (l : list Regex.re) :
  Reads p s l ->
  match s with
  | EmptyString => p = Sequence \/ p = Choice
  | String c _ => c <> "?"%char /\ c <> "*"%char
  end.
Proof.
  induction 1 as [ c [Hp Hm] | | c Hc | s cs H IH
                 | s a H IH | s a H IH | s a H IH | s a H IH
                 | | s1 s2 a l H1 IH1 H2 IH2
                 | s l H IH | s1 s2 l cs H1 IH1 H2 IH2 ];
    try (split; discriminate); try tauto.
  - split; intros ->; apply Hm; simpl; tauto.
  - destruct s; [destruct IH; discriminate | done].
  - destruct s; [destruct IH; discriminate | done].
  - destruct s; [destruct IH; discriminate | done].
  - destruct s; [destruct IH; discriminate | done].
  - destruct s1; [destruct IH1; discriminate | done].
  - destruct s; [by right | done].
  - destruct s1; [split; discriminate | done].
Qed.

Lemma cat_of_rev (l : list Regex.re) : Regex.cat_of (rev l) = sequence l.
Proof.
  unfold Regex.cat_of, sequence. rewrite <- (rev_involutive l) at 2.
  symmetry. apply fold_left_rev_right.
Qed.

(** Reading a part of a pattern takes the parser from the frame before
    it to the frame with that part added. *)
Lemma parse_reads (p : part) (s : string) (l : list Regex.re) :
  Reads p s l ->
  match p with
  | Atom =>
      forall rest alts_ atoms_ q stk,
      exists a, l = [a] /\
        Regex.parse (s ++ rest) (Regex.mkFrame alts_ atoms_ q) stk
        = Regex.parse rest (Regex.mkFrame alts_ (a :: atoms_) false) stk
  | Piece =>
      forall rest alts_ atoms_ q stk,
      exists a q', l = [a] /\
        Regex.parse (s ++ rest) (Regex.mkFrame alts_ atoms_ q) stk
        = Regex.parse rest (Regex.mkFrame alts_ (a :: atoms_) q') stk
  | Sequence =>
      forall rest alts_ atoms_ q stk,
      exists q',
        Regex.parse (s ++ rest) (Regex.mkFrame alts_ atoms_ q) stk
        = Regex.parse rest (Regex.mkFrame alts_ (rev l ++ atoms_)%list q') stk
  | Choice =>
      forall rest alts_ q stk,
      exists f,
        Regex.parse (s ++ rest) (Regex.mkFrame alts_ [] q) stk
        = Regex.parse rest f stk
        /\ Regex.close_alt f = More.choice_after alts_ l
  end.
Proof.
  induction 1 as [ c Hc | | c Hc | s cs H IH
                 | s a H IH | s a H IH | s a H IH | s a H IH
                 | | s1 s2 a l H1 IH1 H2 IH2
                 | s l H IH | s1 s2 l cs H1 IH1 H2 IH2 ];
    intros rest alts_.
  - intros atoms_ q stk. eexists. split; [done|].
    rewrite append_String. by rewrite stands_for_itself_parse.
  - intros atoms_ q stk. by eexists.
  - intros atoms_ q stk. eexists. split; [done|].
    rewrite !append_String. by rewrite escapable_parse.
  - intros atoms_ q stk. eexists. split; [done|].
    replace (("(" ++ s ++ ")") ++ rest) with (String "(" (s ++ String ")" rest))
      by (change ("(" ++ s ++ ")") with (String "(" (s ++ ")"));
          by rewrite append_String, append_assoc).
    destruct (IH (String ")" rest) None false
                 (Regex.mkFrame alts_ atoms_ q :: stk)) as (f & Hf & Hc).
    pose proof (reads_head _ _ _ H) as Hhead.
    destruct s as [|c s'].
    + change ("" ++ ?x) with x in *. simpl in Hf |- *.
      etransitivity; [exact Hf|]. unfold Regex.push_atom; simpl.
      by rewrite Hc.
    + rewrite append_String in *. destruct Hhead as [Hq Hs].
      rewrite open_group_parse by done.
      change Regex.empty_frame with (Regex.mkFrame None [] false).
      rewrite Hf. simpl. by rewrite Hc.
  - intros atoms_ q stk.
    destruct (IH rest alts_ atoms_ q stk) as (a0 & [= <-] & Hp).
    by exists a, false.
  - intros atoms_ q stk. rewrite append_assoc.
    destruct (IH ("*" ++ rest) alts_ atoms_ q stk) as (a0 & [= <-] & Hp).
    exists (Regex.Star a), true. split; [done|]. by rewrite Hp.
  - intros atoms_ q stk. rewrite append_assoc.
    destruct (IH ("+" ++ rest) alts_ atoms_ q stk) as (a0 & [= <-] & Hp).
    exists (Regex.Cat a (Regex.Star a)), true. split; [done|]. by rewrite Hp.
  - intros atoms_ q stk. rewrite append_assoc.
    destruct (IH ("?" ++ rest) alts_ atoms_ q stk) as (a0 & [= <-] & Hp).
    exists (Regex.Alt a Regex.Eps), true. split; [done|]. by rewrite Hp.
  - intros atoms_ q stk. by exists q.
  - intros atoms_ q stk. rewrite append_assoc.
    destruct (IH1 (s2 ++ rest) alts_ atoms_ q stk) as (a0 & q1 & [= <-] & Hp).
    destruct (IH2 rest alts_ (a :: atoms_) q1 stk) as (q2 & Hs).
    exists q2. rewrite Hp, Hs. simpl. by rewrite <- app_assoc.
  - intros q stk. destruct (IH rest alts_ [] q stk) as (q' & Hs).
    eexists. split; [exact Hs|].
    unfold Regex.close_alt; simpl. rewrite app_nil_r, cat_of_rev.
    by destruct alts_.
  - intros q stk.
    replace ((s1 ++ "|" ++ s2) ++ rest) with (s1 ++ String "|" (s2 ++ rest))
      by (by rewrite !append_assoc).
    destruct (IH1 (String "|" (s2 ++ rest)) alts_ [] q stk) as (q' & Hs).
    rewrite Hs.
    destruct (IH2 rest
                (Some (Regex.close_alt
                         (Regex.mkFrame alts_ (rev l ++ [])%list q')))
                false stk) as (f & Hf & Hc).
    exists f. split; [exact Hf|]. rewrite Hc.
    unfold Regex.close_alt; simpl. rewrite app_nil_r, cat_of_rev.
    by destruct alts_.
Qed.

(** The engine reads every pattern of the grammar as the grammar
    does. *)
Lemma compile_pattern (s : string) (r : Regex.re) :
  Pattern s r -> Regex.compile s = Regex.Compiled r.
Proof.
  intros (cs & Hr & ->).
  destruct (parse_reads _ _ _ Hr "" None false []) as (f & Hf & Hc).
  rewrite append_empty_r in Hf. unfold Regex.compile.
  change Regex.empty_frame with (Regex.mkFrame None [] false).
  rewrite Hf. simpl. by rewrite Hc.
Qed.

(** *** Plain fragments *)

Lemma letter_stands_for_itself (c : ascii) :
  In c letters_and_digits -> stands_for_itself c.
Proof.
  unfold letters_and_digits. simpl. intros Hc.
  repeat (destruct Hc as [<-|Hc];
          [split; [unfold printable_ascii; simpl; lia
                  | simpl; intros Hm;
                    repeat (destruct Hm as [Hm|Hm]; [discriminate Hm|]);
                    done]|]).
  done.
Qed.

Lemma plain_reads (s : string) :
  plain s ->
  Reads Sequence s (map Regex.Chr (list_ascii_of_string s)).
Proof.
  unfold plain. induction s as [|c s IH]; simpl; intros Hs.
  - constructor.
  - inversion Hs as [|c' l' Hc Hrest]; subst.
    apply (R_cons (String c "") s).
    + apply R_once, R_char. by apply letter_stands_for_itself.
    + by apply IH.
Qed.

Lemma plain_pattern (s : string) :
  plain s -> Pattern s (sequence (map Regex.Chr (list_ascii_of_string s))).
Proof.
  intros Hs. eexists. split; [apply R_one, plain_reads, Hs | done].
Qed.

Lemma Word_Eps (w : list string) : Word Regex.Eps w <-> w = [].
Proof. split; [by inversion 1 | intros ->; constructor]. Qed.

Lemma Word_Chr (c : ascii) (w : list string) :
  Word (Regex.Chr c) w <->
  exists ch, w = [ch] /\ same_ignoring_case (String c "") ch.
Proof.
  split.
  - inversion 1; subst. by eexists.
  - intros (ch & -> & Hc). by constructor.
Qed.

(** The words of a run of letters are the runs of characters equal to
    them, letter by letter, ignoring case. *)
Lemma Word_letters (cs : list ascii) (w : list string) :
  Word (sequence (map Regex.Chr cs)) w <->
  Forall2 same_ignoring_case (map (fun c => String c "") cs) w.
Proof.
  revert w. induction cs as [|c cs IH]; intros w.
  - simpl. rewrite Word_Eps. split; [intros ->; constructor | by inversion 1].
  - destruct cs as [|c' cs'].
    + simpl. rewrite Word_Chr. split.
      * intros (ch & -> & Hc). constructor; [done | constructor].
      * inversion 1 as [|? ch ? w' Hc Hrest]; subst.
        inversion Hrest; subst. by exists ch.
    + assert (sequence (map Regex.Chr (c :: c' :: cs'))
              = Regex.Cat (Regex.Chr c) (sequence (map Regex.Chr (c' :: cs'))))
        as ->.
      { unfold sequence. simpl.
        by destruct (fold_right _ _ (map Regex.Chr cs')). }
      split.
      * inversion 1 as [| | |? ? w1 w2 H1 H2| | | |]; subst.
        apply Word_Chr in H1 as (ch & -> & Hc).
        constructor; [done|]. by apply IH.
      * inversion 1 as [|? ch ? w' Hc Hrest]; subst.
        change (ch :: w') with ([ch] ++ w')%list.
        constructor; [by constructor | by apply IH].
Qed.

(** *** Name search *)

Lemma entities_of_docs (l : list Student) (fields : list (string * Value)) :
  field "data" fields = Some (docs l) ->
  entities_of (mkResponse 200 (VObj fields)) = l.
Proof.
  intros Hf. unfold entities_of; simpl. rewrite Hf. unfold docs.
  clear Hf. induction l as [|s l IH]; [done|]. cbn. f_equal. exact IH.
Qed.

Lemma sublist_filter {A} (f : A -> bool) (l : list A) :
  sublist (List.filter f l) l.
Proof.
  induction l as [|x l IH]; simpl; [constructor|].
  destruct (f x); by constructor.
Qed.

Section SearchHandler.
Context {schema : Schema}.

(** The answer to a search whose fragment is a pattern of the grammar:
    the stored entities whose name matches it, in stored order. *)
Lemma search_pattern (req : Request) (st : Store) (r : Regex.re) :
  Pattern (param req "name") r ->
  exists result,
    search_students req st
    = (Resolved (search_response (param req "name") result), st) /\
    sublist result (students st) /\
    forall s, In s result <->
              In s (students st) /\ matches_ignoring_case r (name (doc s)).
Proof.
  intros Hr%compile_pattern.
  exists (List.filter (fun s => Regex.test true r (name (doc s))) (students st)).
  split; [by apply search_compiled|]. split; [apply sublist_filter|].
  intros s. by rewrite filter_In, test_spec.
Qed.


End SearchHandler.

Lemma plain_ann : plain "ann".
Proof.
  unfold plain, letters_and_digits. simpl.
  repeat constructor; simpl; tauto.
Qed.


(** The example of the specification: a search for "ann" returns the
    entities named "Anna" and "ANNE", and not the one named "Bob". *)
Example search_ann :
  fst (search_students (model := Demo.model) (Demo.at_path "name" "ann")
         Demo.three_students)
  = Resolved (search_response "ann" [Demo.anna; Demo.anne]).
Proof. vm_compute. reflexivity. Qed.

Example ann_matches_Anna :
  matches_ignoring_case
    (Regex.Cat (Regex.Chr "a") (Regex.Cat (Regex.Chr "n") (Regex.Chr "n")))
    "Anna".
Proof.
  exists [], ["A"; "n"; "n"], ["a"]. split.
  - repeat constructor; unfold continuation; simpl; lia.
  - split; [reflexivity|].
    apply (W_Cat _ _ ["A"] ["n"; "n"]);
      [|apply (W_Cat _ _ ["n"] ["n"])]; constructor;
      first [ by left | right; exists ["a"; "A"]; simpl; tauto ].
Qed.

Example ann_matches_ANNE :
  matches_ignoring_case
    (Regex.Cat (Regex.Chr "a") (Regex.Cat (Regex.Chr "n") (Regex.Chr "n")))
    "ANNE".
Proof. apply test_spec. reflexivity. Qed.

Example ann_does_not_match_Bob :
  ~ matches_ignoring_case
      (Regex.Cat (Regex.Chr "a") (Regex.Cat (Regex.Chr "n") (Regex.Chr "n")))
      "Bob".
Proof. rewrite <- test_spec. discriminate. Qed.

(** [.] takes one character, of one byte or of several. *)
Example dot_takes_one_character :
  Regex.compile "a.b"
  = Regex.Compiled
      (Regex.Cat (Regex.Chr "a") (Regex.Cat Regex.AnyChar (Regex.Chr "b"))) /\
  Regex.test true
    (Regex.Cat (Regex.Chr "a") (Regex.Cat Regex.AnyChar (Regex.Chr "b")))
    ("a" ++ bytes [195; 169]%nat ++ "b") = true /\
  Regex.test true
    (Regex.Cat (Regex.Chr "a") (Regex.Cat Regex.AnyChar (Regex.Chr "b")))
    ("a" ++ bytes [195; 169]%nat ++ bytes [195; 169]%nat ++ "b") = false.
Proof. repeat split. Qed.

(** The Kelvin sign is a case of [k]. *)
Example kelvin_is_k :
  Regex.test true (Regex.Chr "k") (bytes [226; 132; 170]%nat) = true /\
  Regex.test false (Regex.Chr "k") (bytes [226; 132; 170]%nat) = false.
Proof. by split. Qed.

Example compile_ann :
  Regex.compile "ann"
  = Regex.Compiled
      (Regex.Cat (Regex.Chr "a") (Regex.Cat (Regex.Chr "n") (Regex.Chr "n"))).
Proof. reflexivity. Qed.

Example compile_group_star :
  Regex.compile "a(b|c)*"
  = Regex.Compiled
      (Regex.Cat (Regex.Chr "a")
         (Regex.Star (Regex.Alt (Regex.Chr "b") (Regex.Chr "c")))).
Proof. reflexivity. Qed.

Example group_star_is_a_pattern :
  Pattern "a(b|c)*"
    (Regex.Cat (Regex.Chr "a")
       (Regex.Star (Regex.Alt (Regex.Chr "b") (Regex.Chr "c")))).
Proof.
  assert (forall c, In c letters_and_digits ->
            Reads Sequence (String c "") [Regex.Chr c]) as Hone.
  { intros c Hc. apply (R_cons (String c "") ""); [|constructor].
    by apply R_once, R_char, letter_stands_for_itself. }
  assert (In "a"%char letters_and_digits /\ In "b"%char letters_and_digits
          /\ In "c"%char letters_and_digits) as (Ha & Hb & Hc)
    by (unfold letters_and_digits; simpl; tauto).
  exists [Regex.Cat (Regex.Chr "a")
            (Regex.Star (Regex.Alt (Regex.Chr "b") (Regex.Chr "c")))].
  split; [|done].
  apply (R_one "a(b|c)*" [Regex.Chr "a";
           Regex.Star (Regex.Alt (Regex.Chr "b") (Regex.Chr "c"))]).
  apply (R_cons "a" "(b|c)*").
  - by apply R_once, R_char, letter_stands_for_itself.
  - apply (R_cons "(b|c)*" ""); [|constructor].
    apply (R_star "(b|c)").
    apply (R_group "b|c" [Regex.Chr "b"; Regex.Chr "c"]).
    apply (R_more "b" "c" [Regex.Chr "b"] [Regex.Chr "c"]); [by apply Hone|].
    apply (R_one "c" [Regex.Chr "c"]). by apply Hone.
Qed.

Example compile_unbalanced :
  Regex.compile "(" = Regex.Invalid "missing closing parenthesis".
Proof. reflexivity. Qed.

Example compile_dangling_star :
  Regex.compile "*a"
  = Regex.Invalid "quantifier does not follow a repeatable item".
Proof. reflexivity. Qed.

Example compile_anchor : Regex.compile "^a" = Regex.Beyond.
Proof. reflexivity. Qed.

(* ===================================================================== *)
(** ** Further properties of the handlers *)
(* ===================================================================== *)

Import More.

(** *** Under any model *)

Ltac open_handlers :=
  unfold create_student, create_bulk, get_all, get_by_id, filter_students,
    search_students, update_student, update_operators, delete_student, stats,
    try_catch, bind, ret, throw; simpl.

Ltac settle_calls :=
  repeat match goal with
  | |- context [match ?o with Some _ => _ | None => _ end] =>
      destruct o; simpl
  | |- context [match ?m ?st with _ => _ end] =>
      destruct (m st) as [[?|?] ?] eqn:?; simpl
  end.

(** X1. Each handler sends only the status codes of its own [try] and
    [catch] blocks: 201 or 400 from the two create handlers; 200 or 500
    from list, filter, search and stats; 200, 404 or 500 from get-by-id
    and delete; 200, 404 or 400 from the two update handlers. *)
Theorem status_codes_per_handler :
  forall (S : Type) (model : StudentModel S) (op : Operation)
         (req : Request) (st : S),
    exists resp st',
      handler op req st = (Resolved resp, st') /\
      In (status resp) (statuses op).
Proof.
  intros S model op req st.
  destruct op; simpl; open_handlers;
    try (destruct (build_query _ _ _); simpl);
    settle_calls;
    do 2 eexists; (split; [reflexivity|]); simpl; auto.
Qed.

(** X2. Whatever is thrown inside the [try] block of a handler, by the
    awaited model call or by [courses.split], is answered with the status
    of that handler's [catch] block and the thrown error's message, word
    for word. *)
Theorem thrown_errors_are_reported :
  forall (S : Type) (model : StudentModel S) (op : Operation)
         (req : Request) (st : S) (e : Error),
    thrown op req st = Some e ->
    exists st',
      handler op req st = (Resolved (failure (catch_status op) e), st') /\
      status (failure (catch_status op) e) = catch_status op /\
      error_text (failure (catch_status op) e) = Some (message e) /\
      success_flag (failure (catch_status op) e) = Some false.
Proof.
  intros S model op req st e.
  destruct op; simpl; open_handlers;
    try (destruct (build_query _ _ _); simpl);
    settle_calls; intros [= <-]; eexists; done.
Qed.

Lemma entities_of_json (code : Z) (l : list Student)
    (fields : list (string * Value)) :
  field "data" fields = Some (docs l) ->
  entities_of (json code fields) = l.
Proof.
  intros Hf. unfold entities_of, json; simpl. rewrite Hf. unfold docs.
  clear Hf. induction l as [|s l IH]; [done|]. cbn. f_equal. exact IH.
Qed.

Ltac read_entities :=
  match goal with
  | |- context [entities_of (json ?c ?f)] =>
      match f with
      | context [("data", docs ?l)] =>
          rewrite (entities_of_json c l f eq_refl)
      end
  end.

(** X3. In every successful response of the four handlers that report a
    [count] (bulk create, list, filter, search), the count is the number
    of entities in [data]. *)
Theorem count_is_length_of_data :
  forall (S : Type) (model : StudentModel S) (op : Operation)
         (req : Request) (st : S),
    counts op = true ->
    exists resp st',
      handler op req st = (Resolved resp, st') /\
      (success_flag resp = Some true ->
       get "count" (body resp)
       = Some (VNum (Z.of_nat (length (entities_of resp))))).
Proof.
  intros S model op req st Hop.
  destruct op; try discriminate; simpl; open_handlers;
    try (destruct (build_query _ _ _); simpl);
    settle_calls;
    do 2 eexists; (split; [reflexivity|]); try discriminate; intros _;
    by read_entities.
Qed.

(** X4. A filter request whose [courses] is not a string (a repeated or
    bracketed query key) is answered 500 with the message of the
    TypeError of [courses.split]; the model is not called at all. *)
Theorem filter_courses_not_a_string :
  forall (S : Type) (model : StudentModel S) (req : Request) (st : S)
         (n : nat) (courses : QueryVal),
    query req !! "courses" = Some courses ->
    truthy courses = true ->
    split_method courses = None ->
    filter_students (model := counting model) req (st, n)
    = (Resolved (failure 500 (type_error "courses.split is not a function")),
       (st, n)).
Proof.
  intros S model req st n courses Hc Ht Hs.
  unfold filter_students, try_catch, build_query. rewrite Hc. simpl.
  rewrite Ht, Hs. by destruct (truthy _).
Qed.

(** X5. The filter handler reads [minMarks] only through its truthiness
    and [parseInt]: two requests that agree on [courses] and [city], and
    whose [minMarks] are both truthy with the same [parseInt], get the
    same answer. *)
Theorem filter_reads_minMarks_through_parseInt :
  forall (S : Type) (model : StudentModel S) (req1 req2 : Request) (st : S),
    query req1 !! "courses" = query req2 !! "courses" ->
    query req1 !! "city" = query req2 !! "city" ->
    truthy (default QUndef (query req1 !! "minMarks"))
    = truthy (default QUndef (query req2 !! "minMarks")) ->
    parseInt (to_string (default QUndef (query req1 !! "minMarks")))
    = parseInt (to_string (default QUndef (query req2 !! "minMarks"))) ->
    filter_students req1 st = filter_students req2 st.
Proof.
  intros S model req1 req2 st Hc Hci Ht Hp.
  unfold filter_students, build_query. by rewrite Hc, Hci, Ht, Hp.
Qed.

(** X21. The keys of a response are fixed per handler: a failure carries
    exactly [success] and [error]; a success carries [success], then
    [description] (filter, search, operator update, stats), [message]
    (delete) or [count] (bulk create, list, filter, search), then [data].
    So no response carries both [error] and [data]. *)
Theorem response_keys_per_handler :
  forall (S : Type) (model : StudentModel S) (op : Operation)
         (req : Request) (st : S),
    exists resp st',
      handler op req st = (Resolved resp, st') /\
      keys_of resp
      = match success_flag resp with
        | Some true => success_keys op
        | _ => ["success"; "error"]
        end.
Proof.
  intros S model op req st.
  destruct op; simpl; open_handlers;
    try (destruct (build_query _ _ _); simpl);
    settle_calls;
    do 2 eexists; (split; reflexivity).
Qed.

Lemma thrown_errors_are_reported_witness :
  exists st',
    handler (model := Demo.model) GetById (Demo.at_path "id" "xyz")
            Demo.three_students
    = (Resolved (failure 500 (bad_id "xyz")), st') /\
    status (failure 500 (bad_id "xyz")) = 500 /\
    error_text (failure 500 (bad_id "xyz")) = Some (message (bad_id "xyz")) /\
    success_flag (failure 500 (bad_id "xyz")) = Some false.
Proof.
  apply (thrown_errors_are_reported Store Demo.model GetById
           (Demo.at_path "id" "xyz") Demo.three_students (bad_id "xyz")).
  reflexivity.
Defined.

Lemma count_is_length_of_data_witness :
  exists resp st',
    handler (model := Demo.model) ListAll Demo.bare Demo.three_students
    = (Resolved resp, st') /\
    (success_flag resp = Some true ->
     get "count" (body resp)
     = Some (VNum (Z.of_nat (length (entities_of resp))))).
Proof.
  apply (count_is_length_of_data Store Demo.model ListAll Demo.bare
           Demo.three_students).
  reflexivity.
Defined.

Lemma filter_courses_not_a_string_witness :
  filter_students (model := counting Demo.model)
    (Demo.with_query {["courses" := QArr ["Math"; "CS"]]})
    (Demo.three_students, 0%nat)
  = (Resolved (failure 500 (type_error "courses.split is not a function")),
     (Demo.three_students, 0%nat)).
Proof.
  apply (filter_courses_not_a_string Store Demo.model
           (Demo.with_query {["courses" := QArr ["Math"; "CS"]]})
           Demo.three_students 0%nat (QArr ["Math"; "CS"]));
    reflexivity.
Defined.

(** [minMarks] given as a no-break space (U+00A0) followed by [50], and
    as [50px]. *)
Lemma filter_reads_minMarks_through_parseInt_witness :
  filter_students (model := Demo.model)
    (Demo.with_query {["minMarks" := QStr (bytes [194; 160]%nat ++ "50")]})
    Demo.three_students
  = filter_students (model := Demo.model)
      (Demo.with_query {["minMarks" := QStr "50px"]}) Demo.three_students.
Proof.
  apply (filter_reads_minMarks_through_parseInt Store Demo.model
           (Demo.with_query {["minMarks" := QStr (bytes [194; 160]%nat ++ "50")]})
           (Demo.with_query {["minMarks" := QStr "50px"]})
           Demo.three_students);
    reflexivity.
Defined.

(** The two are answered with the entities of marks 50 and above, and a
    [minMarks] with no digits is answered 500. *)
Example filter_no_break_space_50 :
  fst (filter_students (model := Demo.model)
         (Demo.with_query {["minMarks" := QStr (bytes [194; 160]%nat ++ "50")]})
         Demo.three_students)
  = Resolved (filter_response [Demo.anna; Demo.bob]).
Proof. vm_compute. reflexivity. Qed.

(** *** On the reference store *)

Lemma by_id_app_fresh (n : N) (s : Student) (l : list Student) :
  Forall (fun x => (_id x < n)%N) l -> _id s = n -> by_id n (l ++ [s]) = Some s.
Proof.
  intros Hl Hs. induction Hl as [|x l Hx Hl IH]; simpl.
  - by rewrite Hs, N.eqb_refl.
  - destruct (N.eqb_spec (_id x) n); [lia | exact IH].
Qed.

Lemma remove_first_perm (i : N) (s : Student) (l : list Student) :
  by_id i l = Some s -> Permutation (s :: remove_first i l) l.
Proof.
  induction l as [|x l IH]; simpl; [discriminate|].
  destruct (N.eqb_spec (_id x) i) as [Heq|Hne].
  - by intros [= ->].
  - intros Hf. rewrite perm_swap. constructor. by apply IH.
Qed.

Lemma by_id_remove_first_ne (i j : N) (l : list Student) :
  j <> i -> by_id j (remove_first i l) = by_id j l.
Proof.
  intros Hne. induction l as [|x l IH]; simpl; [done|].
  destruct (N.eqb_spec (_id x) i) as [Heq|Hxi]; simpl.
  - destruct (N.eqb_spec (_id x) j); [congruence | done].
  - destruct (N.eqb_spec (_id x) j); [done | exact IH].
Qed.

Section StoreProperties.
Context {schema : Schema}.

(** X6. Create, then get: in a store reached by serving requests from
    the empty store, a create whose body passes the schema answers 201
    with the new entity, and a get-by-id with the identifier the store
    gave it answers 200 with that same entity. *)
Theorem create_then_get :
  forall (trace : list Event) (req get_req : Request) (d : StudentData),
    cast_doc (req_body req) = Resolved d ->
    parse_id (param get_req "id") = Some (next_id (run trace empty_store)) ->
    exists s st1,
      doc s = d /\
      create_student req (run trace empty_store)
      = (Resolved (created_response s), st1) /\
      get_by_id get_req st1 = (Resolved (found_response s), st1).
Proof.
  intros trace req get_req d Hd Hid.
  pose proof (wf_run trace empty_store wf_empty) as [_ Hlt].
  set (st := run trace empty_store) in *.
  exists (mkStudent (next_id st) (clock st) d), (snd (insert_doc d st)).
  split; [done|]. split.
  - unfold create_student, try_catch, bind; simpl. unfold mem_create.
    destruct (req_body req) eqn:Hbody; try (by rewrite Hd).
    destruct (cast_doc_array l) as [e He]. congruence.
  - unfold get_by_id, try_catch, bind; simpl. unfold mem_findById.
    rewrite Hid. unfold insert_doc; simpl. by rewrite by_id_app_fresh.
Qed.

(** X7. The five handlers that only read (list, get-by-id, filter,
    search, stats) leave the store as it was, whatever they answer. *)
Theorem read_handlers_keep_the_store :
  forall (op : Operation) (req : Request) (st : Store),
    reads op = true ->
    snd (handler op req st) = st.
Proof.
  intros op req st Hop.
  destruct op; try discriminate; simpl; open_handlers.
  - unfold mem_find. by destruct (query_error _).
  - unfold mem_findById. destruct (parse_id _); [|done].
    by destruct (by_id _ _).
  - destruct (build_query _ _ _); simpl; [|done].
    unfold mem_find. by destruct (query_error _).
  - unfold mem_find. by destruct (query_error _).
  - done.
Qed.

(** X8. The same malformed identifier is answered with a different
    status by different handlers: 500 by get-by-id and delete, 400 by the
    two update handlers; in all four the message is the store's and the
    store is unchanged. *)
Theorem malformed_identifier_status_by_handler :
  forall (op : Operation) (req : Request) (st : Store),
    by_identifier op = true ->
    parse_id (param req "id") = None ->
    handler op req st
    = (Resolved (failure (catch_status op) (bad_id (param req "id"))), st).
Proof.
  intros op req st Hop Hid.
  destruct op; try discriminate; simpl; open_handlers;
    unfold mem_findById, mem_findByIdAndUpdate, mem_findByIdAndDelete;
    by rewrite Hid.
Qed.

(** X9. A well-formed identifier that no stored entity has is answered
    404 with "Student not found" by get-by-id, by the operator update
    and by delete, and by the whole update when its body passes the cast
    of the update.  A whole update whose body fails that cast is
    answered 400 with the error of the cast: the update is cast before
    the entity is looked up.  In each case the store is unchanged. *)
Theorem unknown_identifier_is_not_found :
  forall (op : Operation) (req : Request) (st : Store) (i : N),
    by_identifier op = true ->
    parse_id (param req "id") = Some i ->
    by_id i (students st) = None ->
    handler op req st
    = (Resolved match update_cast_error op req with
                | Some e => failure 400 e
                | None => not_found
                end, st) /\
    status not_found = 404 /\
    error_text not_found = Some "Student not found".
Proof.
  intros op req st i Hop Hid Hf. split; [|done].
  destruct op; try discriminate; simpl; open_handlers;
    unfold mem_findById, mem_findByIdAndUpdate, mem_findByIdAndDelete;
    rewrite Hid; simpl; try (by rewrite Hf).
  destruct (cast_update _); [done|]. by rewrite Hf.
Qed.

(** X10. Update, then get: when either update handler answers 200, its
    [data] is the stored entity afterwards: a get-by-id of the same
    identifier answers 200 with the same entity. *)
Theorem update_then_get :
  forall (op : Operation) (req : Request) (st st1 : Store) (resp : Response),
    op = UpdateWhole \/ op = UpdateOperators ->
    handler op req st = (Resolved resp, st1) ->
    status resp = 200 ->
    exists s,
      get "data" (body resp) = Some (VDoc s) /\
      get_by_id req st1 = (Resolved (found_response s), st1).
Proof.
  intros op req st st1 resp Hop.
  assert (forall u o (r : option Student) (st' : Store),
            new o = true ->
              mem_findByIdAndUpdate (param req "id") u o st = (Resolved r, st') ->
              match r with
              | Some s => get_by_id req st' = (Resolved (found_response s), st')
              | None => True
              end) as Hround.
  { intros u o r st' Hnew. unfold mem_findByIdAndUpdate.
    destruct (parse_id (param req "id")) as [i|] eqn:Hid; [|discriminate].
    destruct (check_update u); [discriminate|].
    destruct (by_id i (students st)) as [s|] eqn:Hf; [|by intros [= <- <-]].
    destruct (apply_update u (doc s)) as [d'|]; [|discriminate].
    rewrite Hnew. intros [= <- <-].
    unfold get_by_id, try_catch, bind; simpl. unfold mem_findById.
    rewrite Hid. simpl.
    pose proof (by_id_Some _ _ _ Hf) as [Hi _].
    by rewrite (by_id_replace_first i s
                  (mkStudent (_id s) (createdAt s) d') _ Hf Hi). }
  destruct Hop as [-> | ->]; simpl;
    unfold update_student, update_operators, try_catch, bind; simpl.
  - destruct (mem_findByIdAndUpdate _ _ _ st) as [[[s|]|e] st'] eqn:Hu;
      simpl; intros [= <- <-]; try discriminate.
    intros _. exists s. split; [done|].
    refine (Hround _ _ _ _ _ Hu). reflexivity.
  - destruct (mem_findByIdAndUpdate _ _ _ st) as [[[s|]|e] st'] eqn:Hu;
      simpl; intros [= <- <-]; try discriminate.
    intros _. exists s. split; [done|].
    refine (Hround _ _ _ _ _ Hu). reflexivity.
Qed.

(** X11. Delete removes the entity it returns and nothing else: the
    collection before is the collection after plus the deleted entity,
    every other identifier still finds what it found, and the count of
    list-all drops by one. *)
Theorem delete_removes_exactly_one :
  forall (req list_req : Request) (st : Store) (i : N) (s : Student),
    parse_id (param req "id") = Some i ->
    by_id i (students st) = Some s ->
    exists st1 l,
      delete_student req st = (Resolved (deleted_response s), st1) /\
      Permutation (s :: students st1) (students st) /\
      (forall j, j <> i -> by_id j (students st1) = by_id j (students st)) /\
      get_all list_req st1 = (Resolved (list_response l), st1) /\
      Datatypes.S (length l) = length (students st).
Proof.
  intros req list_req st i s Hid Hf.
  set (st1 := with_students (remove_first i (students st)) st).
  exists st1, (sort_docs [("createdAt", -1)] (students st1)).
  assert (Permutation (s :: students st1) (students st)) as Hperm
    by (by apply remove_first_perm).
  split.
  { unfold delete_student, try_catch, bind; simpl.
    unfold mem_findByIdAndDelete. by rewrite Hid, Hf. }
  split; [done|]. split.
  { intros j Hj. by apply by_id_remove_first_ne. }
  split; [apply get_all_lists|].
  destruct (sort_docs_newest_first (students st1)) as [Hp _].
  rewrite (Permutation_length Hp), <- (Permutation_length Hperm). done.
Qed.

Lemma length_remove_first (i : N) (s : Student) (l : list Student) :
  by_id i l = Some s -> Datatypes.S (length (remove_first i l)) = length l.
Proof.
  intros Hf. by rewrite <- (Permutation_length (remove_first_perm i s l Hf)).
Qed.

Lemma insert_batch_length (partial : list Value -> list StudentData)
    (items : list Value) (st st' : Store) (ss : list Student) :
  insert_batch partial items st = (Resolved ss, st') ->
  length (students st') = (length (students st) + length ss)%nat.
Proof.
  unfold insert_batch, stored_of.
  destruct (cast_all items) as [ds|]; [|by destruct (insert_all _ _)].
  pose proof (length_insert_all ds st) as [H1 H2].
  destruct (insert_all ds st) as [ss' st'']. intros [= <- <-].
  simpl in *. lia.
Qed.

(** Only the two create handlers answer 201. *)
Lemma created_in_other (op : Operation) (req : Request) (st : Store) :
  op <> CreateOne -> op <> CreateMany ->
  created_in (fst (serve op req st)) = 0%nat.
Proof.
  intros H1 H2. unfold serve.
  destruct op; try congruence; simpl; open_handlers;
    try (destruct (build_query _ _ _); simpl);
    settle_calls; reflexivity.
Qed.

Lemma other_size (op : Operation) (req : Request) (st : Store) :
  op <> CreateOne -> op <> CreateMany -> op <> Delete ->
  length (students (snd (serve op req st))) = length (students st) /\
  created_in (fst (serve op req st)) = 0%nat.
Proof.
  intros H1 H2 H3. split; [|by apply created_in_other].
  assert (is_delete (Call op req) = false) as Hd by (by destruct op).
  rewrite <- (Nat.add_0_r (length (students st))).
  replace 0%nat with (creations_of (Call op req)) by (by destruct op).
  apply (step_length (Call op req) st Hd).
Qed.

(** X22. The size of the collection changes as the responses say, a
    failed create apart: after any request that is not a create
    answered 400, it is the size before, plus the entities a 201
    response returns, minus one for a delete answered 200.  (A create
    answered 400 may have stored a part of its batch.) *)
Theorem collection_size_accounting :
  forall (op : Operation) (req : Request) (st : Store),
    failed_create op (fst (serve op req st)) = false ->
    (length (students (snd (serve op req st)))
     + deleted_in op (fst (serve op req st)))%nat
    = (length (students st) + created_in (fst (serve op req st)))%nat.
Proof.
  intros op req st.
  destruct op;
    try (intros _;
         match goal with
         | |- context [serve ?op req st] =>
             destruct (other_size op req st ltac:(done) ltac:(done) ltac:(done))
               as [-> ->]
         end; simpl; lia);
    unfold serve; cbn [handler failed_create deleted_in].
  - unfold create_student, try_catch, bind, ret; cbn [create mem_model].
    unfold mem_create. destruct (req_body req) eqn:Hbody;
      try (destruct (cast_doc _); simpl; [rewrite length_app; simpl|];
           intros; (lia || discriminate)).
    destruct (insert_batch _ _ _) as [[ss|e] st'] eqn:Hb; simpl;
      [|discriminate].
    intros _. rewrite (insert_batch_length _ _ _ _ _ Hb).
    unfold docs. by rewrite length_map.
  - unfold create_bulk, try_catch, bind, ret; cbn [insertMany mem_model].
    unfold mem_insertMany.
    destruct (insert_batch _ _ _) as [[ss|e] st'] eqn:Hb; simpl;
      [|discriminate].
    intros _. rewrite (insert_batch_length _ _ _ _ _ Hb).
    unfold docs. by rewrite length_map.
  - intros _.
    pose proof (created_in_other Delete req st ltac:(done) ltac:(done)) as Hc.
    unfold serve in Hc. cbn [handler] in Hc. rewrite Hc. clear Hc.
    unfold delete_student, try_catch, bind; simpl.
    unfold mem_findByIdAndDelete.
    destruct (parse_id _) as [i|]; simpl; [|lia].
    destruct (by_id i _) as [s|] eqn:Hf; simpl; [|lia].
    rewrite <- (length_remove_first i s _ Hf). lia.
Qed.

End StoreProperties.

(** *** More on the filter handler *)

Section FilterLookups.
Context {schema : Schema}.

Lemma query_error_lookup (q : Query) (k : string) (e : QueryEntry) (err : Error) :
  q !! k = Some e -> entry_error k e = Some err ->
  exists err', query_error q = Some err'.
Proof.
  intros Hk He. destruct (query_error q) as [err'|] eqn:Hq; [by eexists|].
  apply query_error_None in Hq. specialize (Hq k e Hk). simpl in Hq. congruence.
Qed.

Lemma matches_lookup (q : Query) (k : string) (e : QueryEntry) (s : Student) :
  q !! k = Some e -> matches q s = true -> entry_holds k e s = true.
Proof.
  intros Hk Hm. unfold matches in Hm. apply bool_decide_eq_true in Hm.
  exact (Hm k e Hk).
Qed.

Lemma matches_course (l : list string) (s : Student) :
  matches (<["course" := QCond (In_ l)]> ∅) s = string_in (course (doc s)) l.
Proof.
  rewrite matches_insert by apply lookup_empty. rewrite matches_empty. simpl.
  apply andb_true_r.
Qed.

End FilterLookups.


(** The pieces of a split do not contain the separator. *)
Lemma split_pieces (sep : ascii) (s : string) :
  split sep s <> [] /\
  forall p, In p (split sep s) -> has_char sep p = false.
Proof.
  induction s as [|c s [Hne IH]]; simpl.
  - split; [done|]. intros p [<-|[]]. done.
  - destruct (Ascii.eqb c sep) eqn:Hc.
    + split; [done|]. intros p [<-|Hin]; [done | by apply IH].
    + destruct (split sep s) as [|h t]; [done|].
      split; [done|]. intros p [<-|Hin].
      * simpl. rewrite Hc. simpl. apply IH. by left.
      * apply IH. by right.
Qed.

Lemma join_comma_cons_char (c : ascii) (h : string) (t : list string) :
  join_comma (String c h :: t) = String c (join_comma (h :: t)).
Proof. destruct t; reflexivity. Qed.

(** X12. [split] loses nothing: joining the pieces of
    [courses.split(",")] with commas gives [courses] back. *)
Theorem split_then_join (s : string) : join_comma (split "," s) = s.
Proof.
  induction s as [|c s IH]; simpl; [done|].
  destruct (split_pieces "," s) as [Hne _].
  destruct (Ascii.eqb c ",") eqn:Hc.
  - apply Ascii.eqb_eq in Hc as ->.
    destruct (split "," s) as [|h t]; [done|].
    change (join_comma ("" :: h :: t)) with ("" ++ "," ++ join_comma (h :: t)).
    by rewrite IH.
  - destruct (split "," s) as [|h t]; [done|].
    by rewrite join_comma_cons_char, IH.
Qed.

Section FilterMore.
Context {schema : Schema}.

Lemma build_query_courses_only (minMarks city_ : QueryVal) (courses : option string) :
  truthy minMarks = false ->
  build_query minMarks (as_query courses) city_
  = Resolved (match given courses with
              | Some cs => <["course" := QCond (In_ (split "," cs))]> ∅
              | None => ∅
              end).
Proof.
  intros Hm. unfold build_query. rewrite Hm, andb_false_r.
  by destruct courses as [[|a cs]|].
Qed.

(** X13. Without a marks threshold ([minMarks] absent or empty), the
    filter returns exactly the stored entities whose course is one of the
    comma-separated [courses], in store order, and every stored entity
    when [courses] is absent or empty too; [city] plays no part. *)
Theorem filter_without_threshold :
  forall (req : Request) (st : Store) (courses : option string),
    truthy (default QUndef (query req !! "minMarks")) = false ->
    query req !! "courses" = QStr <$> courses ->
    filter_students req st
    = (Resolved
         (filter_response
            (List.filter (course_clause (split "," <$> given courses))
                         (students st))),
       st).
Proof.
  intros req st courses Hm Hc.
  unfold filter_students, try_catch.
  rewrite (lookup_as_query _ _ _ Hc), (build_query_courses_only _ _ _ Hm).
  unfold bind, ret, find; simpl.
  rewrite (mem_find_filter _ (course_clause (split "," <$> given courses)));
    [done | |].
  - destruct (given courses); simpl; [|apply query_error_empty].
    apply query_error_insert_None;
      [apply lookup_empty | done | apply query_error_empty].
  - intros s. unfold course_clause. destruct (given courses); simpl.
    + rewrite matches_course. apply bool_decide_spec.
      by rewrite string_in_In, <- list_elem_of_In.
    + by rewrite matches_empty.
Qed.

(** The answer to a request with a readable threshold. *)
Lemma filter_with_threshold_answer (req : Request) (st : Store) (m : string)
    (t : Z) (courses city_ : option string) :
  query req !! "minMarks" = Some (QStr m) ->
  m <> "" ->
  parseInt m = Num t ->
  query req !! "courses" = QStr <$> courses ->
  query req !! "city" = QStr <$> city_ ->
  filter_students req st
  = (Resolved
       (filter_response
          (List.filter
             (spec_filter t (split "," <$> given courses) (given city_))
             (students st))),
     st).
Proof.
  intros Hmarks Hm Ht Hcourses Hcity.
  unfold filter_students, try_catch.
  rewrite Hmarks, (lookup_as_query _ _ _ Hcourses), (lookup_as_query _ _ _ Hcity).
  change (default QUndef (Some (QStr m))) with (QStr m).
  rewrite (build_query_threshold m t courses city_ Hm Ht).
  unfold bind, ret, find; simpl.
  rewrite (mem_find_filter _
             (spec_filter t (split "," <$> given courses) (given city_))).
  - reflexivity.
  - destruct (given courses), (given city_); simpl;
      repeat (apply query_error_insert_None;
              [repeat (rewrite lookup_insert_ne by done); apply lookup_empty
              | done |]);
      apply query_error_empty.
  - intros s.
    destruct (given courses) as [cs|], (given city_) as [c|]; simpl.
    + rewrite matches_or_course.
      apply (city_or_marks_selected c t (Some (split "," cs))).
    + rewrite (insert_insert_ne (M := gmap string)) by done.
      rewrite matches_marks_course.
      apply (marks_and_course_selected t (Some (split "," cs))).
    + rewrite matches_or, <- (city_or_marks_selected c t None).
      by rewrite andb_true_r.
    + rewrite matches_marks, <- (marks_and_course_selected t None).
      by rewrite andb_true_r.
Qed.

(** X14. With a marks threshold, adding a [city] parameter never removes
    an entity from the answer: everything the request without [city]
    returns, the request with [city] returns too. *)
Theorem city_only_adds_entities :
  forall (req : Request) (st : Store) (m : string) (t : Z)
         (courses : option string) (c : string),
    query req !! "minMarks" = Some (QStr m) ->
    m <> "" ->
    parseInt m = Num t ->
    query req !! "courses" = QStr <$> courses ->
    query req !! "city" = Some (QStr c) ->
    exists with_city_ without,
      filter_students req st = (Resolved (filter_response with_city_), st) /\
      filter_students (without_city req) st
      = (Resolved (filter_response without), st) /\
      forall s, In s without -> In s with_city_.
Proof.
  intros req st m t courses c Hmarks Hm Ht Hcourses Hcity.
  eexists _, _. split; [|split].
  - by apply (filter_with_threshold_answer req st m t courses (Some c)).
  - apply (filter_with_threshold_answer (without_city req) st m t courses None);
      try done; unfold without_city; simpl.
    + by rewrite lookup_delete_ne.
    + by rewrite lookup_delete_ne.
    + by rewrite lookup_delete_eq.
  - intros s. rewrite !filter_In. intros [Hin Hs]. split; [done|].
    unfold spec_filter in *. apply bool_decide_eq_true in Hs as [Hmk Hco].
    apply bool_decide_eq_true.
    destruct c as [|a c']; simpl; [by split | split; [by right | done]].
Qed.

Lemma build_query_keeps_course (minMarks city_ : QueryVal) (cs : string) (q : Query) :
  cs <> "" ->
  build_query minMarks (QStr cs) city_ = Resolved q ->
  q !! "course" = Some (QCond (In_ (split "," cs))).
Proof.
  intros Hcs. unfold build_query.
  assert (truthy (QStr cs) = true) as -> by (by destruct cs).
  simpl split_method.
  destruct (truthy minMarks), (truthy city_); simpl;
    intros [= <-]; by simplify_map_eq.
Qed.

Lemma entities_of_failure (code : Z) (e : Error) :
  entities_of (failure code e) = [].
Proof. reflexivity. Qed.

(** X15. A filter with a [courses] parameter never returns an entity
    whose course contains a comma, whatever the other parameters are:
    the parameter is cut at every comma, so no piece can equal such a
    course. *)
Theorem comma_course_is_never_matched :
  forall (req : Request) (st st' : Store) (cs : string) (resp : Response)
         (s : Student),
    query req !! "courses" = Some (QStr cs) ->
    cs <> "" ->
    filter_students req st = (Resolved resp, st') ->
    In s (entities_of resp) ->
    has_char "," (course (doc s)) = false.
Proof.
  intros req st st' cs resp s Hc Hcs.
  unfold filter_students, try_catch. rewrite Hc.
  change (default QUndef (Some (QStr cs))) with (QStr cs).
  destruct (build_query _ (QStr cs) _) as [q|e] eqn:Hq; simpl.
  - pose proof (build_query_keeps_course _ _ _ _ Hcs Hq) as Hk.
    unfold bind, ret, find; simpl. unfold mem_find.
    destruct (query_error q); simpl; intros [= <- <-].
    + by rewrite entities_of_failure.
    + read_entities. simpl.
      rewrite filter_In. intros [_ Hm].
      apply (matches_lookup _ _ _ _ Hk) in Hm. simpl in Hm.
      apply string_in_In in Hm.
      by apply (split_pieces "," cs).
  - unfold throw. intros [= <- <-]. by rewrite entities_of_failure.
Qed.

(** X16. A [minMarks] that [parseInt] cannot read as a number is not
    treated as absent: the request is answered 500 and returns no
    entity. *)
Theorem unreadable_threshold_fails :
  forall (req : Request) (st : Store),
    truthy (default QUndef (query req !! "minMarks")) = true ->
    parseInt (to_string (default QUndef (query req !! "minMarks"))) = NaN ->
    exists e,
      filter_students req st = (Resolved (failure 500 e), st).
Proof.
  intros req st Ht Hp.
  unfold filter_students, try_catch, build_query. rewrite Ht, Hp, andb_true_r.
  set (courses := default QUndef (query req !! "courses")).
  set (city_ := default QUndef (query req !! "city")).
  assert (forall q : Query,
            (q !! "marks" = Some (QCond (Gte NaN))
             \/ q !! "$or" = Some (QOr [[("city", Eq city_)];
                                        [("marks", Gte NaN)]])) ->
            exists e, query_error q = Some e) as Herr.
  { intros q [Hk|Hk].
    - by apply (query_error_lookup q "marks" (QCond (Gte NaN))
                  (cast_error "Number" "NaN" "number" "marks")).
    - destruct (entry_error "$or" (QOr [[("city", Eq city_)];
                                         [("marks", Gte NaN)]])) as [err|] eqn:He.
      + by apply (query_error_lookup q "$or"
                    (QOr [[("city", Eq city_)]; [("marks", Gte NaN)]]) err).
      + exfalso. revert He. simpl.
        destruct city_; simpl; try done. by destruct (cast_object _ _). }
  destruct (truthy courses); [destruct (split_method courses)|]; simpl;
    try (by eexists);
    unfold bind, find; simpl; unfold mem_find.
  - destruct (truthy city_).
    + destruct (Herr (delete "marks"
                        (<["$or" := QOr [[("city", Eq city_)];
                                         [("marks", Gte NaN)]]]>
                           (<["course" := QCond (In_ l)]>
                              (<["marks" := QCond (Gte NaN)]> ∅)))))
        as [e ->]; [right; by simplify_map_eq | by eexists].
    + destruct (Herr (<["course" := QCond (In_ l)]>
                        (<["marks" := QCond (Gte NaN)]> ∅)))
        as [e ->]; [left; by simplify_map_eq | by eexists].
  - destruct (truthy city_).
    + destruct (Herr (delete "marks"
                        (<["$or" := QOr [[("city", Eq city_)];
                                         [("marks", Gte NaN)]]]>
                           (<["marks" := QCond (Gte NaN)]> ∅))))
        as [e ->]; [right; by simplify_map_eq | by eexists].
    + destruct (Herr (<["marks" := QCond (Gte NaN)]> ∅))
        as [e ->]; [left; by simplify_map_eq | by eexists].
Qed.

End FilterMore.

(** *** Repeated operator updates *)

Section Repeated.
Context {schema : Schema}.

Lemma operator_updated_times_fields (n : nat) (s : Student) :
  _id (operator_updated_times n s) = _id s /\
  marks (doc (operator_updated_times n s)) = marks (doc s) + 5 * Z.of_nat n /\
  subjects (doc (operator_updated_times n s))
  = (subjects (doc s) ++ repeat "AI" n)%list.
Proof.
  unfold operator_updated_times.
  induction n as [|n (Hid & Hm & Hs)].
  - simpl. split; [done|]. split; [lia|]. by rewrite app_nil_r.
  - rewrite Nat.iter_succ.
    set (sn := Nat.iter n operator_updated s) in *. simpl.
    rewrite Hid, Hm, Hs. split; [done|]. split; [lia|].
    rewrite <- app_assoc. f_equal.
    change ("AI" :: repeat "AI" n) with (["AI"] ++ repeat "AI" n)%list.
    by rewrite <- repeat_cons.
Qed.

Lemma served_update_succ (req : Request) (n : nat) (st : Store) :
  served_times UpdateOperators req (Datatypes.S n) st
  = snd (update_operators req (served_times UpdateOperators req n st)).
Proof. reflexivity. Qed.

(** X17. Operator updates accumulate without bound: after [n] operator
    updates of one entity its marks are 5n higher and "AI" is appended
    to its subjects [n] times, and every other entity is as it was. *)
Theorem operator_update_n_times :
  forall (req : Request) (st : Store) (i : N) (s : Student) (n : nat),
    parse_id (param req "id") = Some i ->
    by_id i (students st) = Some s ->
    exists sn,
      by_id i (students (served_times UpdateOperators req n st)) = Some sn /\
      marks (doc sn) = marks (doc s) + 5 * Z.of_nat n /\
      subjects (doc sn) = (subjects (doc s) ++ repeat "AI" n)%list /\
      forall j, j <> i ->
        by_id j (students (served_times UpdateOperators req n st))
        = by_id j (students st).
Proof.
  intros req st i s n Hid Hf.
  exists (operator_updated_times n s).
  destruct (operator_updated_times_fields n s) as (_ & Hm & Hs).
  assert (by_id i (students (served_times UpdateOperators req n st))
          = Some (operator_updated_times n s) /\
          forall j, j <> i ->
            by_id j (students (served_times UpdateOperators req n st))
            = by_id j (students st)) as [Hfound Hothers].
  { clear Hm Hs. induction n as [|n [IH1 IH2]]; [done|].
    rewrite served_update_succ, (update_operators_found _ _ i _ Hid IH1).
    simpl.
    destruct (operator_updated_times_fields (Datatypes.S n) s) as (Hi & _).
    pose proof (by_id_Some _ _ _ Hf) as [Hsi _].
    split.
    - apply (by_id_replace_first i _ _ _ IH1). by rewrite <- Hsi.
    - intros j Hj. rewrite by_id_replace_first_ne; [by apply IH2 | | done].
      by rewrite <- Hsi. }
  done.
Qed.

End Repeated.

(** *** More on the statistics *)

Lemma sum_list_pointwise {K : Type} (f g : K -> nat) (ks : list K) :
  sum_list (map (fun k => (f k + g k)%nat) ks)
  = (sum_list (map f ks) + sum_list (map g ks))%nat.
Proof. induction ks as [|k ks IH]; simpl; [done|]. rewrite IH. lia. Qed.

Lemma sum_list_indicator {K : Type} `{EqDecision K} (k0 : K) (ks : list K) :
  NoDup ks -> In k0 ks ->
  sum_list (map (fun k => if bool_decide (k0 = k) then 1%nat else 0%nat) ks)
  = 1%nat.
Proof.
  assert (forall l : list K, ~ In k0 l ->
            sum_list (map (fun k => if bool_decide (k0 = k) then 1%nat else 0%nat) l)
            = 0%nat) as Hzero.
  { induction l as [|k l IH]; simpl; [done|]. intros Hni.
    rewrite bool_decide_eq_false_2 by (intros Heq; apply Hni; by left).
    rewrite IH by (intros Hin; apply Hni; by right). done. }
  induction 1 as [|k ks Hk Hnd IH]; simpl; [done|].
  rewrite list_elem_of_In in Hk. intros [->|Hin].
  - rewrite bool_decide_eq_true_2 by done. by rewrite Hzero.
  - rewrite bool_decide_eq_false_2 by (intros <-; done). by rewrite IH.
Qed.

(** Counting the elements of a list key by key counts each one once. *)
Lemma count_by_key {A K : Type} `{EqDecision K} (key : A -> K)
    (l : list A) (keys : list K) :
  NoDup keys ->
  (forall x, In x l -> In (key x) keys) ->
  sum_list (map (fun k => length (List.filter (fun x => bool_decide (key x = k)) l))
                keys)
  = length l.
Proof.
  intros Hnd. induction l as [|x l IH]; intros Hin.
  - simpl. clear. induction keys; simpl; auto.
  - rewrite (map_ext _
               (fun k => ((if bool_decide (key x = k) then 1 else 0)
                          + length (List.filter
                                      (fun y => bool_decide (key y = k)) l))%nat)).
    + rewrite sum_list_pointwise.
      rewrite (sum_list_indicator (key x) keys Hnd) by (apply Hin; by left).
      rewrite IH by (intros y Hy; apply Hin; by right). done.
    + intros k. simpl. by destruct (bool_decide (key x = k)).
Qed.

Lemma count_accumulator (members : list Row) :
  accumulate (Sum (Const 1)) members
  = ANum (inject_Z (Z.of_nat (length members))).
Proof.
  unfold accumulate. f_equal.
  rewrite <- (map_id members) at 1.
  rewrite (omap_map_Some _ id (fun _ => inject_Z 1)) by done.
  apply Qred_of_inject_Z, qsum_ones.
Qed.

Lemma total_bounds (lo hi : Z) (ms : list Z) :
  Forall (fun x => lo <= x) ms -> Forall (fun x => x <= hi) ms ->
  lo * Z.of_nat (length ms) <= total ms <= hi * Z.of_nat (length ms).
Proof.
  intros Hlo Hhi. induction ms as [|m ms IH]; simpl total; simpl length.
  - lia.
  - inversion Hlo; inversion Hhi; subst. specialize (IH ltac:(done) ltac:(done)).
    lia.
Qed.

Lemma average_between (mn mx : Z) (ms : list Z) :
  is_min mn ms -> is_max mx ms ->
  (inject_Z mn <= average ms)%Q /\ (average ms <= inject_Z mx)%Q.
Proof.
  intros [Hin Hlo] [_ Hhi].
  assert (0 < Z.of_nat (length ms)) as Hlen by (destruct ms; [done | simpl; lia]).
  destruct (total_bounds mn mx ms Hlo Hhi) as [H1 H2].
  assert (0 < inject_Z (Z.of_nat (length ms)))%Q as Hpos.
  { rewrite <- (Zlt_Qlt 0). exact Hlen. }
  unfold average. rewrite Qred_correct. split.
  - apply Qle_shift_div_l; [exact Hpos|].
    rewrite <- inject_Z_mult, <- Zle_Qle. exact H1.
  - apply Qle_shift_div_r; [exact Hpos|].
    rewrite <- inject_Z_mult, <- Zle_Qle. exact H2.
Qed.

Section StatisticsMore.
Context {schema : Schema}.

(** X18. The stats operation counts every stored entity exactly once:
    the [totalStudents] of its rows are whole numbers that add up to the
    size of the collection (so an empty collection gives no row). *)
Theorem stats_counts_every_entity_once :
  forall (req : Request) (st : Store),
    exists rows sizes,
      stats req st = (Resolved (stats_response rows), st) /\
      group_sizes rows = map (fun n => ANum (inject_Z (Z.of_nat n))) sizes /\
      sum_list sizes = length (students st).
Proof.
  intros req st.
  set (rows0 := map to_row (students st)).
  set (keys := remove_dups (map (eval (Path "course")) rows0)).
  set (members := fun k =>
         List.filter (fun r => bool_decide (eval (Path "course") r = k)) rows0).
  set (mk := fun k =>
         ("_id", k) :: map (fun fa => (fst fa, accumulate (snd fa) (members k)))
                           stats_fields).
  set (leb := fun a b : Row =>
                directed agg_leb (-1) (row_get "averageMarks" a)
                         (row_get "averageMarks" b)).
  assert (Permutation (sort_by leb (map mk keys)) (map mk keys)) as Hperm
    by apply sort_by_perm.
  apply Permutation_map_inv in Hperm as (keys' & Hrows & Hkeys).
  exists (sort_by leb (map mk keys)), (map (fun k => length (members k)) keys').
  split; [reflexivity|]. split.
  - rewrite Hrows. unfold group_sizes. rewrite !map_map.
    apply map_ext. intros k. unfold mk. simpl. apply count_accumulator.
  - rewrite <- Hkeys. unfold members.
    rewrite (count_by_key (eval (Path "course")) rows0 keys).
    + unfold rows0. apply length_map.
    + apply NoDup_remove_dups.
    + intros x Hx. unfold keys.
      rewrite <- list_elem_of_In, elem_of_remove_dups, list_elem_of_In.
      by apply in_map.
Qed.

(** X19. In every row of the stats operation the three summaries are
    consistent: minimum <= average <= maximum. *)
Theorem stats_min_average_max :
  forall (req : Request) (st : Store),
    exists rows,
      stats req st = (Resolved (stats_response rows), st) /\
      forall row, In row rows ->
        exists mn av mx,
          row_get "minMarks" row = ANum mn /\
          row_get "averageMarks" row = ANum av /\
          row_get "maxMarks" row = ANum mx /\
          (mn <= av)%Q /\ (av <= mx)%Q.
Proof.
  intros req st.
  set (G := group_stage (Path "course") stats_fields (map to_row (students st))).
  set (leb := fun a b : Row =>
                directed agg_leb (-1) (row_get "averageMarks" a)
                         (row_get "averageMarks" b)).
  exists (sort_by leb G). split; [reflexivity|].
  intros row Hin. apply (proj1 (sort_by_In leb G row)) in Hin.
  apply group_stage_rows in Hin as (c & _ & mx & mn & Hmax & Hmin & ->).
  destruct (average_between _ _ _ Hmin Hmax) as [H1 H2].
  by eexists _, _, _.
Qed.

End StatisticsMore.

(** *** Searching for plain text *)

Section SearchMore.
Context {schema : Schema}.

(** X20. A search fragment made of ASCII letters and digits only is a
    plain case-insensitive substring search: an entity is returned iff
    it is stored and some run of characters of its name is the
    fragment, character by character, up to the case of letters. *)
Theorem plain_search_is_substring :
  forall (req : Request) (st : Store),
    plain (param req "name") ->
    exists result,
      search_students req st
      = (Resolved (search_response (param req "name") result), st) /\
      forall s, In s result <->
                In s (students st)
                /\ occurs_ignoring_case (param req "name") (name (doc s)).
Proof.
  intros req st Hp.
  destruct (search_pattern req st _ (plain_pattern _ Hp))
    as (result & Heq & _ & Hiff).
  exists result. split; [done|]. intros s. rewrite Hiff.
  unfold matches_ignoring_case, occurs_ignoring_case, letters_of.
  split; intros [Hin (b & w & a & H1 & H2 & H3)]; (split; [done|]);
    exists b, w, a; (split; [done|]); (split; [done|]);
    by apply Word_letters.
Qed.

End SearchMore.

(** *** The further properties at concrete inputs *)

Lemma create_then_get_witness :
  exists s st1,
    doc s = mkData "Cy" 70 "Art" "Goa" [] false /\
    create_student (model := Demo.model)
      (Demo.post (Demo.student_body "Cy" 70 "Art" "Goa"))
      (run (schema := plain_schema) Demo.three_creations empty_store)
    = (Resolved (created_response s), st1) /\
    get_by_id (model := Demo.model)
      (Demo.at_path "id" "000000000000000000000003") st1
    = (Resolved (found_response s), st1).
Proof.
  apply (@create_then_get plain_schema Demo.three_creations
           (Demo.post (Demo.student_body "Cy" 70 "Art" "Goa"))
           (Demo.at_path "id" "000000000000000000000003"));
    [reflexivity | vm_compute; reflexivity].
Defined.

Lemma read_handlers_keep_the_store_witness :
  snd (handler (model := Demo.model) Stats Demo.bare Demo.three_students)
  = Demo.three_students.
Proof.
  apply (@read_handlers_keep_the_store plain_schema Stats Demo.bare
           Demo.three_students).
  reflexivity.
Defined.

Lemma malformed_identifier_status_by_handler_witness :
  handler (model := Demo.model) UpdateOperators (Demo.at_path "id" "xyz")
          Demo.three_students
  = (Resolved (failure 400 (bad_id "xyz")), Demo.three_students).
Proof.
  apply (@malformed_identifier_status_by_handler plain_schema UpdateOperators
           (Demo.at_path "id" "xyz") Demo.three_students);
    reflexivity.
Defined.

(** An unknown identifier with a body that fails the cast of the
    update: 400, not 404. *)
Lemma unknown_identifier_is_not_found_witness :
  handler (model := Demo.model) UpdateWhole
          (Demo.at_path "id" "000000000000000000000009") Demo.three_students
  = (Resolved (failure 400 (mkError "ValidationError" "Student validation failed")),
     Demo.three_students) /\
  status not_found = 404 /\
  error_text not_found = Some "Student not found".
Proof.
  apply (@unknown_identifier_is_not_found plain_schema UpdateWhole
           (Demo.at_path "id" "000000000000000000000009")
           Demo.three_students 9%N);
    reflexivity.
Defined.

Example unknown_identifier_delete :
  handler (model := Demo.model) Delete
          (Demo.at_path "id" "000000000000000000000009") Demo.three_students
  = (Resolved not_found, Demo.three_students).
Proof. reflexivity. Qed.

Lemma update_then_get_witness :
  exists s,
    get "data" (body (operators_response (operator_updated Demo.anne)))
    = Some (VDoc s) /\
    get_by_id (model := Demo.model) (Demo.at_path "id" Demo.anne_id)
      (with_students
         (replace_first 1 (operator_updated Demo.anne)
                        (students Demo.three_students))
         Demo.three_students)
    = (Resolved (found_response s),
       with_students
         (replace_first 1 (operator_updated Demo.anne)
                        (students Demo.three_students))
         Demo.three_students).
Proof.
  apply (@update_then_get plain_schema UpdateOperators
           (Demo.at_path "id" Demo.anne_id) Demo.three_students);
    [by right | reflexivity | reflexivity].
Defined.

Lemma delete_removes_exactly_one_witness :
  exists st1 l,
    delete_student (model := Demo.model) (Demo.at_path "id" Demo.anne_id)
                   Demo.three_students
    = (Resolved (deleted_response Demo.anne), st1) /\
    Permutation (Demo.anne :: students st1) (students Demo.three_students) /\
    (forall j, j <> 1%N ->
       by_id j (students st1) = by_id j (students Demo.three_students)) /\
    get_all (model := Demo.model) Demo.bare st1
    = (Resolved (list_response l), st1) /\
    Datatypes.S (length l) = length (students Demo.three_students).
Proof.
  apply (@delete_removes_exactly_one plain_schema
           (Demo.at_path "id" Demo.anne_id) Demo.bare Demo.three_students
           1%N Demo.anne);
    reflexivity.
Defined.

Lemma filter_without_threshold_witness :
  filter_students (model := Demo.model)
    (Demo.with_query {["courses" := QStr "Math"; "city" := QStr "Delhi"]})
    Demo.three_students
  = (Resolved (filter_response [Demo.anna; Demo.bob]), Demo.three_students).
Proof.
  refine (eq_trans
            (@filter_without_threshold plain_schema
               (Demo.with_query {["courses" := QStr "Math"; "city" := QStr "Delhi"]})
               Demo.three_students (Some "Math") _ _) _);
    [reflexivity | reflexivity | vm_compute; reflexivity].
Defined.

Lemma city_only_adds_entities_witness :
  exists with_city_ without,
    filter_students (model := Demo.model)
      (Demo.with_query {["minMarks" := QStr "50"; "city" := QStr "Delhi"]})
      Demo.three_students
    = (Resolved (filter_response with_city_), Demo.three_students) /\
    filter_students (model := Demo.model)
      (without_city
         (Demo.with_query {["minMarks" := QStr "50"; "city" := QStr "Delhi"]}))
      Demo.three_students
    = (Resolved (filter_response without), Demo.three_students) /\
    forall s, In s without -> In s with_city_.
Proof.
  apply (@city_only_adds_entities plain_schema
           (Demo.with_query {["minMarks" := QStr "50"; "city" := QStr "Delhi"]})
           Demo.three_students "50" 50 None "Delhi");
    [reflexivity | discriminate | reflexivity | reflexivity | reflexivity].
Defined.

Lemma comma_course_is_never_matched_witness :
  has_char "," (course (doc Demo.bob)) = false.
Proof.
  apply (@comma_course_is_never_matched plain_schema
           (Demo.with_query {["courses" := QStr "Math,CS"; "minMarks" := QStr "50"]})
           Demo.three_students Demo.three_students "Math,CS"
           (filter_response [Demo.anna; Demo.bob]) Demo.bob);
    [reflexivity | discriminate | vm_compute; reflexivity
    | right; left; reflexivity].
Defined.

Lemma unreadable_threshold_fails_witness :
  exists e,
    filter_students (model := Demo.model)
      (Demo.with_query {["minMarks" := QStr "abc"]}) Demo.three_students
    = (Resolved (failure 500 e), Demo.three_students).
Proof.
  apply (@unreadable_threshold_fails plain_schema
           (Demo.with_query {["minMarks" := QStr "abc"]}) Demo.three_students);
    reflexivity.
Defined.

(** After a create of one valid body the collection is one larger. *)
Lemma collection_size_accounting_witness :
  (length (students
             (snd (serve (schema := plain_schema) CreateOne
                     (Demo.post (Demo.student_body "Cy" 70 "Art" "Goa"))
                     Demo.three_students)))
   + 0)%nat
  = (3 + 1)%nat.
Proof.
  apply (@collection_size_accounting plain_schema CreateOne
           (Demo.post (Demo.student_body "Cy" 70 "Art" "Goa"))
           Demo.three_students).
  reflexivity.
Defined.

Lemma operator_update_n_times_witness :
  exists sn,
    by_id 1 (students (served_times (schema := plain_schema) UpdateOperators
                         (Demo.at_path "id" Demo.anne_id) 3
                         Demo.three_students))
    = Some sn /\
    marks (doc sn) = marks (doc Demo.anne) + 5 * Z.of_nat 3 /\
    subjects (doc sn) = (subjects (doc Demo.anne) ++ repeat "AI" 3)%list /\
    forall j, j <> 1%N ->
      by_id j (students (served_times (schema := plain_schema) UpdateOperators
                           (Demo.at_path "id" Demo.anne_id) 3
                           Demo.three_students))
      = by_id j (students Demo.three_students).
Proof.
  apply (@operator_update_n_times plain_schema
           (Demo.at_path "id" Demo.anne_id) Demo.three_students 1%N Demo.anne
           3%nat);
    reflexivity.
Defined.

Lemma plain_search_is_substring_witness :
  exists result,
    search_students (model := Demo.model) (Demo.at_path "name" "ann")
                    Demo.three_students
    = (Resolved (search_response "ann" result), Demo.three_students) /\
    result = [Demo.anna; Demo.anne] /\
    forall s, In s result <->
              In s (students Demo.three_students)
              /\ occurs_ignoring_case "ann" (name (doc s)).
Proof.
  destruct (@plain_search_is_substring plain_schema
              (Demo.at_path "name" "ann") Demo.three_students plain_ann)
    as (result & Heq & Hiff).
  exists result. split; [exact Heq|]. split; [|exact Hiff].
  pose proof Heq as Hdata. vm_compute in Hdata.
  injection Hdata as _ Hdata.
  destruct result as [|x [|y [|z t]]]; try discriminate Hdata.
  by injection Hdata as <- <-.
Defined.

(** "Anna" holds the fragment "ann" up to case; "Bob" does not. *)
Example ann_occurs_in_Anna : occurs_ignoring_case "ann" "Anna".
Proof.
  exists [], ["A"; "n"; "n"], ["a"]. split.
  - repeat constructor; unfold continuation; simpl; lia.
  - split; [reflexivity|].
    unfold letters_of. simpl.
    constructor; [right; exists ["a"; "A"]; simpl; tauto|].
    constructor; [by left|]. constructor; [by left|]. constructor.
Qed.

Example unreadable_threshold_abc :
  fst (filter_students (model := Demo.model)
         (Demo.with_query {["minMarks" := QStr "abc"]}) Demo.three_students)
  = Resolved (failure 500 (cast_error "Number" "NaN" "number" "marks")).
Proof. vm_compute. reflexivity. Qed.

Example stats_of_empty_store :
  fst (stats (model := Demo.model) Demo.bare empty_store)
  = Resolved (stats_response []).
Proof. vm_compute. reflexivity. Qed.

(** The messages of the store's cast errors. *)
Example bad_id_message :
  message (bad_id "xyz")
  = "Cast to ObjectId failed for value " ++ quote ++ "xyz" ++ quote
    ++ " (type string) at path " ++ quote ++ "_id" ++ quote
    ++ " for model " ++ quote ++ "Student" ++ quote.
Proof. reflexivity. Qed.

(** An unknown identifier with a valid body: 404. *)
Example unknown_identifier_update :
  handler (model := Demo.model) UpdateWhole
          (mkRequest {["id" := "000000000000000000000009"]} ∅
                     (Demo.student_body "Cy" 70 "Art" "Goa"))
          Demo.three_students
  = (Resolved not_found, Demo.three_students).
Proof. reflexivity. Qed.

(** A city given twice is an array, and stands for membership. *)
Example filter_city_array :
  fst (filter_students (model := Demo.model)
         (Demo.with_query {["minMarks" := QStr "70";
                            "city" := QArr ["Delhi"; "Goa"]]})
         Demo.three_students)
  = Resolved (filter_response [Demo.anne; Demo.bob]).
Proof. vm_compute. reflexivity. Qed.
